(** * PKMNTCGDeals worker: the bounded, time-ordered post log

    A shallow embedding of the Cloudflare worker of this repository
    ([fetch] in the worker script): the key construction of the
    [/posts] POST handler, the paginated scan [listKV], the trimming
    [trimPosts] and the [/feed] GET projection, over a model of the KV
    namespace as a finite map from key names to stored JSON values.
    The scan and the keys of the earlier worker ([worker/index.js]) are
    in the module [Worker].

    Conventions of the model:
    - the contents of the namespace are a [gmap string value]; how the
      namespace pages a listing of them is a parameter ([lister]), and the
      properties are stated for namespaces that satisfy [lists_prefix];
    - the [do ... while] loops run on fuel, [None] meaning that the loop
      has not ended within the given number of rounds; every theorem that
      says that a function returns gives the fuel that suffices;
    - requests are served one after the other; a failing [ns.delete] is
      a parameter ([delete_fails]), and no other call of the namespace
      fails;
    - the clock and the random identifier are inputs of the handlers. *)

From Stdlib Require Import ZArith String Ascii Lia Bool.
From stdpp Require Import gmap strings list fin_maps sorting.

#[local] Set Warnings "-clear-no-such-hyp".

Open Scope Z_scope.

(** ** JavaScript strings and numbers

    Strings are sequences of code units compared lexicographically
    ([<] on strings and the default [Array.prototype.sort] order); the
    model covers code units below 256.  Numbers are modelled by [Z] where
    the program uses integers (exact in JavaScript below 2^53); [NaN] is
    [None] where it can arise. *)

Module JS.

(** [s.startsWith(p)] *)
Definition startsWith (s p : string) : bool := String.prefix p s.

(** A string is truthy unless it is empty. *)
Definition truthy_string (s : string) : bool :=
  match s with EmptyString => false | String _ _ => true end.

(** Decimal digit [d] (0..9) as a character. *)
Definition digit_char (d : Z) : ascii := ascii_of_N (48 + Z.to_N d).

(** The decimal digits of a non-negative integer, most significant first,
    put in front of [acc]. *)
Fixpoint digits_loop (fuel : nat) (n : Z) (acc : string) : string :=
  match fuel with
  | O => acc
  | S fuel' =>
      let acc' := String (digit_char (n mod 10)) acc in
      if n / 10 =? 0 then acc' else digits_loop fuel' (n / 10) acc'
  end.

Definition digits (n : Z) : string :=
  digits_loop (S (Z.to_nat (Z.log2 n))) n "".

(** [String(n)] for an integer [n]: the decimal form.  This is what
    JavaScript prints for the integers a number holds exactly, those
    below 2^53 in absolute value; larger numbers are rounded, and from
    10^21 on printed with an exponent, which the model does not cover. *)
Definition Number_toString (n : Z) : string :=
  if n <? 0 then String "-"%char (digits (- n)) else digits n.

Fixpoint repeat_string (k : nat) (f : string) : string :=
  match k with
  | O => ""
  | S k' => f +:+ repeat_string k' f
  end.

(** [s.padStart(maxLength, fillString)] *)
Definition padStart (maxLength : nat) (fillString s : string) : string :=
  let len := String.length s in
  if (maxLength <=? len)%nat || negb (truthy_string fillString) then s
  else substring 0 (maxLength - len)%nat
         (repeat_string (maxLength - len)%nat fillString) +:+ s.

(** White space skipped by [parseInt] (code units below 256). *)
Definition is_whitespace (c : ascii) : bool :=
  let n := N_of_ascii c in
  ((n =? 9) || (n =? 10) || (n =? 11) || (n =? 12) || (n =? 13)
   || (n =? 32) || (n =? 160))%N.

Fixpoint skip_whitespace (s : string) : string :=
  match s with
  | EmptyString => EmptyString
  | String c s' => if is_whitespace c then skip_whitespace s' else s
  end.

Definition digit_value (c : ascii) : option Z :=
  let n := Z.of_N (N_of_ascii c) in
  if (48 <=? n) && (n <=? 57) then Some (n - 48) else None.

(** The value of the longest prefix of decimal digits; [None] when there
    is no digit. *)
Fixpoint parse_digits (s : string) (acc : option Z) : option Z :=
  match s with
  | EmptyString => acc
  | String c s' =>
      match digit_value c with
      | Some d => parse_digits s' (Some (10 * default 0 acc + d))
      | None => acc
      end
  end.

(** [parseInt(s, 10)]; [None] is [NaN].  The value is exact, as in
    JavaScript for results below 2^53 in absolute value; JavaScript rounds
    larger ones to the nearest number. *)
Definition parseInt (s : string) : option Z :=
  match skip_whitespace s with
  | String "-"%char s' => Z.opp <$> parse_digits s' None
  | String "+"%char s' => parse_digits s' None
  | s' => parse_digits s' None
  end.

(** [len > max] where [max] may be [NaN]: a comparison with [NaN] is false. *)
Definition num_gt (len : Z) (max : option Z) : bool :=
  match max with
  | Some m => m <? len
  | None => false
  end.

(** [l.slice(0, end)] *)
Definition slice0 {A} (l : list A) (end_ : Z) : list A :=
  let len := Z.of_nat (length l) in
  let final := if end_ <? 0 then Z.max (len + end_) 0 else Z.min end_ len in
  take (Z.to_nat final) l.

(** [l.sort()] on strings: ascending by code units.  The order is total
    and antisymmetric, so the result does not depend on the algorithm. *)
Definition sort_strings (l : list string) : list string :=
  merge_sort String.le l.

(** [l.sort(cmp)].  The sort is stable: elements that compare equal keep
    their order.  For a consistent comparator every stable sort gives the
    same array; this one inserts the elements from the last to the first,
    each in front of the first element it may stand before
    ([cmp x y <= 0]). *)
Fixpoint sort_insert {A} (cmp : A -> A -> Z) (x : A) (l : list A) : list A :=
  match l with
  | [] => [x]
  | y :: l' => if cmp x y <=? 0 then x :: l else y :: sort_insert cmp x l'
  end.

Definition sort_by {A} (cmp : A -> A -> Z) (l : list A) : list A :=
  foldr (sort_insert cmp) [] l.

End JS.

(** ** Key construction of the [/posts] POST handler *)

(** [const tsKey = String(ts).padStart(13, "0")] *)
Definition tsKey (ts : Z) : string :=
  JS.padStart 13 "0" (JS.Number_toString ts).

(** [const key = id ? `post:${tsKey}:${id}`
                     : `post:${tsKey}:${crypto.randomUUID()}`] *)
Definition postKey (ts : Z) (id uuid : string) : string :=
  if JS.truthy_string id
  then "post:" +:+ tsKey ts +:+ ":" +:+ id
  else "post:" +:+ tsKey ts +:+ ":" +:+ uuid.

(** ** Stored values

    The namespace holds JSON documents; [ns.get(name, "json")] returns
    the parsed document, or [null] when the key is absent.  The
    documents this worker writes are the post item and the stats
    document; primitive JSON values can be stored by other writers. *)

Record post_item := PostItem {
  item_id : option string;       (* [id || undefined]: dropped when empty *)
  item_image_url : string;
  item_caption : string;
  item_author : string;
  item_retailer : string;
  item_timestamp : Z;
  item_message_url : string
}.

Record stats_doc := StatsDoc {
  members : Z;
  alerts_per_week : Z;
  recent_wins : Z;
  updated_at : Z
}.

Inductive value :=
| VNull
| VBool (b : bool)
| VNum (n : Z)
| VStr (s : string)
| VPost (p : post_item)
| VStats (d : stats_doc).

#[global] Instance post_item_eq_dec : EqDecision post_item.
Proof. solve_decision. Defined.

#[global] Instance stats_doc_eq_dec : EqDecision stats_doc.
Proof. solve_decision. Defined.

#[global] Instance value_eq_dec : EqDecision value.
Proof. solve_decision. Defined.

(** [if (v)] *)
Definition truthy (v : value) : bool :=
  match v with
  | VNull => false
  | VBool b => b
  | VNum n => negb (n =? 0)
  | VStr s => JS.truthy_string s
  | VPost _ | VStats _ => true
  end.

(** [v.timestamp || 0] for a truthy [v] *)
Definition timestamp_or_0 (v : value) : Z :=
  match v with
  | VPost p => item_timestamp p
  | _ => 0
  end.

(** ** The KV namespace *)

(** The answer of [ns.list({ prefix, cursor })]. *)
Record list_result := ListResult {
  keys : list string;            (* the [name] of each listed key *)
  list_complete : bool;
  cursor : option string
}.

(** [while (cursor)]: [undefined] and the empty string are falsy. *)
Definition truthy_cursor (c : option string) : bool :=
  match c with
  | Some s => JS.truthy_string s
  | None => false
  end.

(** [ns.get(name, "json")] on the contents [m] *)
Definition kv_get (m : gmap string value) (name : string) : value :=
  default VNull (m !! name).

(** [ns.put(name, JSON.stringify(v))] *)
Definition kv_put (m : gmap string value) (name : string) (v : value)
  : gmap string value := <[name := v]> m.

(** [ns.delete(name)] *)
Definition kv_delete (m : gmap string value) (name : string)
  : gmap string value := delete name m.

(** An element of the array [listKV] builds: [{ key: k.name, value: v }]. *)
Record entry := Entry { entry_key : string; entry_value : value }.

(** One [ns.list] call as the namespace sees it. *)
Record list_call := ListCall {
  call_prefix : string;
  call_cursor : option string
}.

(** [for (const k of keys) { const v = await ns.get(k.name, "json");
     if (v) out.push({ key: k.name, value: v }); }] *)
Definition push_entries (get : string -> value) (ks : list string)
    (out : list entry) : list entry :=
  foldl (fun out k => let v := get k in
                      if truthy v then out ++ [Entry k v] else out) out ks.

(** The [do ... while (cursor)] loop of [listKV]; the second component
    records the [ns.list] calls made, in order.  [None]: the loop has not
    ended within [fuel] rounds. *)
Fixpoint listKV_loop (fuel : nat)
    (list_fn : string -> option string -> list_result) (get : string -> value)
    (prefix : string) (cursor_ : option string)
    (out : list entry) (calls : list list_call)
  : option (list entry * list list_call) :=
  match fuel with
  | O => None
  | S fuel' =>
      let r := list_fn prefix cursor_ in
      let calls' := calls ++ [ListCall prefix cursor_] in
      let out' := push_entries get (keys r) out in
      let cursor' := if list_complete r then None else cursor r in
      if truthy_cursor cursor'
      then listKV_loop fuel' list_fn get prefix cursor' out' calls'
      else Some (out', calls')
  end.

Definition listKV_run (fuel : nat)
    (list_fn : string -> option string -> list_result) (get : string -> value)
    (prefix : string) : option (list entry * list list_call) :=
  listKV_loop fuel list_fn get prefix None [] [].

(** [async function listKV(ns, prefix)] *)
Definition listKV (fuel : nat)
    (list_fn : string -> option string -> list_result) (get : string -> value)
    (prefix : string) : option (list entry) :=
  fst <$> listKV_run fuel list_fn get prefix.

(** The first loop of [trimPosts]: collect every listed name. *)
Fixpoint trim_names_loop (fuel : nat)
    (list_fn : string -> option string -> list_result)
    (prefix : string) (cursor_ : option string) (names : list string)
  : option (list string) :=
  match fuel with
  | O => None
  | S fuel' =>
      let r := list_fn prefix cursor_ in
      let names' := foldl (fun names k => names ++ [k]) names (keys r) in
      let cursor' := if list_complete r then None else cursor r in
      if truthy_cursor cursor'
      then trim_names_loop fuel' list_fn prefix cursor' names'
      else Some names'
  end.

(** [names.sort(); names.slice(0, names.length - max)] when
    [names.length > max], and nothing otherwise. *)
Definition trim_targets (names : list string) (max : option Z) : list string :=
  let sorted := JS.sort_strings names in
  if JS.num_gt (Z.of_nat (length sorted)) max
  then JS.slice0 sorted (Z.of_nat (length sorted) - default 0 max)
  else [].

(** The outcome of awaiting a promise. *)
Inductive settled := Fulfilled | Rejected.

Section Namespace.

(** How the namespace pages the listing of its contents. *)
Variable lister : gmap string value -> string -> option string -> list_result.

(** The names whose [ns.delete] call fails. *)
Variable delete_fails : string -> bool.

(** [await Promise.all(toDelete.map((n) => ns.delete(n)))]: [map] issues
    every delete; the ones that succeed remove their key, and the whole
    is rejected when one of them fails.  The deletes are on distinct
    names, so the order in which they take effect does not matter. *)
Definition delete_all (toDelete : list string) (m : gmap string value)
  : gmap string value * settled :=
  (foldl (fun m n => if delete_fails n then m else kv_delete m n) m toDelete,
   if existsb delete_fails toDelete then Rejected else Fulfilled).

(** [async function trimPosts(ns, prefix, max)] *)
Definition trimPosts (fuel : nat) (m : gmap string value) (prefix : string)
    (max : option Z) : option (gmap string value * settled) :=
  names ← trim_names_loop fuel (lister m) prefix None [];
  Some (delete_all (trim_targets names max) m).

(** *** The request body of [POST /posts], with its fields at the JSON
    types the handler expects. *)
Record post_body := PostBody {
  body_timestamp : option Z;
  body_id : option string;
  body_image_url : option string;
  body_caption : option string;
  body_author : option string;
  body_retailer : option string;
  body_message_url : option string
}.

Inductive response :=
| Bad (msg : string) (code : Z)      (* [bad(msg, code)] *)
| OkKey (key : string)               (* [json({ ok: true, key })] *)
| OkPlain                            (* [json({ ok: true })] *)
| Thrown.                            (* the handler's promise is rejected *)

(** [Number(body.timestamp) || Date.now()] *)
Definition post_ts (body : post_body) (now : Z) : Z :=
  match body_timestamp body with
  | Some n => if n =? 0 then now else n
  | None => now
  end.

(** [String(body.id || "")] *)
Definition post_id (body : post_body) : string := default "" (body_id body).

(** [body.f ? String(body.f) : ""] *)
Definition opt_text (f : option string) : string := default "" f.

Definition post_item_of (body : post_body) (now : Z) : post_item :=
  let id := post_id body in
  {| item_id := if JS.truthy_string id then Some id else None;
     item_image_url := default "" (body_image_url body);
     item_caption := opt_text (body_caption body);
     item_author := opt_text (body_author body);
     item_retailer := opt_text (body_retailer body);
     item_timestamp := post_ts body now;
     item_message_url := opt_text (body_message_url body) |}.

(** [parseInt(env.MAX_POSTS || "50", 10)] *)
Definition max_posts (MAX_POSTS : option string) : option Z :=
  JS.parseInt (match MAX_POSTS with
               | Some s => if JS.truthy_string s then s else "50"
               | None => "50"
               end).

(** The write and the trim of [POST /posts]:
    [await env.POSTS.put(key, JSON.stringify(item));
     await trimPosts(env.POSTS, "post:", max);
     return json({ ok: true, key });] *)
Definition append (fuel : nat) (m : gmap string value) (key : string)
    (item : post_item) (max : option Z)
  : option (gmap string value * response) :=
  '(m', st) ← trimPosts fuel (kv_put m key (VPost item)) "post:" max;
  Some (m', match st with Fulfilled => OkKey key | Rejected => Thrown end).

(** [if (path === "/posts" && method === "POST")].  [authed] is the
    result of [isAuthed()], [body] the parsed request ([None] when
    [request.json()] throws), [now] the value of [Date.now()] and [uuid]
    the value of [crypto.randomUUID()]. *)
Definition posts_POST (fuel : nat) (MAX_POSTS : option string)
    (authed : bool) (body : option post_body) (now : Z) (uuid : string)
    (m : gmap string value) : option (gmap string value * response) :=
  if negb authed then Some (m, Bad "unauthorized" 401) else
  match body with
  | None => Some (m, Bad "invalid json" 400)
  | Some body =>
      if negb (JS.truthy_string (default "" (body_image_url body)))
      then Some (m, Bad "missing image_url" 400)
      else
        let ts := post_ts body now in
        let id := post_id body in
        let key := postKey ts id uuid in
        append fuel m key (post_item_of body now) (max_posts MAX_POSTS)
  end.

(** [if (path === "/feed" && method === "GET")]:
    [items.sort((a, b) => (b.value.timestamp || 0) - (a.value.timestamp || 0));
     items.slice(0, 48).map((x) => x.value)] *)
Definition feed_cmp (a b : entry) : Z :=
  timestamp_or_0 (entry_value b) - timestamp_or_0 (entry_value a).

(** The projection, with the literal 48 of the handler as [page_size]. *)
Definition feed_page (page_size : Z) (items : list entry) : list value :=
  entry_value <$> JS.slice0 (JS.sort_by feed_cmp items) page_size.

Definition feed_GET (fuel : nat) (m : gmap string value) : option (list value) :=
  items ← listKV fuel (lister m) (kv_get m) "post:";
  Some (feed_page 48 items).

(** The request body of [POST /stats]: [Number(body.f) || 0] per field. *)
Record stats_body := StatsBody {
  sb_members : option Z;
  sb_alerts_per_week : option Z;
  sb_recent_wins : option Z
}.

(** [if (path === "/stats" && method === "POST")] *)
Definition stats_POST (authed : bool) (body : option stats_body) (now : Z)
    (m : gmap string value) : gmap string value * response :=
  if negb authed then (m, Bad "unauthorized" 401) else
  match body with
  | None => (m, Bad "invalid json" 400)
  | Some body =>
      let doc := {| members := default 0 (sb_members body);
                    alerts_per_week := default 0 (sb_alerts_per_week body);
                    recent_wins := default 0 (sb_recent_wins body);
                    updated_at := now |} in
      (kv_put m "stats:current" (VStats doc), OkPlain)
  end.

End Namespace.

(** ** The earlier worker ([worker/index.js])

    Its scan keeps the values only and leaves the loop with [break] when
    the listing is complete; its keys carry the timestamp unpadded. *)

Module Worker.

(** [for (const k of keys) { const val = await ns.get(k.name, "json");
     if (val) out.push(val); }] *)
Definition push_values (get : string -> value) (ks : list string)
    (out : list value) : list value :=
  foldl (fun out k => let val := get k in
                      if truthy val then out ++ [val] else out) out ks.

Fixpoint listKV_loop (fuel : nat)
    (list_fn : string -> option string -> list_result) (get : string -> value)
    (prefix : string) (cursor_ : option string) (out : list value)
  : option (list value) :=
  match fuel with
  | O => None
  | S fuel' =>
      let r := list_fn prefix cursor_ in
      let cursor' := cursor r in
      let out' := push_values get (keys r) out in
      if list_complete r then Some out'
      else if truthy_cursor cursor'
           then listKV_loop fuel' list_fn get prefix cursor' out'
           else Some out'
  end.

(** [async function listKV(ns, prefix)] *)
Definition listKV (fuel : nat)
    (list_fn : string -> option string -> list_result) (get : string -> value)
    (prefix : string) : option (list value) :=
  listKV_loop fuel list_fn get prefix None [].

(** [`post:${item.timestamp}:${item.id}`] *)
Definition postKey (ts : Z) (id : string) : string :=
  "post:" +:+ JS.Number_toString ts +:+ ":" +:+ id.

End Worker.

(** ** Sequences of [POST /posts] requests *)

(** An authorised request with a parsed body, with the clock reading and
    the random identifier the handler draws while it serves it. *)
Record post_request := PostRequest {
  req_body : post_body;
  req_now : Z;
  req_uuid : string
}.

Definition req_ts (r : post_request) : Z := post_ts (req_body r) (req_now r).

Definition req_key (r : post_request) : string :=
  postKey (req_ts r) (post_id (req_body r)) (req_uuid r).

Definition req_item (r : post_request) : post_item :=
  post_item_of (req_body r) (req_now r).

(** The request passes the [if (!body?.image_url)] check. *)
Definition req_valid (r : post_request) : Prop :=
  JS.truthy_string (default "" (body_image_url (req_body r))) = true.

(** The requests served one after the other, each on the contents the
    previous one left. *)
Fixpoint post_all
    (lister : gmap string value -> string -> option string -> list_result)
    (delete_fails : string -> bool) (fuel : nat) (MAX_POSTS : option string)
    (reqs : list post_request) (m : gmap string value)
  : option (gmap string value) :=
  match reqs with
  | [] => Some m
  | r :: reqs' =>
      '(m', _) ← posts_POST lister delete_fails fuel MAX_POSTS true
                   (Some (req_body r)) (req_now r) (req_uuid r) m;
      post_all lister delete_fails fuel MAX_POSTS reqs' m'
  end.

(** ** The listing contract of the namespace

    [paginates page c cs ks]: asked with cursor [c], then with each
    cursor it returns, the namespace answers pages whose keys are [ks] in
    all, the last page being the first one flagged complete; [cs] are the
    cursors of the successive calls.  The last page may carry a cursor as
    well as the flag. *)
Inductive paginates (page : option string -> list_result)
  : option string -> list (option string) -> list string -> Prop :=
| paginates_last c :
    list_complete (page c) = true ->
    paginates page c [c] (keys (page c))
| paginates_next c c' cs ks :
    list_complete (page c) = false ->
    cursor (page c) = Some c' ->
    JS.truthy_string c' = true ->
    paginates page (Some c') cs ks ->
    paginates page c (c :: cs) (keys (page c) ++ ks).

(** A namespace lists a prefix when, for every contents and prefix, it
    pages through exactly the stored names that start with the prefix,
    each once. *)
Definition lists_prefix
    (lister : gmap string value -> string -> option string -> list_result)
  : Prop :=
  forall (m : gmap string value) (prefix : string),
  exists cs ks,
    paginates (lister m prefix) None cs ks /\ NoDup ks /\
    forall k, k ∈ ks <-> is_Some (m !! k) /\ JS.startsWith k prefix = true.

(** No [ns.delete] call fails. *)
Definition no_failure : string -> bool := fun _ => false.

(** The names stored under a prefix. *)
Definition names_under (prefix : string) (m : gmap string value) : gset string :=
  filter (fun k => JS.startsWith k prefix = true) (dom m).

(** A namespace that answers every listing in one complete page, in
    ascending order of names. *)
Definition one_page_lister (m : gmap string value) (prefix : string)
    (c : option string) : list_result :=
  {| keys := JS.sort_strings
               (filter (fun k => JS.startsWith k prefix = true)
                       (elements (dom m)));
     list_complete := true;
     cursor := None |}.

(** The names of [l] that follow the one the cursor [c] stands for. *)
Fixpoint after_cursor (c : string) (l : list string) : list string :=
  match l with
  | [] => []
  | x :: l' => if String.eqb ("after:" +:+ x) c then l' else after_cursor c l'
  end.

(** A namespace that answers at most [limit] names per page, in ascending
    order; the cursor stands for the last name of the page.  With
    [both], the complete page carries a cursor too. *)
Definition batch_lister (limit : nat) (both : bool)
    (m : gmap string value) (prefix : string) (c : option string)
  : list_result :=
  let all := JS.sort_strings
               (filter (fun k => JS.startsWith k prefix = true)
                       (elements (dom m))) in
  let rest := match c with
              | None => all
              | Some c => after_cursor c all
              end in
  let page := take limit rest in
  let complete := bool_decide (length rest <= limit)%nat in
  {| keys := page;
     list_complete := complete;
     cursor := if complete && negb both then None
               else (fun k => "after:" +:+ k) <$> last page |}.

(** What [listKV] collects from the listed names [ks]. *)
Definition scan_entries (get : string -> value) (ks : list string) : list entry :=
  omap (fun k => if truthy (get k) then Some (Entry k (get k)) else None) ks.

(** ** Auxiliary definitions used in the proofs *)

(** The [w] low decimal digits of [n], most significant first, in front
    of [acc]. *)
Fixpoint fixed_digits (w : nat) (n : Z) (acc : string) : string :=
  match w with
  | O => acc
  | S w' => fixed_digits w' (n / 10) (String (JS.digit_char (n mod 10)) acc)
  end.

Definition zeros (k : nat) : string := JS.repeat_string k "0".

(** The identifier a post is keyed by: the caller's [id], or the
    generated one when the caller gave none. *)
Definition key_id (id uuid : string) : string :=
  if JS.truthy_string id then id else uuid.

(** The state of the log after the requests [served], under the bound
    [K]: the stored posts are among the served ones, there are
    [min (length served) K] of them, every served post that is no longer
    stored has a smaller key than every stored one, and a stored post
    holds the item of its request. *)
Definition log_inv (K : nat) (m : gmap string value)
    (served : list post_request) : Prop :=
  names_under "post:" m ⊆ list_to_set (req_key <$> served) /\
  size (names_under "post:" m) = Nat.min (length served) K /\
  (forall x y, x ∈ names_under "post:" m -> y ∈ req_key <$> served ->
               y ∉ names_under "post:" m -> String.ltb y x = true) /\
  (forall r, r ∈ served -> req_key r ∈ names_under "post:" m ->
             m !! req_key r = Some (VPost (req_item r))).

(** [a] may stand before [b] in the feed: [a] is at least as recent. *)
Definition feed_before (a b : entry) : Prop := feed_cmp a b <= 0.

(** ** Sample data *)

Definition sample_body (ts : Z) (id : string) : post_body :=
  {| body_timestamp := Some ts; body_id := Some id;
     body_image_url := Some "https://img.example/a.jpg";
     body_caption := None; body_author := None; body_retailer := None;
     body_message_url := None |}.

Definition sample_request (ts : Z) (id : string) : post_request :=
  {| req_body := sample_body ts id; req_now := 1700000000000; req_uuid := "" |}.

Definition sample_item (ts : Z) (id : string) : post_item :=
  req_item (sample_request ts id).

Definition sample_stats : value :=
  VStats {| members := 1200; alerts_per_week := 85; recent_wins := 8;
            updated_at := 1700000000000 |}.

Definition sample_requests : list post_request :=
  [sample_request 5 "a"; sample_request 3 "b"; sample_request 9 "c"].

(** A namespace holding the stats document and no post. *)
Definition stats_store : gmap string value :=
  kv_put ∅ "stats:current" sample_stats.

(** Posts with timestamps 5, 3, 9 and 1 next to the stats document. *)
Definition sample_store : gmap string value :=
  kv_put (kv_put (kv_put (kv_put (kv_put ∅
    "stats:current" sample_stats)
    (postKey 5 "a" "") (VPost (sample_item 5 "a")))
    (postKey 3 "b" "") (VPost (sample_item 3 "b")))
    (postKey 9 "c" "") (VPost (sample_item 9 "c")))
    (postKey 1 "d" "") (VPost (sample_item 1 "d")).

(** The names of the posts of [sample_store], in ascending order. *)
Definition sample_names : list string :=
  [postKey 1 "d" ""; postKey 3 "b" ""; postKey 5 "a" ""; postKey 9 "c" ""].

(** The names listed two to a page, the last page carrying a cursor
    together with the completion flag. *)
Definition two_page_list (prefix : string) (c : option string) : list_result :=
  match c with
  | None =>
      {| keys := [postKey 1 "d" ""; postKey 3 "b" ""];
         list_complete := false; cursor := Some "page-2" |}
  | Some _ =>
      {| keys := [postKey 5 "a" ""; postKey 9 "c" ""];
         list_complete := true; cursor := Some "page-3" |}
  end.


(** The [ns.delete] calls on the name [k] fail, the others succeed. *)
Definition fails_on (k : string) : string -> bool := fun n => String.eqb n k.

(** Posts with timestamps 5 and 9. *)
Definition two_posts : gmap string value :=
  kv_put (kv_put ∅
    (postKey 5 "a" "") (VPost (sample_item 5 "a")))
    (postKey 9 "c" "") (VPost (sample_item 9 "c")).

(** The contents after one and after two requests that carry the id
    ["a"] and the timestamp 0, served at the times 1000 and 2000. *)
Definition retry_store_1 : gmap string value :=
  kv_put ∅ "post:0000000001000:a" (VPost (post_item_of (sample_body 0 "a") 1000)).

Definition retry_store_2 : gmap string value :=
  kv_put retry_store_1
    "post:0000000002000:a" (VPost (post_item_of (sample_body 0 "a") 2000)).

(** The contents of [two_posts] after a request under the bound 1: the
    post at 9 alone. *)
Definition trimmed_store : gmap string value :=
  kv_put ∅ (postKey 9 "c" "") (VPost (sample_item 9 "c")).

(** Two requests, the second with the timestamp 10^13, and the contents
    they leave under the bound 1. *)
Definition late_requests : list post_request :=
  [sample_request 2000000000000 "a"; sample_request (10 ^ 13) "b"].

Definition late_store : gmap string value :=
  kv_put ∅ "post:2000000000000:a" (VPost (sample_item 2000000000000 "a")).

(** ** More of JavaScript's strings *)

Module Str.

(** [c.toLowerCase()] for a code unit below 256: the letters A-Z and the
    Latin-1 capitals (192-214, 216-222) move up by 32. *)
Definition lower_char (c : ascii) : ascii :=
  let n := N_of_ascii c in
  if ((65 <=? n) && (n <=? 90) || (192 <=? n) && (n <=? 214)
      || (216 <=? n) && (n <=? 222))%N
  then ascii_of_N (n + 32) else c.

(** [s.toLowerCase()] *)
Fixpoint toLowerCase (s : string) : string :=
  match s with
  | EmptyString => EmptyString
  | String c s' => String (lower_char c) (toLowerCase s')
  end.

(** [s.endsWith(x)] *)
Fixpoint endsWith (s x : string) : bool :=
  String.eqb s x ||
  match s with
  | EmptyString => false
  | String _ s' => endsWith s' x
  end.

(** [s.includes(x)] *)
Fixpoint includes (s x : string) : bool :=
  String.prefix x s ||
  match s with
  | EmptyString => false
  | String _ s' => includes s' x
  end.

(** [s.slice(n)] for [n >= 0] *)
Fixpoint slice_from (n : nat) (s : string) : string :=
  match n, s with
  | O, _ => s
  | S n', String _ s' => slice_from n' s'
  | S _, EmptyString => EmptyString
  end.

(** [s.replace(/\/+$/, "")]: the slashes at the end are removed. *)
Fixpoint strip_trailing_slashes (s : string) : string :=
  match s with
  | EmptyString => EmptyString
  | String c s' =>
      match strip_trailing_slashes s' with
      | EmptyString => if Ascii.eqb c "/" then EmptyString
                       else String c EmptyString
      | r => String c r
      end
  end.

(** [s.replace(/-/g, "")] *)
Fixpoint remove_dashes (s : string) : string :=
  match s with
  | EmptyString => EmptyString
  | String c s' => if Ascii.eqb c "-" then remove_dashes s'
                   else String c (remove_dashes s')
  end.

(** [s || d] for a string [s] that may be undefined *)
Definition or_else (s : option string) (d : string) : string :=
  match s with
  | Some x => if JS.truthy_string x then x else d
  | None => d
  end.

End Str.

(** ** The request handler [fetch] *)

Record environment := Env {
  env_CORS_ORIGIN : option string;
  env_ADMIN_TOKEN : option string;
  env_UPLOAD_KEY : option string;
  env_R2_PREFIX : option string;
  env_R2_PUBLIC_BASE : option string;
  env_MAX_POSTS : option string
}.

(** An object of the image bucket: its bytes and
    [httpMetadata?.contentType]. *)
Record r2_object := R2Object {
  obj_body : string;
  obj_contentType : option string
}.

(** What the handler can change: the contents of [env.POSTS], and of
    [env.IMAGES] when that binding is configured. *)
Record world := World {
  w_POSTS : gmap string value;
  w_IMAGES : option (gmap string r2_object)
}.

(** [await request.json()], at the fields the handlers read: it throws,
    or gives [null], or a value with the fields of the two bodies. *)
Inductive json_view :=
| JsonThrows
| JsonNull
| JsonObject (post : post_body) (stats : stats_body).

Record upload_file := UploadFile { file_name : string; file_bytes : string }.

(** [(await request.formData()).get("file")]: the parse throws, or the
    field is not a [File], or it is one. *)
Inductive form_view :=
| FormThrows
| FormNoFile
| FormFile (f : upload_file).

(** A request; [rq_method] is [request.method.toUpperCase()],
    [rq_pathname] and [rq_origin] are those of [new URL(request.url)], and
    the last three fields are the body as each handler reads it. *)
Record request := Request {
  rq_method : string;
  rq_pathname : string;
  rq_origin : string;
  rq_authorization : option string;
  rq_content_type : option string;
  rq_json : json_view;
  rq_form : form_view;
  rq_bytes : string
}.

(** The documents the handler serialises. *)
Inductive json_doc :=
| DHealth (now : Z)
| DError (msg : string)
| DOk
| DOkKey (key : string)
| DDeleted (name : string)
| DUploaded (key image_url content_type : string)
| DFeed (lean : list value)
| DValue (v : value)
| DStatsDefault (recent_wins : Z).

Inductive body :=
| BodyText (s : string)
| BodyBytes (b : string)
| BodyJson (d : json_doc).

(** A [Response]: its status, the headers object it was built from and
    its body. *)
Record http_response := HttpResponse {
  status : Z;
  headers : gmap string string;
  resp_body : body
}.

(** The handler answers, or its promise is rejected. *)
Inductive outcome :=
| Answer (r : http_response)
| Crash.

(** [const CORS = { ... }] *)
Definition cors_headers (env : environment) : gmap string string :=
  <["Access-Control-Allow-Origin" := Str.or_else (env_CORS_ORIGIN env) "*"]>
  (<["Access-Control-Allow-Methods" := "GET,POST,DELETE,OPTIONS"]>
  (<["Access-Control-Allow-Headers" := "authorization,content-type"]>
  (<["Vary" := "Origin"]> ∅))).

(** [const json = (data, extra = {}) => new Response(JSON.stringify(data),
     { headers: { "content-type": ..., ...CORS, ...extra } })]: the later
    entries of the object win, and no status is given. *)
Definition json_response (env : environment) (d : json_doc)
    (extra : gmap string string) : http_response :=
  {| status := 200;
     headers := extra ∪ (cors_headers env ∪
                  {["content-type" := "application/json; charset=utf-8"]});
     resp_body := BodyJson d |}.

(** [const bad = (msg, code = 400) =>
     json({ ok: false, error: msg }, { status: code })] *)
Definition bad_response (env : environment) (msg : string) (code : Z)
  : http_response :=
  json_response env (DError msg) {["status" := JS.Number_toString code]}.

(** [bearer(request)] *)
Definition bearer (req : request) : string :=
  let h := default "" (rq_authorization req) in
  if JS.startsWith h "Bearer " then Str.slice_from 7 h else "".

(** [isAuthed()] *)
Definition isAuthed (env : environment) (req : request) : bool :=
  let t := bearer req in
  if negb (JS.truthy_string t) then false
  else
    match env_ADMIN_TOKEN env with
    | Some a => JS.truthy_string a && String.eqb t a
    | None => false
    end
    || match env_UPLOAD_KEY env with
       | Some u => JS.truthy_string u && String.eqb t u
       | None => false
       end.

(** [guessType(nameOrExt)] *)
Definition guessType (nameOrExt : string) : string :=
  let n := Str.toLowerCase nameOrExt in
  if Str.endsWith n ".png" || String.eqb n "png" then "image/png"
  else if Str.endsWith n ".webp" || String.eqb n "webp" then "image/webp"
  else if Str.endsWith n ".jpg" || Str.endsWith n ".jpeg"
          || String.eqb n "jpg" || String.eqb n "jpeg" then "image/jpeg"
  else "application/octet-stream".

(** [(env.R2_PREFIX || "img").replace(/\/+$/, "")] *)
Definition r2_prefix (env : environment) : string :=
  Str.strip_trailing_slashes (Str.or_else (env_R2_PREFIX env) "img").

(** [url.pathname.replace(/\/+$/, "") || "/"] *)
Definition normalize_path (pathname : string) : string :=
  let p := Str.strip_trailing_slashes pathname in
  if JS.truthy_string p then p else "/".

(** The extension and content type an upload gets from the lower-cased
    file name of a form. *)
Definition kind_of_name (n : string) : string * string :=
  if Str.endsWith n ".png" then ("png", "image/png")
  else if Str.endsWith n ".webp" then ("webp", "image/webp")
  else ("jpg", "image/jpeg").

(** The extension and content type a raw upload gets from the lower-cased
    content type of the request. *)
Definition kind_of_type (ct : string) : string * string :=
  if Str.includes ct "png" then ("png", "image/png")
  else if Str.includes ct "webp" then ("webp", "image/webp")
  else ("jpg", "image/jpeg").

(** The responses of [POST /posts] and [POST /stats] as [Response]s. *)
Definition of_response (env : environment) (r : response) : outcome :=
  match r with
  | Bad msg code => Answer (bad_response env msg code)
  | OkKey key => Answer (json_response env (DOkKey key) ∅)
  | OkPlain => Answer (json_response env DOk ∅)
  | Thrown => Crash
  end.

(** [if (path.startsWith("/i/") && (method === "GET" || method === "DELETE"))] *)
Definition image_route (env : environment) (req : request) (path : string)
    (w : world) : world * outcome :=
  match w_IMAGES w with
  | None => (w, Answer (bad_response env "images store not configured" 500))
  | Some images =>
      let name := Str.slice_from 3 path in
      let key := r2_prefix env +:+ "/" +:+ name in
      if String.eqb (rq_method req) "GET" then
        match images !! key with
        | None =>
            (w, Answer {| status := 404; headers := cors_headers env;
                          resp_body := BodyText "Not found" |})
        | Some obj =>
            (w, Answer
                  {| status := 200;
                     headers :=
                       cors_headers env ∪
                       (<["content-type" :=
                            Str.or_else (obj_contentType obj) (guessType name)]>
                        {["cache-control" :=
                            "public, max-age=31536000, immutable"]});
                     resp_body := BodyBytes (obj_body obj) |})
        end
      else if negb (isAuthed env req)
      then (w, Answer (bad_response env "unauthorized" 401))
      else ({| w_POSTS := w_POSTS w; w_IMAGES := Some (delete key images) |},
            Answer (json_response env (DDeleted name) ∅))
  end.

(** The end of [POST /upload]: the object is put and the answer names it. *)
Definition store_upload (env : environment) (req : request) (uuid : string)
    (images : gmap string r2_object) (w : world)
    (bytes : string) (kind : string * string) : world * outcome :=
  let '(ext, contentType) := kind in
  let id := Str.remove_dashes uuid in
  let key := r2_prefix env +:+ "/" +:+ id +:+ "." +:+ ext in
  let base := Str.strip_trailing_slashes (default "" (env_R2_PUBLIC_BASE env)) in
  let image_url := if JS.truthy_string base then base +:+ "/" +:+ key
                   else rq_origin req +:+ "/i/" +:+ id +:+ "." +:+ ext in
  ({| w_POSTS := w_POSTS w;
      w_IMAGES := Some (<[key := R2Object bytes (Some contentType)]> images) |},
   Answer (json_response env (DUploaded key image_url contentType) ∅)).

(** [if (path === "/upload" && method === "POST")] *)
Definition upload_route (env : environment) (req : request) (uuid : string)
    (w : world) : world * outcome :=
  if negb (isAuthed env req)
  then (w, Answer (bad_response env "unauthorized" 401))
  else
    match w_IMAGES w with
    | None => (w, Answer (bad_response env "images store not configured" 500))
    | Some images =>
        let ct := Str.toLowerCase (default "" (rq_content_type req)) in
        if JS.startsWith ct "multipart/form-data" then
          match rq_form req with
          | FormThrows => (w, Crash)
          | FormNoFile => (w, Answer (bad_response env "missing file" 400))
          | FormFile f =>
              store_upload env req uuid images w (file_bytes f)
                (kind_of_name (Str.toLowerCase (file_name f)))
          end
        else store_upload env req uuid images w (rq_bytes req) (kind_of_type ct)
    end.

Section Fetch.

Variable lister : gmap string value -> string -> option string -> list_result.
Variable delete_fails : string -> bool.

(** [if (path === "/stats" && method === "GET")] *)
Definition stats_GET (fuel : nat) (env : environment) (now : Z)
    (m : gmap string value) : option http_response :=
  let cacheHdr : gmap string string := {["Cache-Control" := "no-store"]} in
  let raw := kv_get m "stats:current" in
  if truthy raw then Some (json_response env (DValue raw) cacheHdr)
  else
    items ← listKV fuel (lister m) (kv_get m) "post:";
    let cutoff := now - 14 * 24 * 3600 * 1000 in
    let recent :=
      length (filter (fun i => cutoff <= timestamp_or_0 (entry_value i)) items) in
    Some (json_response env (DStatsDefault (Z.max (Z.of_nat recent) 8)) cacheHdr).

(** [if (path === "/stats" && method === "POST")], from the request *)
Definition stats_route (env : environment) (req : request) (now : Z)
    (w : world) : world * outcome :=
  if negb (isAuthed env req)
  then (w, Answer (bad_response env "unauthorized" 401))
  else
    match rq_json req with
    | JsonThrows => (w, Answer (bad_response env "invalid json" 400))
    | JsonNull => (w, Crash)
    | JsonObject _ sb =>
        let '(m', r) := stats_POST true (Some sb) now (w_POSTS w) in
        ({| w_POSTS := m'; w_IMAGES := w_IMAGES w |}, of_response env r)
    end.

(** [if (path === "/posts" && method === "POST")], from the request *)
Definition posts_route (fuel : nat) (env : environment) (req : request)
    (now : Z) (uuid : string) (w : world) : option (world * outcome) :=
  let body := match rq_json req with
              | JsonThrows => None
              | JsonNull => Some (PostBody None None None None None None None)
              | JsonObject pb _ => Some pb
              end in
  '(m', r) ← posts_POST lister delete_fails fuel (env_MAX_POSTS env)
               (isAuthed env req) body now uuid (w_POSTS w);
  Some ({| w_POSTS := m'; w_IMAGES := w_IMAGES w |}, of_response env r).

(** [async fetch(request, env)] *)
Definition fetch (fuel : nat) (env : environment) (req : request)
    (now : Z) (uuid : string) (w : world) : option (world * outcome) :=
  let path := normalize_path (rq_pathname req) in
  let method := rq_method req in
  if String.eqb method "OPTIONS" then
    Some (w, Answer {| status := 200; headers := cors_headers env;
                       resp_body := BodyText "" |})
  else if String.eqb path "/" || String.eqb path "/health" then
    Some (w, Answer (json_response env (DHealth now) ∅))
  else if JS.startsWith path "/i/"
          && (String.eqb method "GET" || String.eqb method "DELETE") then
    Some (image_route env req path w)
  else if String.eqb path "/upload" && String.eqb method "POST" then
    Some (upload_route env req uuid w)
  else if String.eqb path "/feed" && String.eqb method "GET" then
    lean ← feed_GET lister fuel (w_POSTS w);
    Some (w, Answer
               (json_response env (DFeed lean)
                  {["Cache-Control" :=
                      "public, s-maxage=60, stale-while-revalidate=600"]}))
  else if String.eqb path "/stats" && String.eqb method "GET" then
    r ← stats_GET fuel env now (w_POSTS w);
    Some (w, Answer r)
  else if String.eqb path "/stats" && String.eqb method "POST" then
    Some (stats_route env req now w)
  else if String.eqb path "/posts" && String.eqb method "POST" then
    posts_route fuel env req now uuid w
  else Some (w, Answer (bad_response env "not found" 404)).

End Fetch.

(** [isAuthed] of the earlier worker: the admin token only. *)
Definition worker_isAuthed (env : environment) (req : request) : bool :=
  let auth := default "" (rq_authorization req) in
  if JS.startsWith auth "Bearer " then
    let token := Str.slice_from 7 auth in
    JS.truthy_string token &&
    match env_ADMIN_TOKEN env with
    | Some a => JS.truthy_string a && String.eqb token a
    | None => false
    end
  else false.

(** The request [req] sent to the path [p] instead. *)
Definition set_pathname (req : request) (p : string) : request :=
  {| rq_method := rq_method req; rq_pathname := p; rq_origin := rq_origin req;
     rq_authorization := rq_authorization req;
     rq_content_type := rq_content_type req; rq_json := rq_json req;
     rq_form := rq_form req; rq_bytes := rq_bytes req |}.

(** The [Response]s the handler builds: the preflight answer, a JSON
    document that is not an error, an error of [bad], the answer for a
    missing image, and an image. *)
Inductive fetch_answer (env : environment) : http_response -> Prop :=
| answer_preflight :
    fetch_answer env {| status := 200; headers := cors_headers env;
                        resp_body := BodyText "" |}
| answer_json d extra :
    (forall msg, d <> DError msg) ->
    extra = ∅ \/ (exists v, extra = {["Cache-Control" := v]}) ->
    fetch_answer env (json_response env d extra)
| answer_bad msg code :
    code = 400 \/ code = 401 \/ code = 404 \/ code = 500 ->
    fetch_answer env (bad_response env msg code)
| answer_missing :
    fetch_answer env {| status := 404; headers := cors_headers env;
                        resp_body := BodyText "Not found" |}
| answer_image obj name :
    fetch_answer env
      {| status := 200;
         headers :=
           cors_headers env ∪
           (<["content-type" :=
                Str.or_else (obj_contentType obj) (guessType name)]>
            {["cache-control" := "public, max-age=31536000, immutable"]});
         resp_body := BodyBytes (obj_body obj) |}.

(** Sample requests and state. *)
Definition sample_env : environment :=
  {| env_CORS_ORIGIN := None; env_ADMIN_TOKEN := Some "s3cret";
     env_UPLOAD_KEY := None; env_R2_PREFIX := Some "img/";
     env_R2_PUBLIC_BASE := None; env_MAX_POSTS := Some "2" |}.

Definition sample_world : world :=
  {| w_POSTS := sample_store; w_IMAGES := Some ∅ |}.

Definition sample_json : json_view :=
  JsonObject (sample_body 11 "e") (StatsBody (Some 1500) None (Some 12)).

(** A request with the given method, path and authorization header. *)
Definition sample_req (method path : string) (auth : option string) : request :=
  {| rq_method := method; rq_pathname := path;
     rq_origin := "https://api.example"; rq_authorization := auth;
     rq_content_type := Some "image/PNG"; rq_json := sample_json;
     rq_form := FormNoFile; rq_bytes := "bytes" |}.

(** An authorised raw upload of a PNG, and the state it leaves. *)
Definition sample_upload : request :=
  sample_req "POST" "/upload" (Some "Bearer s3cret").

Definition uploaded_world : world :=
  {| w_POSTS := sample_store;
     w_IMAGES := Some (<["img/12ab34cd.png" :=
                           R2Object "bytes" (Some "image/png")]> ∅) |}.

(** * Properties *)

(** ** Strings *)

Lemma string_compare_refl (s : string) : String.compare s s = Eq.
Proof.
  induction s as [|c s IH]; simpl; [done|].
  unfold Ascii.compare. by rewrite N.compare_refl.
Qed.

Lemma string_compare_app (p s1 s2 : string) :
  String.compare (p +:+ s1) (p +:+ s2) = String.compare s1 s2.
Proof.
  induction p as [|c p IH]; simpl; [done|].
  unfold Ascii.compare. by rewrite N.compare_refl.
Qed.

Lemma string_app_cons (c : ascii) (a b : string) :
  String c a +:+ b = String c (a +:+ b).
Proof. reflexivity. Qed.

Lemma string_app_nil (b : string) : "" +:+ b = b.
Proof. reflexivity. Qed.

Lemma string_app_assoc (a b c : string) : (a +:+ b) +:+ c = a +:+ (b +:+ c).
Proof.
  induction a as [|x a IH]; [done|].
  by rewrite !string_app_cons, IH.
Qed.

Lemma string_length_app (a b : string) :
  String.length (a +:+ b) = (String.length a + String.length b)%nat.
Proof.
  induction a as [|x a IH]; [done|].
  rewrite string_app_cons. simpl. by rewrite IH.
Qed.

Lemma substring_all (s : string) : substring 0 (String.length s) s = s.
Proof. induction s as [|c s IH]; simpl; [done|]. by rewrite IH. Qed.

Lemma digit_char_compare (a b : Z) :
  0 <= a < 10 -> 0 <= b < 10 ->
  Ascii.compare (JS.digit_char a) (JS.digit_char b) = (a ?= b).
Proof.
  intros Ha Hb. unfold Ascii.compare, JS.digit_char.
  rewrite !N_ascii_embedding by lia.
  rewrite <- N2Z.inj_compare, !N2Z.inj_add, !Z2N.id by lia.
  apply Z.add_compare_mono_l.
Qed.

(** ** Decimal digits *)

Lemma zeros_length (k : nat) : String.length (zeros k) = k.
Proof.
  induction k as [|k IH]; [done|].
  unfold zeros in *. simpl JS.repeat_string.
  rewrite string_app_cons, string_app_nil. simpl. by rewrite IH.
Qed.

Lemma fixed_digits_app (w : nat) (n : Z) (acc : string) :
  fixed_digits w n acc = fixed_digits w n "" +:+ acc.
Proof.
  revert n acc. induction w as [|w IH]; intros n acc; simpl; [done|].
  rewrite (IH _ (String _ acc)), (IH _ (String _ "")).
  by rewrite string_app_assoc.
Qed.

Lemma fixed_digits_length (w : nat) (n : Z) (acc : string) :
  String.length (fixed_digits w n acc) = (w + String.length acc)%nat.
Proof.
  revert n acc. induction w as [|w IH]; intros n acc; simpl; [done|].
  rewrite IH. simpl. lia.
Qed.

Lemma fixed_digits_zero (j : nat) (acc : string) :
  fixed_digits j 0 acc = zeros j +:+ acc.
Proof.
  revert acc. induction j as [|j IH]; intros acc; simpl; [done|].
  change (0 / 10) with 0. change (0 mod 10) with 0.
  rewrite IH. clear IH. induction j as [|j IH]; [done|].
  unfold zeros in *. simpl JS.repeat_string.
  rewrite !string_app_cons, !string_app_nil in *. by rewrite IH.
Qed.

Lemma fixed_digits_pad (j k : nat) (n : Z) (acc : string) :
  0 <= n < 10 ^ Z.of_nat k ->
  fixed_digits (k + j) n acc = zeros j +:+ fixed_digits k n acc.
Proof.
  revert n acc. induction k as [|k IH]; intros n acc Hn.
  - simpl in *. assert (n = 0) as -> by lia. apply fixed_digits_zero.
  - simpl. apply IH.
    rewrite Nat2Z.inj_succ, Z.pow_succ_r in Hn by lia.
    split; [apply Z.div_pos; lia|]. apply Z.div_lt_upper_bound; lia.
Qed.

Lemma digits_loop_fixed (fuel : nat) (n : Z) (acc : string) :
  0 <= n < 2 ^ Z.of_nat (S fuel) ->
  exists k : nat,
    (1 <= k)%nat /\ n < 10 ^ Z.of_nat k /\
    (k = 1%nat \/ 10 ^ (Z.of_nat k - 1) <= n) /\
    JS.digits_loop (S fuel) n acc = fixed_digits k n acc.
Proof.
  revert n acc. induction fuel as [|fuel IH]; intros n acc Hn.
  - exists 1%nat. change (2 ^ Z.of_nat 1) with 2 in Hn.
    assert (n = 0 \/ n = 1) as [-> | ->] by lia; simpl; repeat split; auto; lia.
  - change (JS.digits_loop (S (S fuel)) n acc) with
      (let acc' := String (JS.digit_char (n mod 10)) acc in
       if n / 10 =? 0 then acc' else JS.digits_loop (S fuel) (n / 10) acc').
    cbv zeta. destruct (Z.eqb_spec (n / 10) 0) as [Hz | Hz].
    + exists 1%nat. repeat split; auto; simpl.
      assert (n < 10); [|lia].
      destruct (Z_lt_ge_dec n 10); [done|].
      assert (1 <= n / 10) by (apply Z.div_le_lower_bound; lia). lia.
    + assert (0 <= n / 10) by (apply Z.div_pos; lia).
      destruct (IH (n / 10) (String (JS.digit_char (n mod 10)) acc))
        as (k & Hk1 & Hk2 & Hk3 & Hk4).
      { split; [done|]. apply Z.div_lt_upper_bound; [lia|].
        rewrite (Nat2Z.inj_succ (S fuel)), Z.pow_succ_r in Hn by lia. lia. }
      exists (S k). rewrite Hk4. simpl fixed_digits.
      rewrite Nat2Z.inj_succ, Z.pow_succ_r by lia.
      split; [lia|]. split; [|split; [right|done]].
      * pose proof (Z.mul_div_le n 10). pose proof (Z.mod_pos_bound n 10).
        pose proof (Z.div_mod n 10). lia.
      * replace (Z.succ (Z.of_nat k) - 1) with (Z.succ (Z.of_nat k - 1)) by lia.
        rewrite Z.pow_succ_r by lia.
        pose proof (Z.mul_div_le n 10).
        destruct Hk3 as [-> | Hk3]; [simpl; lia|lia].
Qed.

Lemma digits_fixed (n : Z) :
  0 <= n ->
  exists k : nat,
    (1 <= k)%nat /\ n < 10 ^ Z.of_nat k /\
    (k = 1%nat \/ 10 ^ (Z.of_nat k - 1) <= n) /\
    JS.digits n = fixed_digits k n "".
Proof.
  intros Hn. apply digits_loop_fixed. split; [done|].
  rewrite Nat2Z.inj_succ, Z2Nat.id by apply Z.log2_nonneg.
  destruct (Z.eq_dec n 0) as [-> | Hne]; [done|].
  apply Z.log2_spec. lia.
Qed.

Lemma tsKey_fixed (ts : Z) :
  0 <= ts < 10 ^ 13 -> tsKey ts = fixed_digits 13 ts "".
Proof.
  intros [H0 H13]. unfold tsKey, JS.Number_toString.
  destruct (Z.ltb_spec ts 0) as [|_]; [lia|].
  destruct (digits_fixed ts H0) as (k & Hk1 & Hk2 & Hk3 & ->).
  assert (k <= 13)%nat as Hk.
  { destruct Hk3 as [-> | Hk3]; [lia|].
    destruct (le_lt_dec k 13) as [|Hgt]; [done|].
    assert (10 ^ 13 <= 10 ^ (Z.of_nat k - 1)) by (apply Z.pow_le_mono_r; lia).
    lia. }
  unfold JS.padStart. rewrite fixed_digits_length. simpl String.length.
  rewrite Nat.add_0_r. simpl JS.truthy_string. simpl negb. rewrite orb_false_r.
  destruct (Nat.leb_spec 13 k) as [Hle | Hlt].
  - by assert (k = 13%nat) as -> by lia.
  - fold (zeros (13 - k)).
    rewrite <- (zeros_length (13 - k)) at 1. rewrite substring_all.
    rewrite <- fixed_digits_pad by lia. f_equal. lia.
Qed.

Lemma fixed_digits_compare (w : nat) (a b : Z) (sa sb : string) :
  0 <= a -> 0 <= b ->
  String.compare (fixed_digits w a sa) (fixed_digits w b sb) =
  match a mod 10 ^ Z.of_nat w ?= b mod 10 ^ Z.of_nat w with
  | Eq => String.compare sa sb
  | c => c
  end.
Proof.
  revert a b sa sb. induction w as [|w IH]; intros a b sa sb Ha Hb.
  - simpl. by rewrite !Z.mod_1_r.
  - simpl fixed_digits.
    rewrite IH by (apply Z.div_pos; lia).
    simpl String.compare.
    pose proof (Z.mod_pos_bound a 10 ltac:(lia)) as Hp.
    pose proof (Z.mod_pos_bound b 10 ltac:(lia)) as Hq.
    rewrite digit_char_compare by done.
    rewrite Nat2Z.inj_succ, Z.pow_succ_r by lia.
    rewrite !Z.rem_mul_r by lia.
    set (x := (a / 10) mod 10 ^ Z.of_nat w).
    set (y := (b / 10) mod 10 ^ Z.of_nat w).
    set (p := a mod 10) in *. set (q := b mod 10) in *.
    clearbody x y p q.
    destruct (Z.compare_spec x y) as [Hxy | Hxy | Hxy].
    + subst y. destruct (Z.compare_spec p q) as [Hpq | Hpq | Hpq].
      * subst q. by rewrite Z.compare_refl.
      * assert (p + 10 * x < q + 10 * x) as ->%Z.compare_lt_iff by lia. done.
      * assert (q + 10 * x < p + 10 * x) as ->%Z.compare_gt_iff by lia. done.
    + assert (p + 10 * x < q + 10 * y) as ->%Z.compare_lt_iff by lia. done.
    + assert (q + 10 * y < p + 10 * x) as ->%Z.compare_gt_iff by lia. done.
Qed.

(** The padded timestamp decides the order of two keys, and the
    identifier breaks ties. *)
Lemma postKey_compare (tsA tsB : Z) (idA idB uA uB : string) :
  0 <= tsA < 10 ^ 13 -> 0 <= tsB < 10 ^ 13 ->
  String.compare (postKey tsA idA uA) (postKey tsB idB uB) =
  match tsA ?= tsB with
  | Eq => String.compare (key_id idA uA) (key_id idB uB)
  | c => c
  end.
Proof.
  intros HA HB.
  assert (forall ts id u, postKey ts id u =
            "post:" +:+ tsKey ts +:+ ":" +:+ key_id id u) as Hkey.
  { intros ts id u. unfold postKey, key_id. by destruct (JS.truthy_string id). }
  rewrite !Hkey, string_compare_app, !tsKey_fixed by done.
  rewrite <- !fixed_digits_app.
  rewrite fixed_digits_compare by lia.
  rewrite !Z.mod_small by (simpl Z.of_nat; lia).
  by rewrite string_compare_app.
Qed.

(** ** The paginated scan *)

Lemma scan_entries_app (get : string -> value) (ks1 ks2 : list string) :
  scan_entries get (ks1 ++ ks2) = scan_entries get ks1 ++ scan_entries get ks2.
Proof. apply omap_app. Qed.

Lemma push_entries_scan (get : string -> value) (ks : list string)
    (out : list entry) :
  push_entries get ks out = out ++ scan_entries get ks.
Proof.
  revert out. induction ks as [|k ks IH]; intros out.
  - by rewrite app_nil_r.
  - unfold push_entries, scan_entries in *. simpl.
    rewrite IH. destruct (truthy (get k)); [|done].
    by rewrite <- app_assoc.
Qed.

Lemma listKV_loop_paginates list_fn get prefix c cs ks :
  paginates (list_fn prefix) c cs ks ->
  forall fuel out calls,
    (length cs <= fuel)%nat ->
    listKV_loop fuel list_fn get prefix c out calls =
    Some (out ++ scan_entries get ks, calls ++ (ListCall prefix <$> cs)).
Proof.
  induction 1 as [c Hdone | c c' cs ks Hmore Hcur Htruthy Hrest IH];
    intros [|fuel] out calls Hfuel; simpl in Hfuel; try lia; simpl.
  - rewrite Hdone. simpl. by rewrite push_entries_scan.
  - rewrite Hmore, Hcur. simpl. rewrite Htruthy.
    rewrite IH by lia.
    by rewrite push_entries_scan, scan_entries_app, <- !app_assoc.
Qed.

Lemma trim_names_loop_paginates list_fn prefix c cs ks :
  paginates (list_fn prefix) c cs ks ->
  forall fuel names,
    (length cs <= fuel)%nat ->
    trim_names_loop fuel list_fn prefix c names = Some (names ++ ks).
Proof.
  assert (forall (l names : list string),
            foldl (fun names k => names ++ [k]) names l = names ++ l) as Hpush.
  { induction l as [|k l IH]; intros names; simpl.
    - by rewrite app_nil_r.
    - by rewrite IH, <- app_assoc. }
  induction 1 as [c Hdone | c c' cs ks Hmore Hcur Htruthy Hrest IH];
    intros [|fuel] names Hfuel; simpl in Hfuel; try lia; simpl.
  - rewrite Hdone. simpl. by rewrite Hpush.
  - rewrite Hmore, Hcur. simpl. rewrite Htruthy.
    rewrite IH by lia. by rewrite Hpush, <- app_assoc.
Qed.

(** The calls of a pagination: the first carries the start cursor, each
    later one the cursor the previous answer returned, and only the last
    answer is flagged complete. *)
Lemma paginates_chain page c cs ks :
  paginates page c cs ks ->
  head cs = Some c /\
  (forall i a b, cs !! i = Some a -> cs !! S i = Some b ->
                 list_complete (page a) = false /\ cursor (page a) = b) /\
  (exists z, last cs = Some z /\ list_complete (page z) = true) /\
  ks = concat ((fun a => keys (page a)) <$> cs).
Proof.
  induction 1 as [c Hdone | c c' cs ks Hmore Hcur Htruthy Hrest IH].
  - split; [done|]. split; [|split].
    + intros [|i] a b Ha Hb; simplify_eq/=.
    + exists c. done.
    + simpl. by rewrite app_nil_r.
  - destruct IH as (Hhd & Hstep & (z & Hz & Hzc) & Hks).
    split; [done|]. split; [|split].
    + intros [|i] a b Ha Hb; simplify_eq/=.
      * destruct cs as [|x cs]; simplify_eq/=. done.
      * eauto.
    + exists z. split; [|done].
      destruct cs as [|x cs]; [done|]. by rewrite last_cons, Hz.
    + simpl. by rewrite Hks.
Qed.

Lemma elem_of_scan_entries (get : string -> value) (ks : list string) (e : entry) :
  e ∈ scan_entries get ks <->
  entry_key e ∈ ks /\ entry_value e = get (entry_key e) /\
  truthy (get (entry_key e)) = true.
Proof.
  unfold scan_entries. rewrite list_elem_of_omap. split.
  - intros (k & Hk & Hsome). destruct (truthy (get k)) eqn:Ht; [|done].
    by simplify_eq/=.
  - intros (Hk & Hv & Ht). exists (entry_key e). split; [done|].
    rewrite Ht. destruct e as [k v]. simpl in *. by subst.
Qed.

Lemma scan_entries_keys (get : string -> value) (ks : list string) :
  entry_key <$> scan_entries get ks = filter (fun k => truthy (get k) = true) ks.
Proof.
  induction ks as [|k ks IH]; [done|].
  unfold scan_entries in *. simpl. rewrite filter_cons.
  case_decide as Hd.
  - rewrite Hd. simpl. f_equal. apply IH.
  - destruct (truthy (get k)); [done|]. apply IH.
Qed.

(** ** The order of names *)

Lemma string_ltb_le_ne (a b : string) :
  String.ltb a b = true <-> String.le a b /\ a <> b.
Proof.
  unfold String.le, String.ltb, String.leb.
  destruct (String.compare a b) eqn:Hc; simpl.
  - apply String.compare_eq_iff in Hc. naive_solver.
  - split; [|done]. intros _. split; [done|].
    intros ->. by rewrite string_compare_refl in Hc.
  - naive_solver.
Qed.

Lemma string_ltb_irrefl (a : string) : String.ltb a a = false.
Proof. unfold String.ltb. by rewrite string_compare_refl. Qed.

Lemma string_ltb_trans (a b c : string) :
  String.ltb a b = true -> String.ltb b c = true -> String.ltb a c = true.
Proof.
  rewrite !string_ltb_le_ne. intros [Hab Hne] [Hbc Hne'].
  split; [by etrans|]. intros ->. apply Hne. by apply (anti_symm String.le).
Qed.

Lemma string_ltb_asym (a b : string) :
  String.ltb a b = true -> String.ltb b a = true -> False.
Proof.
  intros H1 H2. pose proof (string_ltb_trans _ _ _ H1 H2) as H.
  by rewrite string_ltb_irrefl in H.
Qed.

Lemma sort_strings_perm (l : list string) : JS.sort_strings l ≡ₚ l.
Proof. apply merge_sort_Permutation. Qed.

Lemma sort_strings_sorted (l : list string) :
  StronglySorted String.le (JS.sort_strings l).
Proof. apply (StronglySorted_merge_sort String.le). Qed.

(** The first [n] names of a sorted list without repetition are below
    all the others. *)
Lemma take_sorted_below (n : nat) (l : list string) (d k : string) :
  NoDup l ->
  d ∈ take n (JS.sort_strings l) -> k ∈ l -> k ∉ take n (JS.sort_strings l) ->
  String.ltb d k = true.
Proof.
  intros Hnd Hd Hk Hnk.
  pose proof (sort_strings_sorted l) as Hs.
  rewrite <- (sort_strings_perm l) in Hk.
  rewrite <- (take_drop n (JS.sort_strings l)) in Hk, Hs.
  apply elem_of_app in Hk as [Hk | Hk]; [done|].
  apply string_ltb_le_ne. split.
  - by eapply (StronglySorted_app_1_elem_of String.le).
  - by intros ->.
Qed.

(** ** Trimming *)

Lemma trim_targets_nan (names : list string) : trim_targets names None = [].
Proof. done. Qed.

(** For a numeric bound the targets are the leading names of the sorted
    list, all of them when the bound is negative. *)
Lemma trim_targets_take (names : list string) (K : Z) :
  trim_targets names (Some K) =
  take (length names - Z.to_nat K) (JS.sort_strings names).
Proof.
  unfold trim_targets, JS.num_gt, JS.slice0. simpl default.
  pose proof (Permutation_length (sort_strings_perm names)) as Hlen.
  rewrite !Hlen.
  destruct (Z.ltb_spec K (Z.of_nat (length names))) as [Hlt | Hge].
  - destruct (Z.ltb_spec (Z.of_nat (length names) - K) 0) as [|_]; [lia|].
    f_equal. lia.
  - replace (length names - Z.to_nat K)%nat with 0%nat by lia. done.
Qed.

Lemma trim_targets_subset (names : list string) (max : option Z) (k : string) :
  k ∈ trim_targets names max -> k ∈ names.
Proof.
  destruct max as [K|]; [|by rewrite trim_targets_nan; intros ?%elem_of_nil].
  rewrite trim_targets_take. intros (i & Hi & _)%elem_of_take.
  rewrite <- (sort_strings_perm names). by eapply list_elem_of_lookup_2.
Qed.

Lemma trim_targets_NoDup (names : list string) (max : option Z) :
  NoDup names -> NoDup (trim_targets names max).
Proof.
  intros Hnd. destruct max as [K|]; [|rewrite trim_targets_nan; constructor].
  rewrite trim_targets_take.
  eapply sublist_NoDup; [|apply sublist_take].
  by rewrite sort_strings_perm.
Qed.

Lemma trim_targets_length (names : list string) (K : Z) :
  length (trim_targets names (Some K)) = (length names - Z.to_nat K)%nat.
Proof.
  rewrite trim_targets_take, length_take.
  rewrite (Permutation_length (sort_strings_perm names)). lia.
Qed.

Lemma trim_targets_below (names : list string) (max : option Z) (d k : string) :
  NoDup names ->
  d ∈ trim_targets names max -> k ∈ names -> k ∉ trim_targets names max ->
  String.ltb d k = true.
Proof.
  destruct max as [K|]; [|by rewrite trim_targets_nan; intros _ ?%elem_of_nil].
  rewrite trim_targets_take. apply take_sorted_below.
Qed.

Section Deletes.
Variable delete_fails : string -> bool.

Lemma delete_all_lookup (T : list string) (m : gmap string value) (k : string) :
  (delete_all delete_fails T m).1 !! k =
  if decide (k ∈ T /\ delete_fails k = false) then None else m !! k.
Proof.
  unfold delete_all. cbn [fst]. revert m.
  induction T as [|t T IH]; intros m; cbn [foldl].
  - case_decide as H; [|done]. by destruct H as [?%elem_of_nil _].
  - rewrite IH. clear IH. unfold kv_delete.
    destruct (decide (k ∈ T /\ delete_fails k = false)) as [[Hin Hok] | Hno];
      destruct (decide (k ∈ t :: T /\ delete_fails k = false))
        as [[Hin' Hok'] | Hno']; try done.
    + exfalso. apply Hno'. split; [by right|done].
    + apply elem_of_cons in Hin' as [-> | Hin']; [|by destruct Hno].
      rewrite Hok'. apply lookup_delete_eq.
    + destruct (delete_fails t) eqn:Hf; [done|].
      apply lookup_delete_ne. intros ->. apply Hno'. split; [left|]; done.
Qed.

Lemma delete_all_status (T : list string) (m : gmap string value) :
  (delete_all delete_fails T m).2 = Fulfilled <->
  forall t, t ∈ T -> delete_fails t = false.
Proof.
  unfold delete_all. simpl.
  destruct (existsb delete_fails T) eqn:Hex.
  - split; [done|]. intros Hall.
    apply existsb_exists in Hex as (t & Ht%list_elem_of_In & Hf).
    by rewrite (Hall t Ht) in Hf.
  - split; [|done]. intros _ t Ht.
    destruct (delete_fails t) eqn:Hf; [|done].
    assert (existsb delete_fails T = true) as Hex'; [|congruence].
    apply existsb_exists. exists t. by rewrite <- list_elem_of_In.
Qed.
End Deletes.

Lemma delete_all_no_failure (T : list string) (m : gmap string value) :
  (delete_all no_failure T m).2 = Fulfilled.
Proof. by apply delete_all_status. Qed.

Lemma elem_of_names_under (prefix : string) (m : gmap string value) (k : string) :
  k ∈ names_under prefix m <->
  is_Some (m !! k) /\ JS.startsWith k prefix = true.
Proof.
  unfold names_under. rewrite elem_of_filter, elem_of_dom. naive_solver.
Qed.

(** [trimPosts] on a namespace that lists its prefix: it ends, having
    deleted the targets among the names under the prefix. *)
Lemma trimPosts_spec lister delete_fails (m : gmap string value)
    (prefix : string) (max : option Z) :
  lists_prefix lister ->
  exists (fuel0 : nat) (names : list string),
    NoDup names /\
    (forall k, k ∈ names <-> k ∈ names_under prefix m) /\
    forall fuel, (fuel0 <= fuel)%nat ->
      trimPosts lister delete_fails fuel m prefix max =
      Some (delete_all delete_fails (trim_targets names max) m).
Proof.
  intros Hl. destruct (Hl m prefix) as (cs & ks & Hpg & Hnd & Hks).
  exists (length cs), ks. split; [done|]. split.
  - intros k. by rewrite Hks, elem_of_names_under.
  - intros fuel Hfuel. unfold trimPosts.
    by rewrite (trim_names_loop_paginates _ _ _ _ _ Hpg fuel [] Hfuel).
Qed.

(** The effect of a trim whose deletes all succeed, in terms of the set
    [D] of deleted names. *)
Lemma trimPosts_cut lister (m : gmap string value) (prefix : string)
    (max : option Z) :
  lists_prefix lister ->
  exists (fuel0 : nat) (D : gset string) (m' : gmap string value),
    (forall fuel, (fuel0 <= fuel)%nat ->
       trimPosts lister no_failure fuel m prefix max = Some (m', Fulfilled)) /\
    D ⊆ names_under prefix m /\
    (forall k, m' !! k = if decide (k ∈ D) then None else m !! k) /\
    size D = match max with
             | Some K => (size (names_under prefix m) - Z.to_nat K)%nat
             | None => 0%nat
             end /\
    (forall d k, d ∈ D -> k ∈ names_under prefix m -> k ∉ D ->
                 String.ltb d k = true).
Proof.
  intros Hl.
  destruct (trimPosts_spec lister no_failure m prefix max Hl)
    as (fuel0 & names & Hnd & Hnames & Hrun).
  exists fuel0, (list_to_set (trim_targets names max)),
    (delete_all no_failure (trim_targets names max) m).1.
  assert (size (names_under prefix m) = length names) as Hsize.
  { rewrite <- (size_list_to_set (C := gset string) names) by done.
    f_equal. apply set_eq. intros k. by rewrite elem_of_list_to_set, Hnames. }
  split; [|split; [|split; [|split]]].
  - intros fuel Hfuel. rewrite (Hrun fuel Hfuel).
    destruct (delete_all no_failure (trim_targets names max) m) as [m' st] eqn:E.
    pose proof (delete_all_no_failure (trim_targets names max) m) as Hst.
    rewrite E in Hst. simpl in *. by subst.
  - intros k Hk%elem_of_list_to_set. apply Hnames.
    by eapply trim_targets_subset.
  - intros k. rewrite delete_all_lookup.
    destruct (decide (k ∈ trim_targets names max /\ no_failure k = false))
      as [[Hin _] | Hno];
      destruct (decide (k ∈ (list_to_set (trim_targets names max) : gset string)))
        as [Hin' | Hno']; try done.
    + exfalso. apply Hno'. by apply elem_of_list_to_set.
    + exfalso. apply Hno. split; [|done]. by apply elem_of_list_to_set in Hin'.
  - rewrite size_list_to_set by by apply trim_targets_NoDup.
    destruct max as [K|]; [|done].
    by rewrite trim_targets_length, Hsize.
  - intros d k Hd%elem_of_list_to_set Hk%Hnames Hnk.
    eapply trim_targets_below; [done..|].
    intros Hin. apply Hnk. by apply elem_of_list_to_set.
Qed.

Lemma names_under_after (prefix : string) (m m' : gmap string value)
    (D : gset string) :
  (forall k, m' !! k = if decide (k ∈ D) then None else m !! k) ->
  names_under prefix m' = names_under prefix m ∖ D.
Proof.
  intros Hm'. apply set_eq. intros k.
  rewrite elem_of_difference, !elem_of_names_under, Hm'.
  destruct (decide (k ∈ D)) as [Hin | Hout].
  - split; [by intros [[? ?] _]|by intros [_ ?]].
  - split; [by intros [? ?]|by intros [[? ?] _]].
Qed.

Lemma names_under_size_after (prefix : string) (m m' : gmap string value)
    (D : gset string) :
  D ⊆ names_under prefix m ->
  (forall k, m' !! k = if decide (k ∈ D) then None else m !! k) ->
  size (names_under prefix m') = (size (names_under prefix m) - size D)%nat.
Proof.
  intros Hsub Hm'. rewrite (names_under_after prefix m m' D Hm').
  by apply size_difference.
Qed.

Lemma names_under_insert (prefix : string) (m : gmap string value)
    (k : string) (v : value) :
  JS.startsWith k prefix = true ->
  names_under prefix (kv_put m k v) = {[k]} ∪ names_under prefix m.
Proof.
  intros Hk. apply set_eq. intros j. unfold kv_put.
  rewrite elem_of_union, elem_of_singleton, !elem_of_names_under.
  destruct (decide (k = j)) as [<- | Hne].
  - rewrite lookup_insert_eq. naive_solver.
  - rewrite lookup_insert_ne by done. naive_solver.
Qed.

(** ** A namespace that answers in one page lists its prefix *)

Lemma one_page_lister_lists_prefix : lists_prefix one_page_lister.
Proof.
  intros m prefix.
  exists [None], (keys (one_page_lister m prefix None)). split; [|split].
  - by apply paginates_last.
  - simpl. rewrite sort_strings_perm.
    apply NoDup_filter, NoDup_elements.
  - intros k. simpl. rewrite sort_strings_perm.
    rewrite list_elem_of_filter, elem_of_elements, elem_of_dom. naive_solver.
Qed.

(** ** Appending *)

Lemma startsWith_app (p t : string) : JS.startsWith (p +:+ t) p = true.
Proof.
  unfold JS.startsWith. induction p as [|c p IH].
  - by destruct t.
  - rewrite string_app_cons. simpl. by destruct (ascii_dec c c).
Qed.

Lemma postKey_startsWith (ts : Z) (id uuid : string) :
  JS.startsWith (postKey ts id uuid) "post:" = true.
Proof.
  unfold postKey. destruct (JS.truthy_string id); apply startsWith_app.
Qed.

Lemma posts_POST_append lister delete_fails fuel MAX_POSTS (r : post_request)
    (m : gmap string value) :
  req_valid r ->
  posts_POST lister delete_fails fuel MAX_POSTS true (Some (req_body r))
    (req_now r) (req_uuid r) m =
  append lister delete_fails fuel m (req_key r) (req_item r)
    (max_posts MAX_POSTS).
Proof. unfold req_valid, posts_POST. by intros ->. Qed.

(** One append whose deletes all succeed, in terms of the set [D] of
    names the trim deleted. *)
Lemma append_cut lister (m : gmap string value) (key : string)
    (item : post_item) (max : option Z) :
  lists_prefix lister ->
  JS.startsWith key "post:" = true ->
  exists (fuel0 : nat) (D : gset string) (m' : gmap string value),
    (forall fuel, (fuel0 <= fuel)%nat ->
       append lister no_failure fuel m key item max = Some (m', OkKey key)) /\
    D ⊆ {[key]} ∪ names_under "post:" m /\
    (forall k, m' !! k = if decide (k ∈ D) then None
                         else <[key := VPost item]> m !! k) /\
    size D = match max with
             | Some K => (size ({[key]} ∪ names_under "post:" m) - Z.to_nat K)%nat
             | None => 0%nat
             end /\
    (forall d k, d ∈ D -> k ∈ {[key]} ∪ names_under "post:" m -> k ∉ D ->
                 String.ltb d k = true).
Proof.
  intros Hl Hkey.
  destruct (trimPosts_cut lister (kv_put m key (VPost item)) "post:" max Hl)
    as (fuel0 & D & m' & Hrun & Hsub & Hm' & Hsize & Hord).
  rewrite names_under_insert in Hsub, Hsize, Hord by done.
  exists fuel0, D, m'. split; [|done].
  intros fuel Hfuel. unfold append. by rewrite (Hrun fuel Hfuel).
Qed.

(** ** The bound after a sequence of appends *)

Lemma log_inv_step lister (K : nat) (m : gmap string value)
    (served : list post_request) (r : post_request) :
  lists_prefix lister ->
  NoDup (req_key <$> (served ++ [r])) ->
  log_inv K m served ->
  exists (fuel0 : nat) (m' : gmap string value),
    (forall fuel, (fuel0 <= fuel)%nat ->
       append lister no_failure fuel m (req_key r) (req_item r)
         (Some (Z.of_nat K)) = Some (m', OkKey (req_key r))) /\
    log_inv K m' (served ++ [r]).
Proof.
  intros Hl Hnd (Hsub & Hsize & Hord & Hval).
  rewrite fmap_app in Hnd. simpl in Hnd.
  apply NoDup_app in Hnd as (Hnd & Hfresh & _).
  assert (req_key r ∉ req_key <$> served) as Hnew.
  { intros Hin. apply (Hfresh _ Hin). by left. }
  assert (req_key r ∉ names_under "post:" m) as HnewS.
  { intros Hin. apply Hnew. apply Hsub in Hin. by apply elem_of_list_to_set in Hin. }
  assert (size (list_to_set (req_key <$> served) : gset string) = length served)
    as Hcard.
  { rewrite size_list_to_set by done. by rewrite length_fmap. }
  destruct (append_cut lister m (req_key r) (req_item r) (Some (Z.of_nat K)) Hl
              (postKey_startsWith _ _ _))
    as (fuel0 & D & m' & Hrun & HD & Hm' & HsizeD & HordD).
  rewrite Nat2Z.id in HsizeD.
  assert (size ({[req_key r]} ∪ names_under "post:" m) =
          S (size (names_under "post:" m))) as Hsize1.
  { rewrite size_union by set_solver + HnewS. by rewrite size_singleton. }
  assert (names_under "post:" m' =
          ({[req_key r]} ∪ names_under "post:" m) ∖ D) as HS2.
  { rewrite <- (names_under_insert "post:" m (req_key r) (VPost (req_item r)))
      by apply postKey_startsWith.
    by apply names_under_after. }
  exists fuel0, m'. split; [done|].
  split; [|split; [|split]].
  - rewrite HS2, fmap_app, list_to_set_app_L. simpl. set_solver + Hsub.
  - rewrite HS2, size_difference by done.
    rewrite HsizeD, Hsize1, Hsize, length_app. simpl. lia.
  - intros x y Hx Hy Hny. rewrite HS2 in Hx, Hny.
    apply elem_of_difference in Hx as [Hx HxD].
    destruct (decide (y ∈ D)) as [HyD | HyD]; [by apply HordD|].
    assert (y ∉ {[req_key r]} ∪ names_under "post:" m) as Hy1
      by set_solver + Hny HyD.
    rewrite fmap_app in Hy. simpl in Hy.
    assert (y ∈ req_key <$> served) as Hys by set_solver + Hy Hy1.
    assert (y ∉ names_under "post:" m) as HyS by set_solver + Hy1.
    apply elem_of_union in Hx as [->%elem_of_singleton | Hx]; [|by apply Hord].
    destruct (decide (size (names_under "post:" m) = length served)) as [Hfull | Hcut].
    { exfalso. apply HyS.
      assert (names_under "post:" m = list_to_set (req_key <$> served)) as Heq.
      { apply set_subseteq_size_eq; [done|]. rewrite Hcard. lia. }
      rewrite Heq. by apply elem_of_list_to_set. }
    assert (0 < size D)%nat as Hpos by lia.
    apply size_pos_elem_of in Hpos as (z & Hz).
    assert (z ∈ names_under "post:" m) as HzS.
    { pose proof (HD _ Hz) as Hz1.
      apply elem_of_union in Hz1 as [->%elem_of_singleton | Hz1]; done. }
    apply (string_ltb_trans _ z).
    + by apply Hord.
    + apply HordD; [done| |done]. apply elem_of_union. left.
      by apply elem_of_singleton.
  - intros r' Hr' Hin. rewrite HS2 in Hin.
    apply elem_of_difference in Hin as [Hin HnD].
    rewrite Hm', decide_False by done.
    apply elem_of_app in Hr' as [Hr' | ->%list_elem_of_singleton].
    + assert (req_key r' ∈ req_key <$> served) as Hk by by apply list_elem_of_fmap_2.
      assert (req_key r <> req_key r') as Hne by (by intros Heq; rewrite Heq in Hnew).
      rewrite lookup_insert_ne by done.
      apply Hval; [done|]. set_solver + Hin Hne.
    + by rewrite lookup_insert_eq.
Qed.

Lemma post_all_inv lister (K : nat) (MAX_POSTS : option string)
    (rest : list post_request) :
  lists_prefix lister ->
  max_posts MAX_POSTS = Some (Z.of_nat K) ->
  forall (served : list post_request) (m : gmap string value),
    NoDup (req_key <$> (served ++ rest)) ->
    Forall req_valid rest ->
    log_inv K m served ->
    exists (fuel0 : nat) (m' : gmap string value),
      (forall fuel, (fuel0 <= fuel)%nat ->
         post_all lister no_failure fuel MAX_POSTS rest m = Some m') /\
      log_inv K m' (served ++ rest).
Proof.
  intros Hl Hmax. induction rest as [|r rest IH]; intros served m Hnd Hvalid Hinv.
  - exists 0%nat, m. rewrite app_nil_r. done.
  - apply Forall_cons in Hvalid as [Hr Hvalid].
    rewrite cons_middle, app_assoc in Hnd.
    assert (NoDup (req_key <$> (served ++ [r]))) as Hnd1.
    { rewrite fmap_app in Hnd. by apply NoDup_app in Hnd as (? & _ & _). }
    destruct (log_inv_step lister K m served r Hl Hnd1 Hinv)
      as (fuel1 & m1 & Hrun1 & Hinv1).
    destruct (IH (served ++ [r]) m1 Hnd Hvalid Hinv1)
      as (fuel2 & m2 & Hrun2 & Hinv2).
    exists (Nat.max fuel1 fuel2), m2. split.
    + intros fuel Hfuel. cbn [post_all].
      rewrite posts_POST_append, Hmax by done.
      rewrite Hrun1 by lia. simpl. apply Hrun2. lia.
    + by rewrite cons_middle, app_assoc.
Qed.

Lemma log_inv_empty (K : nat) (m : gmap string value) :
  names_under "post:" m = ∅ -> log_inv K m [].
Proof.
  intros He. unfold log_inv. rewrite He. simpl.
  split; [done|]. split; [done|].
  split; [by intros x y ?%elem_of_empty|by intros r ?%elem_of_nil].
Qed.

(** One append in general: the write, then the deletes that succeed. *)
Lemma append_spec lister delete_fails (m : gmap string value) (key : string)
    (item : post_item) (max : option Z) :
  lists_prefix lister ->
  exists (fuel0 : nat) (names : list string),
    NoDup names /\
    (forall k, k ∈ names <->
               k ∈ names_under "post:" (kv_put m key (VPost item))) /\
    forall fuel, (fuel0 <= fuel)%nat ->
      append lister delete_fails fuel m key item max =
      let r := delete_all delete_fails (trim_targets names max)
                 (kv_put m key (VPost item)) in
      Some (r.1, match r.2 with Fulfilled => OkKey key | Rejected => Thrown end).
Proof.
  intros Hl.
  destruct (trimPosts_spec lister delete_fails (kv_put m key (VPost item))
              "post:" max Hl) as (fuel0 & names & Hnd & Hnames & Hrun).
  exists fuel0, names. split; [done|]. split; [done|].
  intros fuel Hfuel. unfold append. rewrite (Hrun fuel Hfuel). simpl.
  by destruct (delete_all delete_fails (trim_targets names max)
                 (kv_put m key (VPost item))).
Qed.

(** ** The scan of the earlier worker *)

Lemma worker_push_values (get : string -> value) (ks : list string)
    (out : list value) :
  Worker.push_values get ks out = out ++ (entry_value <$> scan_entries get ks).
Proof.
  revert out. induction ks as [|k ks IH]; intros out.
  - by rewrite app_nil_r.
  - unfold Worker.push_values, scan_entries in *. simpl.
    rewrite IH. destruct (truthy (get k)); [|done].
    by rewrite <- app_assoc.
Qed.

Lemma worker_listKV_loop_paginates list_fn get prefix c cs ks :
  paginates (list_fn prefix) c cs ks ->
  forall fuel out,
    (length cs <= fuel)%nat ->
    Worker.listKV_loop fuel list_fn get prefix c out =
    Some (out ++ (entry_value <$> scan_entries get ks)).
Proof.
  induction 1 as [c Hdone | c c' cs ks Hmore Hcur Htruthy Hrest IH];
    intros [|fuel] out Hfuel; simpl in Hfuel; try lia; simpl.
  - rewrite Hdone. by rewrite worker_push_values.
  - rewrite Hmore, Hcur. simpl. rewrite Htruthy.
    rewrite IH by lia.
    by rewrite worker_push_values, scan_entries_app, fmap_app, <- !app_assoc.
Qed.

(** Without padding the order of keys is not the order of timestamps. *)
Lemma worker_postKey_unordered :
  9 < 10 /\ String.ltb (Worker.postKey 9 "a") (Worker.postKey 10 "a") = false.
Proof. split; [lia|]. vm_compute. reflexivity. Qed.

(** The scan on a well-formed pagination, in general. *)
Lemma listKV_run_paginates list_fn get prefix cs ks fuel :
  paginates (list_fn prefix) None cs ks ->
  (length cs <= fuel)%nat ->
  listKV_run fuel list_fn get prefix =
  Some (scan_entries get ks, ListCall prefix <$> cs).
Proof.
  intros Hpg Hfuel. unfold listKV_run.
  by rewrite (listKV_loop_paginates _ get _ _ _ _ Hpg fuel [] [] Hfuel).
Qed.

Lemma scan_entries_all_truthy (get : string -> value) (ks : list string) :
  (forall k, k ∈ ks -> truthy (get k) = true) ->
  entry_key <$> scan_entries get ks = ks.
Proof.
  intros Hall. rewrite scan_entries_keys.
  induction ks as [|k ks IH]; [done|].
  rewrite filter_cons, decide_True by (apply Hall; by left).
  f_equal. apply IH. intros j Hj. apply Hall. by right.
Qed.

Lemma names_under_size_list (prefix : string) (m : gmap string value)
    (ks : list string) :
  NoDup ks ->
  (forall k, k ∈ ks <-> is_Some (m !! k) /\ JS.startsWith k prefix = true) ->
  size (names_under prefix m) = length ks.
Proof.
  intros Hnd Hks.
  rewrite <- (size_list_to_set (C := gset string) ks) by done.
  f_equal. apply set_eq. intros k.
  by rewrite elem_of_list_to_set, Hks, elem_of_names_under.
Qed.

(** A listed name whose value is absent contributes nothing to the scan. *)
Lemma scan_entries_skip (get : string -> value) (ks : list string) (k0 : string) :
  truthy (get k0) = false ->
  scan_entries get ks = scan_entries get (filter (fun k => k <> k0) ks).
Proof.
  intros Hk0.
  assert (forall k l, scan_entries get (k :: l) =
            (if truthy (get k) then [Entry k (get k)] else [])
            ++ scan_entries get l) as Hcons.
  { intros k l. unfold scan_entries. simpl. by destruct (truthy (get k)). }
  induction ks as [|k ks IH]; [done|].
  rewrite filter_cons, Hcons.
  destruct (decide (k <> k0)) as [Hne | Heq].
  - by rewrite Hcons, IH.
  - apply dec_stable in Heq as ->. by rewrite Hk0.
Qed.

(** ** The read projection *)

Lemma slice0_nat {A} (l : list A) (n : nat) : JS.slice0 l (Z.of_nat n) = take n l.
Proof.
  unfold JS.slice0.
  destruct (Z.ltb_spec (Z.of_nat n) 0) as [|_]; [lia|].
  destruct (le_lt_dec n (length l)) as [Hle | Hgt].
  - f_equal. lia.
  - rewrite !take_ge by lia. done.
Qed.

#[local] Instance feed_before_dec : RelDecision feed_before.
Proof. intros a b. unfold feed_before. apply _. Defined.

#[local] Instance feed_before_total : Total feed_before.
Proof. intros a b. unfold feed_before, feed_cmp. lia. Qed.

#[local] Instance feed_before_trans : Transitive feed_before.
Proof. intros a b c. unfold feed_before, feed_cmp. lia. Qed.

Lemma feed_before_recent (a b : entry) :
  feed_before a b <->
  timestamp_or_0 (entry_value b) <= timestamp_or_0 (entry_value a).
Proof. unfold feed_before, feed_cmp. lia. Qed.

Lemma sort_insert_perm {A} (cmp : A -> A -> Z) (x : A) (l : list A) :
  JS.sort_insert cmp x l ≡ₚ x :: l.
Proof.
  induction l as [|y l IH]; [done|]. cbn [JS.sort_insert].
  destruct (cmp x y <=? 0); [done|]. rewrite IH. apply Permutation_swap.
Qed.

Lemma sort_by_perm {A} (cmp : A -> A -> Z) (l : list A) :
  JS.sort_by cmp l ≡ₚ l.
Proof.
  induction l as [|x l IH]; [done|].
  unfold JS.sort_by in *. cbn [foldr]. by rewrite sort_insert_perm, IH.
Qed.

Lemma sort_insert_feed_sorted (x : entry) (l : list entry) :
  StronglySorted feed_before l ->
  StronglySorted feed_before (JS.sort_insert feed_cmp x l).
Proof.
  induction 1 as [|y l Hl IH Hall]; cbn [JS.sort_insert].
  - repeat constructor.
  - destruct (Z.leb_spec (feed_cmp x y) 0) as [Hle | Hgt].
    + constructor; [by constructor|]. constructor; [done|].
      eapply Forall_impl; [exact Hall|]. intros z Hz.
      by trans y.
    + constructor; [done|]. rewrite sort_insert_perm.
      constructor; [|done]. unfold feed_before, feed_cmp in *. lia.
Qed.

Lemma sort_by_feed_perm (items : list entry) :
  JS.sort_by feed_cmp items ≡ₚ items.
Proof. apply sort_by_perm. Qed.

Lemma sort_by_feed_sorted (items : list entry) :
  StronglySorted feed_before (JS.sort_by feed_cmp items).
Proof.
  induction items as [|x items IH]; [constructor|].
  unfold JS.sort_by in *. cbn [foldr]. by apply sort_insert_feed_sorted.
Qed.

(** The sort keeps the order of entries with equal timestamps. *)
Example sort_by_stable :
  JS.sort_by feed_cmp
    [Entry "a" (VPost (sample_item 5 "a")); Entry "d" (VPost (sample_item 9 "d"));
     Entry "b" (VPost (sample_item 5 "b")); Entry "c" (VPost (sample_item 5 "c"))]
  = [Entry "d" (VPost (sample_item 9 "d")); Entry "a" (VPost (sample_item 5 "a"));
     Entry "b" (VPost (sample_item 5 "b")); Entry "c" (VPost (sample_item 5 "c"))].
Proof. vm_compute. reflexivity. Qed.


(** ** Retried appends *)

(** Appending the same key and item again leaves the contents as the
    first append left them. *)
Lemma append_twice lister (m : gmap string value) (key : string)
    (item : post_item) (max : option Z) :
  lists_prefix lister ->
  JS.startsWith key "post:" = true ->
  exists (fuel0 : nat) (D : gset string) (m1 : gmap string value),
    (forall fuel, (fuel0 <= fuel)%nat ->
       append lister no_failure fuel m key item max = Some (m1, OkKey key) /\
       append lister no_failure fuel m1 key item max = Some (m1, OkKey key)) /\
    D ⊆ {[key]} ∪ names_under "post:" m /\
    (forall k, m1 !! k = if decide (k ∈ D) then None
                         else <[key := VPost item]> m !! k) /\
    size D = match max with
             | Some K => (size ({[key]} ∪ names_under "post:" m) - Z.to_nat K)%nat
             | None => 0%nat
             end /\
    (forall d k, d ∈ D -> k ∈ {[key]} ∪ names_under "post:" m -> k ∉ D ->
                 String.ltb d k = true).
Proof.
  intros Hl Hkey.
  destruct (append_cut lister m key item max Hl Hkey)
    as (fuel1 & D1 & m1 & Hrun1 & HD1 & Hm1 & HsizeD1 & Hord1).
  destruct (append_cut lister m1 key item max Hl Hkey)
    as (fuel2 & D2 & m2 & Hrun2 & HD2 & Hm2 & HsizeD2 & Hord2).
  assert (names_under "post:" m1 =
          ({[key]} ∪ names_under "post:" m) ∖ D1) as HS1.
  { rewrite <- (names_under_insert "post:" m key (VPost item)) by done.
    by apply names_under_after. }
  set (S1 := {[key]} ∪ names_under "post:" m) in *.
  assert (key ∈ S1) as HkeyS1.
  { apply elem_of_union. left. by apply elem_of_singleton. }
  assert (m2 = m1) as Hsame.
  { destruct (decide (key ∈ D1)) as [Hin | Hout].
    - (* the first trim deleted the new post *)
      assert (m1 !! key = None) as Hnone by (by rewrite Hm1, decide_True).
      assert (size D1 <> 0%nat) as Hpos.
      { intros H0%size_empty_iff%leibniz_equiv. rewrite H0 in Hin.
        by apply elem_of_empty in Hin. }
      destruct max as [K|]; [|done].
      assert (size ({[key]} ∪ names_under "post:" m1) = S (Z.to_nat K)) as Hsz.
      { rewrite size_union, size_singleton.
        - rewrite HS1, size_difference by done.
          pose proof (subseteq_size _ _ HD1). lia.
        - rewrite HS1. apply disjoint_singleton_l.
          intros [_ ?]%elem_of_difference. done. }
      rewrite Hsz in HsizeD2.
      assert (size D2 = 1%nat) as Hone by lia.
      apply size_1_elem_of in Hone as (z & Hz).
      apply leibniz_equiv in Hz.
      assert (z = key) as ->.
      { destruct (decide (z = key)) as [|Hne]; [done|]. exfalso.
        assert (z ∈ names_under "post:" m1) as Hz1.
        { assert (z ∈ {[key]} ∪ names_under "post:" m1) as Hz1.
          { apply HD2. rewrite Hz. by apply elem_of_singleton. }
          apply elem_of_union in Hz1 as [?%elem_of_singleton | ?]; done. }
        rewrite HS1 in Hz1. apply elem_of_difference in Hz1 as [HzS HzD].
        apply (string_ltb_asym z key).
        - apply Hord2.
          + rewrite Hz. by apply elem_of_singleton.
          + apply elem_of_union. left. by apply elem_of_singleton.
          + rewrite Hz. by intros ?%elem_of_singleton.
        - by apply Hord1. }
      apply map_eq. intros k. rewrite Hm2, Hz.
      destruct (decide (k ∈ ({[key]} : gset string)))
        as [->%elem_of_singleton | Hne]; [done|].
      apply lookup_insert_ne. intros ->. apply Hne. by apply elem_of_singleton.
    - (* the new post survived the first trim *)
      assert (m1 !! key = Some (VPost item)) as Hsome.
      { by rewrite Hm1, decide_False, lookup_insert_eq. }
      assert (key ∈ names_under "post:" m1) as Hk1.
      { rewrite HS1. by apply elem_of_difference. }
      assert ({[key]} ∪ names_under "post:" m1 = names_under "post:" m1) as Hu.
      { apply set_eq. intros k. rewrite elem_of_union, elem_of_singleton.
        split; [by intros [-> | ?]|by right]. }
      rewrite Hu in HsizeD2.
      assert (D2 = ∅) as ->.
      { apply leibniz_equiv, size_empty_iff.
        destruct max as [K|]; [|done].
        rewrite HS1, size_difference in HsizeD2 by done. lia. }
      apply map_eq. intros k. rewrite Hm2, decide_False by apply not_elem_of_empty.
      by rewrite insert_id. }
  subst m2. exists (Nat.max fuel1 fuel2), D1, m1. split; [|done].
  intros fuel Hfuel. split; [apply Hrun1|apply Hrun2]; lia.
Qed.

(** ** Bounds that are not sizes *)

(** With a negative bound the trim deletes every post, the one just
    written included. *)
Lemma append_negative_bound lister (m : gmap string value) (key : string)
    (item : post_item) (K : Z) :
  lists_prefix lister ->
  JS.startsWith key "post:" = true ->
  K < 0 ->
  exists (fuel0 : nat) (m' : gmap string value),
    (forall fuel, (fuel0 <= fuel)%nat ->
       append lister no_failure fuel m key item (Some K) = Some (m', OkKey key)) /\
    names_under "post:" m' = ∅.
Proof.
  intros Hl Hkey HK.
  destruct (append_cut lister m key item (Some K) Hl Hkey)
    as (fuel0 & D & m' & Hrun & HD & Hm' & Hsize & _).
  exists fuel0, m'. split; [done|].
  rewrite <- (names_under_insert "post:" m key (VPost item)) in HD, Hsize by done.
  rewrite (names_under_after "post:" (kv_put m key (VPost item)) m' D Hm').
  assert (D = names_under "post:" (kv_put m key (VPost item))) as ->.
  { apply set_subseteq_size_eq; [done|]. lia. }
  apply set_eq. intros k. rewrite elem_of_difference.
  split; [by intros [? ?]|by intros ?%elem_of_empty].
Qed.

(** With a bound that is not a number the trim deletes nothing. *)
Lemma append_nan_bound lister (m : gmap string value) (key : string)
    (item : post_item) :
  lists_prefix lister ->
  exists fuel0 : nat,
    forall fuel, (fuel0 <= fuel)%nat ->
      append lister no_failure fuel m key item None
      = Some (kv_put m key (VPost item), OkKey key).
Proof.
  intros Hl.
  destruct (append_spec lister no_failure m key item None Hl)
    as (fuel0 & names & _ & _ & Hrun).
  exists fuel0. intros fuel Hfuel. by rewrite (Hrun fuel Hfuel).
Qed.

(** ** A namespace that answers in pages of bounded size lists its prefix *)

Lemma after_cursor_cons (c y : string) (l : list string) :
  after_cursor c (y :: l) =
  if String.eqb ("after:" +:+ y) c then l else after_cursor c l.
Proof. reflexivity. Qed.

Lemma after_cursor_split (x : string) (l1 l2 : list string) :
  x ∉ l1 -> after_cursor ("after:" +:+ x) (l1 ++ x :: l2) = l2.
Proof.
  intros Hx. induction l1 as [|y l1 IH].
  - rewrite app_nil_l, after_cursor_cons. by rewrite String.eqb_refl.
  - apply not_elem_of_cons in Hx as [Hne Hx].
    rewrite <- app_comm_cons, after_cursor_cons.
    destruct (String.eqb_spec ("after:" +:+ y) ("after:" +:+ x)) as [Heq | _].
    + apply (inj (String.append "after:")) in Heq. congruence.
    + by apply IH.
Qed.

Lemma batch_lister_pages (limit : nat) (both : bool) (m : gmap string value)
    (prefix : string) (n : nat) :
  let all := JS.sort_strings
               (filter (fun k => JS.startsWith k prefix = true)
                       (elements (dom m))) in
  forall (pre rest : list string) (c : option string),
    (length rest <= n)%nat ->
    all = pre ++ rest ->
    match c with None => all | Some c => after_cursor c all end = rest ->
    exists cs, paginates (batch_lister (S limit) both m prefix) c cs rest.
Proof.
  intros all.
  assert (NoDup all) as Hnd.
  { unfold all. rewrite sort_strings_perm. apply NoDup_filter, NoDup_elements. }
  induction n as [|n IH]; intros pre rest c Hlen Hall Hrest.
  - destruct rest; [|simpl in Hlen; lia].
    exists [c]. 
    assert (keys (batch_lister (S limit) both m prefix c) = []) as <-.
    { unfold batch_lister. fold all. by rewrite Hrest. }
    apply paginates_last. unfold batch_lister. fold all. by rewrite Hrest.
  - destruct (le_lt_dec (length rest) (S limit)) as [Hle | Hgt].
    + exists [c].
      assert (keys (batch_lister (S limit) both m prefix c) = rest) as Hk.
      { unfold batch_lister. fold all. rewrite Hrest. simpl keys.
        by apply take_ge. }
      rewrite <- Hk. apply paginates_last.
      unfold batch_lister. fold all. rewrite Hrest. simpl list_complete.
      by apply bool_decide_eq_true.
    + assert (take (S limit) rest <> []) as Hne.
      { intros Hnil.
        assert (length (take (S limit) rest) = 0%nat) as H0 by (by rewrite Hnil).
        rewrite length_take in H0. lia. }
      destruct (exists_last Hne) as (page0 & x & Hpage).
      assert (rest = (page0 ++ [x]) ++ drop (S limit) rest) as Hsplit.
      { by rewrite <- Hpage, take_drop. }
      assert (keys (batch_lister (S limit) both m prefix c) = page0 ++ [x]) as Hk.
      { unfold batch_lister. fold all. by rewrite Hrest. }
      assert (list_complete (batch_lister (S limit) both m prefix c) = false)
        as Hc.
      { unfold batch_lister. fold all. rewrite Hrest. simpl list_complete.
        apply bool_decide_eq_false. lia. }
      assert (cursor (batch_lister (S limit) both m prefix c)
              = Some ("after:" +:+ x)) as Hcur.
      { unfold batch_lister. fold all. rewrite Hrest. simpl cursor.
        rewrite bool_decide_eq_false_2 by lia. simpl.
        by rewrite Hpage, last_snoc. }
      destruct (IH (pre ++ page0 ++ [x]) (drop (S limit) rest)
                  (Some ("after:" +:+ x))) as (cs & Hcs).
      * rewrite length_drop. lia.
      * rewrite Hall, Hsplit at 1. by rewrite <- !app_assoc.
      * rewrite Hall, Hsplit at 1.
        replace (pre ++ (page0 ++ [x]) ++ drop (S limit) rest)
          with ((pre ++ page0) ++ x :: drop (S limit) rest)
          by (by rewrite <- !app_assoc).
        apply after_cursor_split.
        rewrite Hall, Hsplit in Hnd.
        replace (pre ++ (page0 ++ [x]) ++ drop (S limit) rest)
          with ((pre ++ page0) ++ x :: drop (S limit) rest) in Hnd
          by (by rewrite <- !app_assoc).
        apply NoDup_app in Hnd as (_ & Hdis & _).
        intros Hin. apply (Hdis x Hin). by left.
      * exists (c :: cs). rewrite Hsplit at 1. rewrite <- Hk.
        by eapply paginates_next.
Qed.

Lemma batch_lister_lists_prefix (limit : nat) (both : bool) :
  lists_prefix (batch_lister (S limit) both).
Proof.
  intros m prefix.
  set (all := JS.sort_strings
                (filter (fun k => JS.startsWith k prefix = true)
                        (elements (dom m)))).
  destruct (batch_lister_pages limit both m prefix (length all) [] all None)
    as (cs & Hcs); [done..|].
  exists cs, all. split; [done|]. split.
  - unfold all. rewrite sort_strings_perm. apply NoDup_filter, NoDup_elements.
  - intros k. unfold all. rewrite sort_strings_perm.
    rewrite list_elem_of_filter, elem_of_elements, elem_of_dom. naive_solver.
Qed.

(** * The claims *)

(** C1 (amended).  For integer timestamps from 0 up to, but not
    including, 10^13 (at most 13 decimal digits), the key of record A is
    lexicographically smaller than the key of record B if and only if
    A.timestamp < B.timestamp, or the timestamps are equal and A's
    identifier is smaller than B's. *)
Theorem postKey_order (tsA tsB : Z) (idA idB uA uB : string) :
  0 <= tsA < 10 ^ 13 -> 0 <= tsB < 10 ^ 13 ->
  (String.ltb (postKey tsA idA uA) (postKey tsB idB uB) = true <->
   tsA < tsB \/
   (tsA = tsB /\ String.ltb (key_id idA uA) (key_id idB uB) = true)).
Proof.
  intros HA HB. unfold String.ltb at 1. rewrite postKey_compare by done.
  destruct (Z.compare_spec tsA tsB) as [Heq | Hlt | Hgt].
  - unfold String.ltb. split; [by right|]. intros [?|[_ ?]]; [lia|done].
  - split; [by left|done].
  - split; [done|]. intros [?|[? _]]; lia.
Qed.

Lemma postKey_order_witness :
  0 <= 1700000000000 < 10 ^ 13 /\ 0 <= 1700000000001 < 10 ^ 13 /\
  (String.ltb (postKey 1700000000000 "b" "") (postKey 1700000000001 "a" "")
   = true <->
   1700000000000 < 1700000000001 \/
   (1700000000000 = 1700000000001 /\
    String.ltb (key_id "b" "") (key_id "a" "") = true)).
Proof.
  split; [lia|]. split; [lia|].
  apply (postKey_order 1700000000000 1700000000001 "b" "a" "" ""); lia.
Defined.

(** C1 as stated fails at 10^13 itself, whose decimal form has 14 digits:
    the older record gets the larger key. *)
Lemma postKey_order_fails_at_10e13 :
  0 <= 2000000000000 <= 10 ^ 13 /\ 0 <= 10 ^ 13 <= 10 ^ 13 /\
  ~ (String.ltb (postKey 2000000000000 "a" "") (postKey (10 ^ 13) "a" "")
     = true <->
     2000000000000 < 10 ^ 13 \/
     (2000000000000 = 10 ^ 13 /\ String.ltb "a" "a" = true)).
Proof.
  split; [lia|]. split; [lia|]. intros [_ H].
  assert (String.ltb (postKey 2000000000000 "a" "") (postKey (10 ^ 13) "a" "")
          = false) as Hf by (vm_compute; reflexivity).
  rewrite H in Hf; [discriminate|]. left. lia.
Qed.

(** C5.  With a bound [max >= 0], on a namespace that lists its prefix,
    [trimPosts] ends and deletes a set [D] of names under the prefix:
    nothing, leaving the contents unchanged, when the count is at most
    [max]; otherwise exactly [count - max] names, each smaller than every
    name under the prefix that is kept; and with [max = 0] no name under
    the prefix is left. *)
Theorem trimPosts_deletes_oldest lister (m : gmap string value)
    (prefix : string) (max : Z) :
  lists_prefix lister ->
  0 <= max ->
  exists (fuel0 : nat) (D : gset string) (m' : gmap string value),
    (forall fuel, (fuel0 <= fuel)%nat ->
       trimPosts lister no_failure fuel m prefix (Some max)
       = Some (m', Fulfilled)) /\
    (forall k, m' !! k = if decide (k ∈ D) then None else m !! k) /\
    D ⊆ names_under prefix m /\
    (Z.of_nat (size (names_under prefix m)) <= max -> D = ∅ /\ m' = m) /\
    (max < Z.of_nat (size (names_under prefix m)) ->
       Z.of_nat (size D) = Z.of_nat (size (names_under prefix m)) - max /\
       forall d k, d ∈ D -> k ∈ names_under prefix m -> k ∉ D ->
                   String.ltb d k = true) /\
    (max = 0 -> names_under prefix m' = ∅).
Proof.
  intros Hl Hmax.
  destruct (trimPosts_cut lister m prefix (Some max) Hl)
    as (fuel0 & D & m' & Hrun & Hsub & Hm' & Hsize & Hord).
  exists fuel0, D, m'. split; [done|]. split; [done|]. split; [done|].
  split; [|split].
  - intros Hle. assert (D = ∅) as ->.
    { apply leibniz_equiv, size_empty_iff. lia. }
    split; [done|]. apply map_eq. intros k. rewrite Hm'.
    rewrite decide_False; [done|]. apply not_elem_of_empty.
  - intros Hlt. split; [lia|done].
  - intros ->. rewrite (names_under_after prefix m m' D Hm').
    assert (D = names_under prefix m) as ->.
    { apply set_subseteq_size_eq; [done|]. simpl in Hsize. lia. }
    apply set_eq. intros k. rewrite elem_of_difference.
    split; [by intros [? ?]|by intros ?%elem_of_empty].
Qed.

Lemma trimPosts_deletes_oldest_witness :
  lists_prefix (batch_lister 2 true) /\ 0 <= 1 /\
  exists (fuel0 : nat) (D : gset string) (m' : gmap string value),
    (forall fuel, (fuel0 <= fuel)%nat ->
       trimPosts (batch_lister 2 true) no_failure fuel sample_store "post:"
         (Some 1) = Some (m', Fulfilled)) /\
    (forall k, m' !! k = if decide (k ∈ D) then None else sample_store !! k) /\
    D ⊆ names_under "post:" sample_store /\
    (Z.of_nat (size (names_under "post:" sample_store)) <= 1 ->
       D = ∅ /\ m' = sample_store) /\
    (1 < Z.of_nat (size (names_under "post:" sample_store)) ->
       Z.of_nat (size D)
       = Z.of_nat (size (names_under "post:" sample_store)) - 1 /\
       forall d k, d ∈ D -> k ∈ names_under "post:" sample_store -> k ∉ D ->
                   String.ltb d k = true) /\
    (1 = 0 -> names_under "post:" m' = ∅).
Proof.
  split; [apply (batch_lister_lists_prefix 1 true)|]. split; [lia|].
  apply (trimPosts_deletes_oldest (batch_lister 2 true) sample_store "post:" 1);
    [apply (batch_lister_lists_prefix 1 true)|lia].
Defined.

Example trimPosts_sample :
  trimPosts one_page_lister no_failure 1 sample_store "post:" (Some 1) =
  Some (kv_put (kv_put ∅ "stats:current" sample_stats)
          (postKey 9 "c" "") (VPost (sample_item 9 "c")), Fulfilled).
Proof. vm_compute. reflexivity. Qed.

(** C10.  On a namespace that lists its prefix, whatever the bound and
    whichever deletes fail, [trimPosts] ends and every name it deletes
    starts with its prefix, so that names outside the prefix keep their
    values; and [POST /posts] leaves every name outside ["post:"], such as
    ["stats:current"], as it was. *)
Theorem trim_and_append_frame lister delete_fails :
  lists_prefix lister ->
  (forall (m : gmap string value) (prefix : string) (max : option Z),
   exists fuel0 : nat, forall fuel, (fuel0 <= fuel)%nat ->
   exists m' st,
     trimPosts lister delete_fails fuel m prefix max = Some (m', st) /\
     (forall k, is_Some (m !! k) -> m' !! k = None ->
                JS.startsWith k prefix = true) /\
     (forall k, JS.startsWith k prefix = false -> m' !! k = m !! k)) /\
  (forall (m : gmap string value) MAX_POSTS authed body now uuid,
   exists fuel0 : nat, forall fuel, (fuel0 <= fuel)%nat ->
   exists m' resp,
     posts_POST lister delete_fails fuel MAX_POSTS authed body now uuid m
     = Some (m', resp) /\
     (forall k, JS.startsWith k "post:" = false -> m' !! k = m !! k) /\
     m' !! "stats:current" = m !! "stats:current").
Proof.
  intros Hl.
  assert (forall (m : gmap string value) (prefix : string) (names : list string)
                 (max : option Z) (k : string),
            (forall j, j ∈ names <-> j ∈ names_under prefix m) ->
            (delete_all delete_fails (trim_targets names max) m).1 !! k <> m !! k ->
            JS.startsWith k prefix = true) as Hdel.
  { intros m prefix names max k Hnames Hne.
    rewrite delete_all_lookup in Hne.
    destruct (decide (k ∈ trim_targets names max /\ delete_fails k = false))
      as [[Hin _] | ?]; [|done].
    apply trim_targets_subset, Hnames, elem_of_names_under in Hin. by destruct Hin. }
  assert (forall (m : gmap string value) (key : string) (item : post_item)
                 (max : option Z),
            JS.startsWith key "post:" = true ->
            exists fuel0 : nat, forall fuel, (fuel0 <= fuel)%nat ->
            exists m' resp,
              append lister delete_fails fuel m key item max = Some (m', resp) /\
              forall k, JS.startsWith k "post:" = false -> m' !! k = m !! k)
    as Happ.
  { intros m key item max Hkey.
    destruct (append_spec lister delete_fails m key item max Hl)
      as (fuel0 & names & _ & Hnames & Hrun).
    exists fuel0. intros fuel Hfuel. rewrite (Hrun fuel Hfuel). cbv zeta.
    eexists _, _. split; [done|]. intros k Hk.
    destruct (decide ((delete_all delete_fails (trim_targets names max)
                         (kv_put m key (VPost item))).1 !! k
                      = kv_put m key (VPost item) !! k)) as [-> | Hne].
    - unfold kv_put. apply lookup_insert_ne. intros ->. congruence.
    - apply (Hdel _ "post:" names max k Hnames) in Hne. congruence. }
  split.
  - intros m prefix max.
    destruct (trimPosts_spec lister delete_fails m prefix max Hl)
      as (fuel0 & names & _ & Hnames & Hrun).
    exists fuel0. intros fuel Hfuel. rewrite (Hrun fuel Hfuel).
    destruct (delete_all delete_fails (trim_targets names max) m)
      as [m' st] eqn:E.
    exists m', st. split; [done|].
    assert (forall k, m' !! k <> m !! k -> JS.startsWith k prefix = true) as Hd.
    { intros k. pose proof (Hdel m prefix names max k Hnames) as H.
      by rewrite E in H. }
    split.
    + intros k [v Hv] Hnone. apply Hd. congruence.
    + intros k Hk. destruct (decide (m' !! k = m !! k)) as [|Hne]; [done|].
      apply Hd in Hne. congruence.
  - intros m MAX_POSTS authed body now uuid. unfold posts_POST.
    destruct authed; simpl; [|by exists 0%nat; eauto 10].
    destruct body as [body|]; [|by exists 0%nat; eauto 10].
    destruct (JS.truthy_string (default "" (body_image_url body))); simpl;
      [|by exists 0%nat; eauto 10].
    destruct (Happ m (postKey (post_ts body now) (post_id body) uuid)
                (post_item_of body now) (max_posts MAX_POSTS)
                (postKey_startsWith _ _ _)) as (fuel0 & Hrun).
    exists fuel0. intros fuel Hfuel.
    destruct (Hrun fuel Hfuel) as (m' & resp & -> & Hframe).
    exists m', resp. split; [done|]. split; [done|]. by apply Hframe.
Qed.

Lemma trim_and_append_frame_witness :
  lists_prefix (batch_lister 2 true) /\
  ((forall (m : gmap string value) (prefix : string) (max : option Z),
    exists fuel0 : nat, forall fuel, (fuel0 <= fuel)%nat ->
    exists m' st,
      trimPosts (batch_lister 2 true) no_failure fuel m prefix max
      = Some (m', st) /\
      (forall k, is_Some (m !! k) -> m' !! k = None ->
                 JS.startsWith k prefix = true) /\
      (forall k, JS.startsWith k prefix = false -> m' !! k = m !! k)) /\
   (forall (m : gmap string value) MAX_POSTS authed body now uuid,
    exists fuel0 : nat, forall fuel, (fuel0 <= fuel)%nat ->
    exists m' resp,
      posts_POST (batch_lister 2 true) no_failure fuel MAX_POSTS authed body
        now uuid m = Some (m', resp) /\
      (forall k, JS.startsWith k "post:" = false -> m' !! k = m !! k) /\
      m' !! "stats:current" = m !! "stats:current")).
Proof.
  split; [apply (batch_lister_lists_prefix 1 true)|].
  apply (trim_and_append_frame (batch_lister 2 true) no_failure).
  apply (batch_lister_lists_prefix 1 true).
Defined.

(** C2 (amended).  Starting from a namespace with no post, [N] valid
    requests with pairwise distinct keys and integer timestamps from 0 up
    to, but not including, 10^13 (at most 13 decimal digits), served one
    after the other under the bound [K < N], leave exactly [K] posts
    under ["post:"]; each is the item of one of the requests, and no
    request whose post was dropped is more recent than one whose post is
    kept. *)
Theorem posts_bound_sequential lister (K N : nat) (MAX_POSTS : option string)
    (reqs : list post_request) (m : gmap string value) :
  lists_prefix lister ->
  (K < N)%nat ->
  length reqs = N ->
  max_posts MAX_POSTS = Some (Z.of_nat K) ->
  Forall req_valid reqs ->
  Forall (fun r => 0 <= req_ts r < 10 ^ 13) reqs ->
  NoDup (req_key <$> reqs) ->
  names_under "post:" m = ∅ ->
  exists (fuel0 : nat) (m' : gmap string value),
    (forall fuel, (fuel0 <= fuel)%nat ->
       post_all lister no_failure fuel MAX_POSTS reqs m = Some m') /\
    size (names_under "post:" m') = K /\
    (forall k, k ∈ names_under "post:" m' ->
       exists r, r ∈ reqs /\ k = req_key r /\
                 m' !! k = Some (VPost (req_item r))) /\
    (forall r r', r ∈ reqs -> r' ∈ reqs ->
       req_key r ∈ names_under "post:" m' ->
       req_key r' ∉ names_under "post:" m' ->
       req_ts r' <= req_ts r).
Proof.
  intros Hl HKN Hlen Hmax Hvalid Hrange Hnd Hempty.
  destruct (post_all_inv lister K MAX_POSTS reqs Hl Hmax [] m Hnd Hvalid
              (log_inv_empty K m Hempty))
    as (fuel0 & m' & Hrun & Hsub & Hsize & Hord & Hval).
  simpl in *. exists fuel0, m'. split; [done|]. split; [lia|]. split.
  - intros k Hk. pose proof (Hsub k Hk) as Hin.
    apply elem_of_list_to_set, list_elem_of_fmap in Hin as (r & -> & Hr).
    exists r. split; [done|]. split; [done|]. by apply Hval.
  - intros r r' Hr Hr' Hkept Hdropped.
    assert (String.ltb (req_key r') (req_key r) = true) as Hlt.
    { apply Hord; [done| |done]. by apply list_elem_of_fmap_2. }
    rewrite Forall_forall in Hrange.
    unfold String.ltb, req_key in Hlt.
    rewrite postKey_compare in Hlt by by apply Hrange.
    destruct (Z.compare_spec (req_ts r') (req_ts r)); [lia|lia|done].
Qed.

Lemma posts_bound_sequential_witness :
  lists_prefix (batch_lister 2 true) /\ (2 < 3)%nat /\
  length sample_requests = 3%nat /\
  max_posts (Some "2") = Some (Z.of_nat 2) /\
  Forall req_valid sample_requests /\
  Forall (fun r => 0 <= req_ts r < 10 ^ 13) sample_requests /\
  NoDup (req_key <$> sample_requests) /\
  names_under "post:" stats_store = ∅ /\
  exists (fuel0 : nat) (m' : gmap string value),
    (forall fuel, (fuel0 <= fuel)%nat ->
       post_all (batch_lister 2 true) no_failure fuel (Some "2")
         sample_requests stats_store = Some m') /\
    size (names_under "post:" m') = 2%nat /\
    (forall k, k ∈ names_under "post:" m' ->
       exists r, r ∈ sample_requests /\ k = req_key r /\
                 m' !! k = Some (VPost (req_item r))) /\
    (forall r r', r ∈ sample_requests -> r' ∈ sample_requests ->
       req_key r ∈ names_under "post:" m' ->
       req_key r' ∉ names_under "post:" m' ->
       req_ts r' <= req_ts r).
Proof.
  assert (Forall req_valid sample_requests) as Hvalid by (repeat constructor).
  assert (Forall (fun r => 0 <= req_ts r < 10 ^ 13) sample_requests) as Hrange
    by (repeat constructor; by vm_compute).
  assert (NoDup (req_key <$> sample_requests)) as Hnd
    by (apply (bool_decide_unpack _); vm_compute; exact I).
  assert (names_under "post:" stats_store = ∅) as Hempty
    by (apply (bool_decide_unpack _); vm_compute; exact I).
  split; [apply (batch_lister_lists_prefix 1 true)|]. split; [lia|].
  split; [reflexivity|]. split; [reflexivity|].
  split; [exact Hvalid|]. split; [exact Hrange|]. split; [exact Hnd|].
  split; [exact Hempty|].
  apply (posts_bound_sequential (batch_lister 2 true) 2 3 (Some "2")
           sample_requests stats_store);
    [apply (batch_lister_lists_prefix 1 true)|lia|reflexivity|reflexivity
    |exact Hvalid|exact Hrange|exact Hnd|exact Hempty].
Defined.

(** C2 as stated fails at 10^13 itself, whose decimal form has 14
    digits: of the posts at 2 * 10^12 and at 10^13, served in that order
    under the bound 1, the trim deletes the one at 10^13, whose key is
    the smaller, and the older post is the one that is kept. *)
Lemma posts_bound_sequential_fails_at_10e13 :
  lists_prefix one_page_lister /\ (1 < 2)%nat /\
  length late_requests = 2%nat /\
  max_posts (Some "1") = Some (Z.of_nat 1) /\
  Forall req_valid late_requests /\
  Forall (fun r => 0 <= req_ts r <= 10 ^ 13) late_requests /\
  NoDup (req_key <$> late_requests) /\
  names_under "post:" (∅ : gmap string value) = ∅ /\
  post_all one_page_lister no_failure 1 (Some "1") late_requests ∅
  = Some late_store /\
  size (names_under "post:" late_store) = 1%nat /\
  ~ (forall r r', r ∈ late_requests -> r' ∈ late_requests ->
       req_key r ∈ names_under "post:" late_store ->
       req_key r' ∉ names_under "post:" late_store ->
       req_ts r' <= req_ts r).
Proof.
  assert (names_under "post:" late_store = {["post:2000000000000:a"]})
    as Hnames by (apply (bool_decide_unpack _); vm_compute; exact I).
  split; [apply one_page_lister_lists_prefix|]. split; [lia|].
  split; [reflexivity|]. split; [reflexivity|].
  split; [repeat constructor|].
  split; [repeat constructor; by vm_compute|].
  split; [apply (bool_decide_unpack _); vm_compute; exact I|].
  split; [apply (bool_decide_unpack _); vm_compute; exact I|].
  split; [vm_compute; reflexivity|].
  split; [by rewrite Hnames, size_singleton|].
  intros H.
  specialize (H (sample_request 2000000000000 "a")
                (sample_request (10 ^ 13) "b")).
  assert (req_ts (sample_request (10 ^ 13) "b")
          <= req_ts (sample_request 2000000000000 "a")) as Hle;
    [|vm_compute in Hle; by apply Hle].
  apply H.
  - unfold late_requests. set_solver +.
  - unfold late_requests. set_solver +.
  - rewrite Hnames. apply elem_of_singleton. vm_compute. reflexivity.
  - rewrite Hnames. intros Hin%elem_of_singleton. vm_compute in Hin.
    discriminate Hin.
Qed.

Example post_all_sample :
  post_all one_page_lister no_failure 1 (Some "2") sample_requests ∅ =
  Some (kv_put (kv_put ∅
          (postKey 5 "a" "") (VPost (sample_item 5 "a")))
          (postKey 9 "c" "") (VPost (sample_item 9 "c"))).
Proof. vm_compute. reflexivity. Qed.

(** C3.  When the namespace pages the names under the prefix over any
    number of [ns.list] answers, the scan ends; every call passes the
    prefix, the first call passes no cursor and each later call the
    cursor the previous answer returned; the call whose answer is flagged
    complete is the last one, whether or not that answer carries a cursor;
    and the result holds each record under the prefix exactly once. *)
Theorem listKV_complete list_fn (m : gmap string value) (prefix : string)
    (cs : list (option string)) (ks : list string) (fuel : nat) :
  paginates (list_fn prefix) None cs ks ->
  NoDup ks ->
  (forall k, k ∈ ks <-> is_Some (m !! k) /\ JS.startsWith k prefix = true) ->
  (forall k, k ∈ ks -> truthy (kv_get m k) = true) ->
  (length cs <= fuel)%nat ->
  exists (out : list entry) (calls : list list_call),
    listKV_run fuel list_fn (kv_get m) prefix = Some (out, calls) /\
    listKV fuel list_fn (kv_get m) prefix = Some out /\
    Worker.listKV fuel list_fn (kv_get m) prefix = Some (entry_value <$> out) /\
    (forall c, c ∈ calls -> call_prefix c = prefix) /\
    head calls = Some (ListCall prefix None) /\
    (forall i a b, calls !! i = Some a -> calls !! S i = Some b ->
       list_complete (list_fn prefix (call_cursor a)) = false /\
       call_cursor b = cursor (list_fn prefix (call_cursor a))) /\
    (exists z, last calls = Some z /\
               list_complete (list_fn prefix (call_cursor z)) = true) /\
    NoDup (entry_key <$> out) /\
    length out = size (names_under prefix m) /\
    (forall k v, Entry k v ∈ out <->
                 m !! k = Some v /\ JS.startsWith k prefix = true).
Proof.
  intros Hpg Hnd Hks Htruthy Hfuel.
  exists (scan_entries (kv_get m) ks), (ListCall prefix <$> cs).
  pose proof (listKV_run_paginates list_fn (kv_get m) prefix cs ks fuel
                Hpg Hfuel) as Hrun.
  destruct (paginates_chain _ _ _ _ Hpg) as (Hhd & Hstep & (z & Hz & Hzc) & _).
  pose proof (scan_entries_all_truthy (kv_get m) ks Htruthy) as Hkeys.
  split; [done|]. split; [by unfold listKV; rewrite Hrun|].
  split.
  { unfold Worker.listKV.
    by rewrite (worker_listKV_loop_paginates _ (kv_get m) _ _ _ _ Hpg fuel []
                  Hfuel). }
  split.
  { by intros c (a & -> & _)%list_elem_of_fmap. }
  split.
  { destruct cs as [|c cs]; simplify_eq/=. done. }
  split.
  { intros i a b Ha Hb. rewrite list_lookup_fmap in Ha, Hb.
    destruct (cs !! i) as [ca|] eqn:Hca; simplify_eq/=.
    destruct (cs !! S i) as [cb|] eqn:Hcb; simplify_eq/=.
    destruct (Hstep i ca cb Hca Hcb) as [? ?]. done. }
  split.
  { exists (ListCall prefix z). split; [|done].
    by rewrite fmap_last, Hz. }
  split; [by rewrite Hkeys|].
  split.
  { rewrite <- (length_fmap entry_key), Hkeys.
    symmetry. by apply names_under_size_list. }
  intros k v. rewrite elem_of_scan_entries. simpl. rewrite Hks.
  unfold kv_get. split.
  - intros ((Hsome & Hpre) & -> & _). destruct Hsome as [v Hv].
    by rewrite Hv.
  - intros (Hv & Hpre). assert (k ∈ ks) as Hk by (apply Hks; eauto).
    split; [eauto|]. split; [by rewrite Hv|].
    pose proof (Htruthy k Hk) as Ht. unfold kv_get in Ht. done.
Qed.

Lemma listKV_complete_witness :
  paginates (two_page_list "post:") None [None; Some "page-2"] sample_names /\
  NoDup sample_names /\
  (forall k, k ∈ sample_names <->
     is_Some (sample_store !! k) /\ JS.startsWith k "post:" = true) /\
  (forall k, k ∈ sample_names -> truthy (kv_get sample_store k) = true) /\
  (length [None; Some "page-2"] <= 2)%nat /\
  exists (out : list entry) (calls : list list_call),
    listKV_run 2 two_page_list (kv_get sample_store) "post:"
    = Some (out, calls) /\
    listKV 2 two_page_list (kv_get sample_store) "post:" = Some out /\
    Worker.listKV 2 two_page_list (kv_get sample_store) "post:"
    = Some (entry_value <$> out) /\
    (forall c, c ∈ calls -> call_prefix c = "post:") /\
    head calls = Some (ListCall "post:" None) /\
    (forall i a b, calls !! i = Some a -> calls !! S i = Some b ->
       list_complete (two_page_list "post:" (call_cursor a)) = false /\
       call_cursor b = cursor (two_page_list "post:" (call_cursor a))) /\
    (exists z, last calls = Some z /\
               list_complete (two_page_list "post:" (call_cursor z)) = true) /\
    NoDup (entry_key <$> out) /\
    length out = size (names_under "post:" sample_store) /\
    (forall k v, Entry k v ∈ out <->
                 sample_store !! k = Some v /\ JS.startsWith k "post:" = true).
Proof.
  assert (paginates (two_page_list "post:") None [None; Some "page-2"]
            sample_names) as Hpg.
  { apply (paginates_next (two_page_list "post:") None "page-2"
             [Some "page-2"] [postKey 5 "a" ""; postKey 9 "c" ""]);
      [reflexivity..|].
    by apply (paginates_last (two_page_list "post:") (Some "page-2")). }
  assert (NoDup sample_names) as Hnd
    by (apply (bool_decide_unpack _); vm_compute; exact I).
  assert (forall k, k ∈ sample_names <->
            is_Some (sample_store !! k) /\ JS.startsWith k "post:" = true)
    as Hks.
  { intros k. rewrite <- elem_of_names_under.
    assert (names_under "post:" sample_store = list_to_set sample_names) as ->
      by (apply (bool_decide_unpack _); vm_compute; exact I).
    by rewrite elem_of_list_to_set. }
  assert (forall k, k ∈ sample_names ->
            truthy (kv_get sample_store k) = true) as Htruthy.
  { intros k Hk. unfold sample_names in Hk.
    repeat (apply elem_of_cons in Hk as [-> | Hk]; [by vm_compute|]).
    by apply elem_of_nil in Hk. }
  split; [exact Hpg|]. split; [exact Hnd|]. split; [exact Hks|].
  split; [exact Htruthy|]. split; [simpl; lia|].
  apply (listKV_complete two_page_list sample_store "post:"
           [None; Some "page-2"] sample_names 2 Hpg Hnd Hks Htruthy).
  simpl. lia.
Defined.

(** C8.  When a listed name has no value at the time it is fetched, the
    scan still ends with a result: the result is what the scan of the
    other listed names gives, it has no entry for the absent name, and
    it has the entry of every listed name that holds a record. *)
Theorem listKV_skips_absent list_fn (m : gmap string value) (prefix : string)
    (cs : list (option string)) (ks : list string) (fuel : nat) (k0 : string) :
  paginates (list_fn prefix) None cs ks ->
  (length cs <= fuel)%nat ->
  k0 ∈ ks ->
  m !! k0 = None ->
  exists out : list entry,
    listKV fuel list_fn (kv_get m) prefix = Some out /\
    Worker.listKV fuel list_fn (kv_get m) prefix = Some (entry_value <$> out) /\
    out = scan_entries (kv_get m) (filter (fun k => k <> k0) ks) /\
    (forall e, e ∈ out -> entry_key e <> k0) /\
    (forall k v, k ∈ ks -> m !! k = Some v -> truthy v = true ->
                 Entry k v ∈ out).
Proof.
  intros Hpg Hfuel Hk0 Hnone.
  assert (truthy (kv_get m k0) = false) as Hfalsy.
  { unfold kv_get. by rewrite Hnone. }
  exists (scan_entries (kv_get m) ks).
  split.
  { unfold listKV.
    by rewrite (listKV_run_paginates list_fn (kv_get m) prefix cs ks fuel). }
  split.
  { unfold Worker.listKV.
    by rewrite (worker_listKV_loop_paginates _ (kv_get m) _ _ _ _ Hpg fuel []
                  Hfuel). }
  split; [by apply scan_entries_skip|].
  split.
  - intros e (_ & _ & Ht)%elem_of_scan_entries Heq.
    rewrite Heq in Ht. congruence.
  - intros k v Hk Hv Ht. apply elem_of_scan_entries. simpl.
    unfold kv_get. rewrite Hv. done.
Qed.

Lemma listKV_skips_absent_witness :
  paginates (two_page_list "post:") None [None; Some "page-2"] sample_names /\
  (length [None; Some "page-2"] <= 2)%nat /\
  postKey 3 "b" "" ∈ sample_names /\
  kv_delete sample_store (postKey 3 "b" "") !! postKey 3 "b" "" = None /\
  exists out : list entry,
    listKV 2 two_page_list
      (kv_get (kv_delete sample_store (postKey 3 "b" ""))) "post:" = Some out /\
    Worker.listKV 2 two_page_list
      (kv_get (kv_delete sample_store (postKey 3 "b" ""))) "post:"
    = Some (entry_value <$> out) /\
    out = scan_entries (kv_get (kv_delete sample_store (postKey 3 "b" "")))
            (filter (fun k => k <> postKey 3 "b" "") sample_names) /\
    (forall e, e ∈ out -> entry_key e <> postKey 3 "b" "") /\
    (forall k v,
       k ∈ sample_names ->
       kv_delete sample_store (postKey 3 "b" "") !! k = Some v ->
       truthy v = true -> Entry k v ∈ out).
Proof.
  assert (paginates (two_page_list "post:") None [None; Some "page-2"]
            sample_names) as Hpg.
  { apply (paginates_next (two_page_list "post:") None "page-2"
             [Some "page-2"] [postKey 5 "a" ""; postKey 9 "c" ""]);
      [reflexivity..|].
    by apply (paginates_last (two_page_list "post:") (Some "page-2")). }
  assert (postKey 3 "b" "" ∈ sample_names) as Hin by (right; left).
  assert (kv_delete sample_store (postKey 3 "b" "") !! postKey 3 "b" "" = None)
    as Hnone by apply lookup_delete_eq.
  split; [exact Hpg|]. split; [simpl; lia|]. split; [exact Hin|].
  split; [exact Hnone|].
  apply (listKV_skips_absent two_page_list
           (kv_delete sample_store (postKey 3 "b" "")) "post:"
           [None; Some "page-2"] sample_names 2 (postKey 3 "b" "") Hpg);
    [simpl; lia|exact Hin|exact Hnone].
Defined.

Example listKV_after_race :
  listKV 2 two_page_list (kv_get (kv_delete sample_store (postKey 3 "b" "")))
    "post:" =
  Some [Entry (postKey 1 "d" "") (VPost (sample_item 1 "d"));
        Entry (postKey 5 "a" "") (VPost (sample_item 5 "a"));
        Entry (postKey 9 "c" "") (VPost (sample_item 9 "c"))].
Proof. vm_compute. reflexivity. Qed.



Example listKV_batches :
  listKV_run 2 (batch_lister 2 true sample_store) (kv_get sample_store) "post:" =
  Some ([Entry (postKey 1 "d" "") (VPost (sample_item 1 "d"));
         Entry (postKey 3 "b" "") (VPost (sample_item 3 "b"));
         Entry (postKey 5 "a" "") (VPost (sample_item 5 "a"));
         Entry (postKey 9 "c" "") (VPost (sample_item 9 "c"))],
        [ListCall "post:" None;
         ListCall "post:" (Some ("after:" +:+ postKey 3 "b" ""))]).
Proof. vm_compute. reflexivity. Qed.

Example listKV_out_of_fuel :
  listKV_run 1 (batch_lister 2 true sample_store) (kv_get sample_store) "post:"
  = None.
Proof. vm_compute. reflexivity. Qed.

Example feed_GET_sample :
  feed_GET one_page_lister 1 sample_store =
  Some [VPost (sample_item 9 "c"); VPost (sample_item 5 "a");
        VPost (sample_item 3 "b"); VPost (sample_item 1 "d")].
Proof. vm_compute. reflexivity. Qed.

(** C4 (amended).  For a record with a caller-supplied non-empty id and
    a caller-supplied non-zero timestamp, appending it twice produces
    the same key and the same stored item both times, and the second
    append leaves the namespace exactly as the first one left it: the
    contents before, with the record written under its key and the set
    [D] of the [count - max] smallest names under ["post:"] removed
    (no name when the count is at most [max] or [max] is [NaN]).  So the
    record is stored, once, under its key unless that key is one of the
    smallest names the trim removes. *)
Theorem posts_POST_retry lister (MAX_POSTS : option string) (body : post_body)
    (ts : Z) (id : string) (now1 now2 : Z) (uuid1 uuid2 : string)
    (m : gmap string value) :
  lists_prefix lister ->
  body_timestamp body = Some ts -> ts <> 0 ->
  body_id body = Some id -> JS.truthy_string id = true ->
  JS.truthy_string (default "" (body_image_url body)) = true ->
  let key := postKey ts id uuid1 in
  let item := post_item_of body now1 in
  exists (fuel0 : nat) (D : gset string) (m1 : gmap string value),
    postKey (post_ts body now2) (post_id body) uuid2 =
      postKey (post_ts body now1) (post_id body) uuid1 /\
    postKey (post_ts body now1) (post_id body) uuid1 = key /\
    post_item_of body now2 = item /\
    (forall fuel, (fuel0 <= fuel)%nat ->
       posts_POST lister no_failure fuel MAX_POSTS true (Some body) now1 uuid1 m
       = Some (m1, OkKey key) /\
       posts_POST lister no_failure fuel MAX_POSTS true (Some body) now2 uuid2 m1
       = Some (m1, OkKey key)) /\
    D ⊆ {[key]} ∪ names_under "post:" m /\
    size D = match max_posts MAX_POSTS with
             | Some K => (size ({[key]} ∪ names_under "post:" m) - Z.to_nat K)%nat
             | None => 0%nat
             end /\
    (forall d k, d ∈ D -> k ∈ {[key]} ∪ names_under "post:" m -> k ∉ D ->
                 String.ltb d k = true) /\
    (forall k, m1 !! k = if decide (k ∈ D) then None
                         else <[key := VPost item]> m !! k) /\
    m1 !! key = (if decide (key ∈ D) then None else Some (VPost item)).
Proof.
  intros Hl Hts Hnz Hid Htruthy Himg key item.
  assert (forall now, post_ts body now = ts) as Hpts.
  { intros now. unfold post_ts. rewrite Hts.
    by destruct (Z.eqb_spec ts 0). }
  assert (post_id body = id) as Hpid by (unfold post_id; by rewrite Hid).
  assert (forall uuid, postKey ts id uuid = key) as Hkey.
  { intros uuid. unfold key, postKey. by rewrite Htruthy. }
  assert (forall now, post_item_of body now = item) as Hitem.
  { intros now. unfold item, post_item_of. by rewrite !Hpts. }
  destruct (append_twice lister m key item (max_posts MAX_POSTS) Hl
              (postKey_startsWith _ _ _))
    as (fuel0 & D & m1 & Hrun & Hsub & Hm1 & Hsize & Hord).
  exists fuel0, D, m1.
  split; [by rewrite !Hpts, Hpid, !Hkey|].
  split; [by rewrite !Hpts, Hpid, !Hkey|].
  split; [by apply Hitem|].
  split; [|split; [done|split; [done|split; [done|split; [done|]]]]].
  - intros fuel Hfuel. destruct (Hrun fuel Hfuel) as [Hrun1 Hrun2].
    unfold posts_POST. rewrite Himg. cbn [negb]. cbv zeta.
    by rewrite !Hpts, Hpid, !Hkey, !Hitem, Hrun1, Hrun2.
  - rewrite Hm1. case_decide; [done|]. apply lookup_insert_eq.
Qed.

Lemma posts_POST_retry_witness :
  lists_prefix one_page_lister /\
  body_timestamp (sample_body 5 "a") = Some 5 /\ 5 <> 0 /\
  body_id (sample_body 5 "a") = Some "a" /\ JS.truthy_string "a" = true /\
  JS.truthy_string (default "" (body_image_url (sample_body 5 "a"))) = true /\
  exists (fuel0 : nat) (D : gset string) (m1 : gmap string value),
    postKey (post_ts (sample_body 5 "a") 2000) (post_id (sample_body 5 "a")) "u2" =
      postKey (post_ts (sample_body 5 "a") 1000) (post_id (sample_body 5 "a")) "u1" /\
    postKey (post_ts (sample_body 5 "a") 1000) (post_id (sample_body 5 "a")) "u1"
    = postKey 5 "a" "u1" /\
    post_item_of (sample_body 5 "a") 2000 = post_item_of (sample_body 5 "a") 1000 /\
    (forall fuel, (fuel0 <= fuel)%nat ->
       posts_POST one_page_lister no_failure fuel (Some "2") true
         (Some (sample_body 5 "a")) 1000 "u1" stats_store
       = Some (m1, OkKey (postKey 5 "a" "u1")) /\
       posts_POST one_page_lister no_failure fuel (Some "2") true
         (Some (sample_body 5 "a")) 2000 "u2" m1
       = Some (m1, OkKey (postKey 5 "a" "u1"))) /\
    D ⊆ {[postKey 5 "a" "u1"]} ∪ names_under "post:" stats_store /\
    size D = match max_posts (Some "2") with
             | Some K => (size ({[postKey 5 "a" "u1"]}
                                ∪ names_under "post:" stats_store)
                          - Z.to_nat K)%nat
             | None => 0%nat
             end /\
    (forall d k, d ∈ D ->
       k ∈ {[postKey 5 "a" "u1"]} ∪ names_under "post:" stats_store ->
       k ∉ D -> String.ltb d k = true) /\
    (forall k, m1 !! k =
       if decide (k ∈ D) then None
       else <[postKey 5 "a" "u1" :=
                VPost (post_item_of (sample_body 5 "a") 1000)]> stats_store !! k) /\
    m1 !! postKey 5 "a" "u1" =
      (if decide (postKey 5 "a" "u1" ∈ D) then None
       else Some (VPost (post_item_of (sample_body 5 "a") 1000))).
Proof.
  split; [apply one_page_lister_lists_prefix|].
  split; [reflexivity|]. split; [lia|]. split; [reflexivity|].
  split; [reflexivity|]. split; [reflexivity|].
  apply (posts_POST_retry one_page_lister (Some "2") (sample_body 5 "a") 5 "a"
           1000 2000 "u1" "u2" stats_store);
    [apply one_page_lister_lists_prefix|reflexivity|lia|reflexivity..].
Defined.

(** C4 as stated fails in two ways.  A record that carries an id and the
    timestamp 0 takes the current time at each append, so the retry is
    stored under a second key and two records are left.  And a record
    older than the posts the bound keeps is removed by the trim of its
    own append: with the bound 1 and posts at 5 and 9 stored, the record
    at 3 is appended twice and is stored under its key after neither
    append, so no record is left of it. *)
Lemma posts_POST_retry_not_once :
  (posts_POST one_page_lister no_failure 1 None true
     (Some (sample_body 0 "a")) 1000 "" ∅
   = Some (retry_store_1, OkKey "post:0000000001000:a") /\
   posts_POST one_page_lister no_failure 1 None true
     (Some (sample_body 0 "a")) 2000 "" retry_store_1
   = Some (retry_store_2, OkKey "post:0000000002000:a") /\
   size (names_under "post:" retry_store_2) = 2%nat) /\
  (posts_POST one_page_lister no_failure 1 (Some "1") true
     (Some (sample_body 3 "b")) 1000 "" two_posts
   = Some (trimmed_store, OkKey "post:0000000000003:b") /\
   posts_POST one_page_lister no_failure 1 (Some "1") true
     (Some (sample_body 3 "b")) 2000 "" trimmed_store
   = Some (trimmed_store, OkKey "post:0000000000003:b") /\
   trimmed_store !! "post:0000000000003:b" = None).
Proof. repeat split; vm_compute; reflexivity. Qed.

(** C9 (amended).  Whichever deletes fail, [POST /posts] has no step that
    undoes its write: after the request, rejected or not, the new record
    is stored under its key unless that key itself is one of the oldest
    names the trim picked for deletion and its delete succeeded.  The
    request is rejected exactly when one of the picked deletes fails. *)
Theorem posts_POST_not_rolled_back lister delete_fails
    (MAX_POSTS : option string) (r : post_request) (m : gmap string value) :
  lists_prefix lister ->
  req_valid r ->
  exists (fuel0 : nat) (names : list string),
    NoDup names /\
    (forall k, k ∈ names <->
       k ∈ names_under "post:" (kv_put m (req_key r) (VPost (req_item r)))) /\
    forall fuel, (fuel0 <= fuel)%nat ->
    exists (m' : gmap string value) (resp : response),
      posts_POST lister delete_fails fuel MAX_POSTS true (Some (req_body r))
        (req_now r) (req_uuid r) m = Some (m', resp) /\
      (resp = Thrown <->
       exists t, t ∈ trim_targets names (max_posts MAX_POSTS) /\
                 delete_fails t = true) /\
      (resp = Thrown \/ resp = OkKey (req_key r)) /\
      m' !! req_key r =
        if decide (req_key r ∈ trim_targets names (max_posts MAX_POSTS) /\
                   delete_fails (req_key r) = false)
        then None else Some (VPost (req_item r)).
Proof.
  intros Hl Hvalid.
  destruct (append_spec lister delete_fails m (req_key r) (req_item r)
              (max_posts MAX_POSTS) Hl) as (fuel0 & names & Hnd & Hnames & Hrun).
  exists fuel0, names. split; [done|]. split; [done|].
  intros fuel Hfuel. rewrite posts_POST_append, (Hrun fuel Hfuel) by done.
  cbv zeta. eexists _, _. split; [done|].
  pose proof (delete_all_status delete_fails
                (trim_targets names (max_posts MAX_POSTS))
                (kv_put m (req_key r) (VPost (req_item r)))) as Hst.
  split; [|split].
  - destruct (delete_all delete_fails _ _).2 eqn:E.
    + split; [done|]. intros (t & Ht & Hf).
      rewrite (proj1 Hst eq_refl t Ht) in Hf. done.
    + split; [|done]. intros _.
      destruct (existsb delete_fails (trim_targets names (max_posts MAX_POSTS)))
        eqn:Hex.
      * apply existsb_exists in Hex as (t & Ht%list_elem_of_In & Hf). eauto.
      * unfold delete_all in E. simpl in E. by rewrite Hex in E.
  - destruct (delete_all delete_fails _ _).2; [by right|by left].
  - rewrite delete_all_lookup. unfold kv_put.
    case_decide; [done|]. apply lookup_insert_eq.
Qed.

Lemma posts_POST_not_rolled_back_witness :
  lists_prefix one_page_lister /\
  req_valid (sample_request 7 "e") /\
  exists (fuel0 : nat) (names : list string),
    NoDup names /\
    (forall k, k ∈ names <->
       k ∈ names_under "post:"
             (kv_put two_posts (req_key (sample_request 7 "e"))
                (VPost (req_item (sample_request 7 "e"))))) /\
    forall fuel, (fuel0 <= fuel)%nat ->
    exists (m' : gmap string value) (resp : response),
      posts_POST one_page_lister (fails_on (postKey 5 "a" "")) fuel (Some "1")
        true (Some (req_body (sample_request 7 "e")))
        (req_now (sample_request 7 "e")) (req_uuid (sample_request 7 "e"))
        two_posts = Some (m', resp) /\
      (resp = Thrown <->
       exists t, t ∈ trim_targets names (max_posts (Some "1")) /\
                 fails_on (postKey 5 "a" "") t = true) /\
      (resp = Thrown \/ resp = OkKey (req_key (sample_request 7 "e"))) /\
      m' !! req_key (sample_request 7 "e") =
        if decide (req_key (sample_request 7 "e")
                     ∈ trim_targets names (max_posts (Some "1")) /\
                   fails_on (postKey 5 "a" "")
                     (req_key (sample_request 7 "e")) = false)
        then None else Some (VPost (req_item (sample_request 7 "e"))).
Proof.
  split; [apply one_page_lister_lists_prefix|]. split; [reflexivity|].
  apply (posts_POST_not_rolled_back one_page_lister (fails_on (postKey 5 "a" ""))
           (Some "1") (sample_request 7 "e") two_posts);
    [apply one_page_lister_lists_prefix|reflexivity].
Defined.

(** C9 as stated fails when the new record is itself among the oldest:
    with the bound 1 and posts at 5 and 9 stored, the post at 3 is
    written, the trim picks the posts at 3 and 5, the delete of the post
    at 5 fails and rejects the request, and the post at 3 is gone. *)
Lemma posts_POST_trim_removes_new_record :
  posts_POST one_page_lister (fails_on (postKey 5 "a" "")) 1 (Some "1") true
    (Some (sample_body 3 "b")) 1700000000000 "" two_posts
  = Some (two_posts, Thrown) /\
  two_posts !! postKey 3 "b" "" = None.
Proof. split; vm_compute; reflexivity. Qed.

Example posts_POST_failed_trim_keeps_new_record :
  exists m' : gmap string value,
    posts_POST one_page_lister (fails_on (postKey 5 "a" "")) 1 (Some "1") true
      (Some (sample_body 11 "e")) 1700000000000 "" two_posts
    = Some (m', Thrown) /\
    m' !! postKey 11 "e" "" = Some (VPost (sample_item 11 "e")).
Proof.
  eexists. split; [vm_compute; reflexivity|]. vm_compute. reflexivity.
Qed.

(** C6.  The handler passes [parseInt(env.MAX_POSTS || "50", 10)] to
    [trimPosts] as it is.  With [MAX_POSTS = "-1"] the bound is -1 and
    the request deletes every post, the one it has just written
    included, where the default bound keeps them all; with a
    [MAX_POSTS] that is not a number the bound is [NaN]. *)
Theorem posts_POST_negative_MAX_POSTS :
  max_posts (Some "-1") = Some (-1) /\
  max_posts (Some "many") = None /\
  max_posts None = Some 50 /\
  posts_POST one_page_lister no_failure 1 (Some "-1") true
    (Some (sample_body 11 "e")) 1700000000000 "" two_posts
  = Some (∅, OkKey (postKey 11 "e" "")) /\
  posts_POST one_page_lister no_failure 1 None true
    (Some (sample_body 11 "e")) 1700000000000 "" two_posts
  = Some (kv_put two_posts (postKey 11 "e" "") (VPost (sample_item 11 "e")),
          OkKey (postKey 11 "e" "")).
Proof. repeat split; vm_compute; reflexivity. Qed.

(** * Further properties of the handler *)

(** ** Strings *)

Lemma truthy_string_nonempty (s : string) :
  JS.truthy_string s = true <-> s <> "".
Proof. by destruct s. Qed.

Lemma startsWith_slice (h p : string) :
  JS.startsWith h p = true -> h = p +:+ Str.slice_from (String.length p) h.
Proof.
  unfold JS.startsWith. revert h. induction p as [|c p IH]; intros h Hp.
  - done.
  - destruct h as [|d h]; [done|]. simpl in Hp.
    destruct (ascii_dec c d) as [-> | ?]; [|done].
    rewrite string_app_cons. simpl. f_equal. by apply IH.
Qed.

Lemma slice_from_app (p t : string) :
  Str.slice_from (String.length p) (p +:+ t) = t.
Proof.
  induction p as [|c p IH]; [by destruct t|].
  rewrite string_app_cons. simpl. apply IH.
Qed.

(** ** Authorisation *)

(** The token a request carries, when its header has the bearer form. *)
Lemma bearer_token (req : request) (t : string) :
  t <> "" ->
  (bearer req = t <-> rq_authorization req = Some ("Bearer " +:+ t)).
Proof.
  intros Ht. unfold bearer. split.
  - destruct (JS.startsWith (default "" (rq_authorization req)) "Bearer ")
      eqn:Hsw; [|by intros <-].
    apply startsWith_slice in Hsw. intros Hslice.
    change (String.length "Bearer ") with 7%nat in Hsw. rewrite Hslice in Hsw.
    destruct (rq_authorization req) as [h|]; simpl in Hsw; [by subst|].
    done.
  - intros ->. simpl default.
    rewrite startsWith_app. apply (slice_from_app "Bearer " t).
Qed.

Lemma isAuthed_of_token (env : environment) (req : request) (t : string) :
  t <> "" ->
  rq_authorization req = Some ("Bearer " +:+ t) ->
  env_ADMIN_TOKEN env = Some t \/ env_UPLOAD_KEY env = Some t ->
  isAuthed env req = true.
Proof.
  intros Ht Hh Hsecret. unfold isAuthed.
  apply (bearer_token req t Ht) in Hh. rewrite Hh.
  apply truthy_string_nonempty in Ht. rewrite Ht. simpl.
  apply orb_true_iff.
  destruct Hsecret as [-> | ->]; [left|right];
    by rewrite Ht, String.eqb_refl.
Qed.

(** X1.  A request is authorised exactly when its authorization header
    is ["Bearer "] followed by a non-empty token that equals the
    configured admin token or the configured upload key; an unset or
    empty secret authorises nobody. *)
Theorem isAuthed_iff (env : environment) (req : request) :
  isAuthed env req = true <->
  exists t : string,
    t <> "" /\
    rq_authorization req = Some ("Bearer " +:+ t) /\
    (env_ADMIN_TOKEN env = Some t \/ env_UPLOAD_KEY env = Some t).
Proof.
  unfold isAuthed. split.
  - destruct (JS.truthy_string (bearer req)) eqn:Ht; [|done]. simpl.
    apply truthy_string_nonempty in Ht.
    intros Hor. exists (bearer req). split; [done|].
    split; [by apply bearer_token|].
    apply orb_true_iff in Hor as [Ha | Hu].
    + left. destruct (env_ADMIN_TOKEN env) as [a|]; [|done].
      apply andb_true_iff in Ha as [_ ->%String.eqb_eq]. done.
    + right. destruct (env_UPLOAD_KEY env) as [u|]; [|done].
      apply andb_true_iff in Hu as [_ ->%String.eqb_eq]. done.
  - intros (t & Ht & Hh & Hsecret). by apply (isAuthed_of_token env req t).
Qed.

(** X2.  The earlier worker authorises a request exactly when the header
    is ["Bearer "] followed by the non-empty admin token; every request it
    authorises, the present worker authorises too. *)
Theorem worker_isAuthed_iff (env : environment) (req : request) :
  (worker_isAuthed env req = true <->
   exists t : string,
     t <> "" /\ rq_authorization req = Some ("Bearer " +:+ t) /\
     env_ADMIN_TOKEN env = Some t) /\
  (worker_isAuthed env req = true -> isAuthed env req = true).
Proof.
  assert (worker_isAuthed env req = true <->
          exists t : string,
            t <> "" /\ rq_authorization req = Some ("Bearer " +:+ t) /\
            env_ADMIN_TOKEN env = Some t) as Hiff.
  { unfold worker_isAuthed. split.
    - destruct (JS.startsWith (default "" (rq_authorization req)) "Bearer ")
        eqn:Hsw; [|done].
      intros [Ht Ha]%andb_true_iff.
      apply truthy_string_nonempty in Ht.
      exists (Str.slice_from 7 (default "" (rq_authorization req))).
      split; [done|]. split.
      + apply startsWith_slice in Hsw.
        destruct (rq_authorization req) as [h|]; [|done].
        simpl in *. by f_equal.
      + destruct (env_ADMIN_TOKEN env) as [a|]; [|done].
        apply andb_true_iff in Ha as [_ ->%String.eqb_eq]. done.
    - intros (t & Ht & -> & ->). simpl default.
      rewrite startsWith_app.
      rewrite (slice_from_app "Bearer " t : Str.slice_from 7 _ = _).
      apply truthy_string_nonempty in Ht.
      by rewrite Ht, String.eqb_refl. }
  split; [done|].
  intros (t & Ht & Hh & Ha)%Hiff.
  apply (isAuthed_of_token env req t); auto.
Qed.

(** ** Paths *)

Lemma strip_trailing_slashes_app_slash (s : string) :
  Str.strip_trailing_slashes (s +:+ "/") = Str.strip_trailing_slashes s.
Proof.
  induction s as [|c s IH]; [done|].
  rewrite string_app_cons. simpl. by rewrite IH.
Qed.

(** A string whose last character is not a slash is left as it is. *)
Lemma strip_trailing_slashes_id (s : string) (c : ascii) :
  c <> "/"%char ->
  Str.strip_trailing_slashes (s +:+ String c "") = s +:+ String c "".
Proof.
  intros Hc.
  assert (Str.strip_trailing_slashes (String c "") = String c "") as Hlast.
  { simpl. by destruct (Ascii.eqb_spec c "/"). }
  induction s as [|d s IH]; [done|].
  rewrite string_app_cons. simpl Str.strip_trailing_slashes at 1.
  rewrite IH. by destruct s.
Qed.

(** X3.  Slashes at the end of the path do not matter: a request to
    [p ++ "/"] is handled as the request to [p], for every path, method
    and state. *)
Theorem fetch_trailing_slash lister delete_fails (fuel : nat)
    (env : environment) (req : request) (now : Z) (uuid : string) (w : world) :
  fetch lister delete_fails fuel env
    (set_pathname req (rq_pathname req +:+ "/")) now uuid w =
  fetch lister delete_fails fuel env req now uuid w.
Proof.
  unfold fetch. simpl rq_pathname. simpl rq_method.
  unfold normalize_path. rewrite strip_trailing_slashes_app_slash.
  by destruct req.
Qed.

(** ** What a request can change *)

Lemma image_route_unchanged (env : environment) (req : request) (path : string)
    (w w' : world) (out : outcome) :
  image_route env req path w = (w', out) ->
  isAuthed env req = false \/ rq_method req <> "DELETE" ->
  String.eqb (rq_method req) "GET" || String.eqb (rq_method req) "DELETE" = true ->
  w' = w.
Proof.
  unfold image_route. intros Hrun Hcond Hmethod.
  destruct (w_IMAGES w) as [images|]; [|by simplify_eq].
  destruct (String.eqb_spec (rq_method req) "GET") as [Hget | Hnot].
  - destruct (images !! _); by simplify_eq.
  - simpl in Hmethod. apply String.eqb_eq in Hmethod.
    destruct Hcond as [Hno | Hnd]; [|done].
    rewrite Hno in Hrun. by simplify_eq/=.
Qed.

Lemma upload_route_unchanged (env : environment) (req : request) (uuid : string)
    (w w' : world) (out : outcome) :
  upload_route env req uuid w = (w', out) ->
  isAuthed env req = false ->
  w' = w.
Proof. unfold upload_route. intros Hrun Hno. rewrite Hno in Hrun. by simplify_eq/=. Qed.

Lemma stats_route_unchanged (env : environment) (req : request) (now : Z)
    (w w' : world) (out : outcome) :
  stats_route env req now w = (w', out) ->
  isAuthed env req = false ->
  w' = w.
Proof. unfold stats_route. intros Hrun Hno. rewrite Hno in Hrun. by simplify_eq/=. Qed.

Lemma posts_route_unchanged lister delete_fails (fuel : nat) (env : environment)
    (req : request) (now : Z) (uuid : string) (w w' : world) (out : outcome) :
  posts_route lister delete_fails fuel env req now uuid w = Some (w', out) ->
  isAuthed env req = false ->
  w' = w.
Proof.
  unfold posts_route, posts_POST. intros Hrun Hno. rewrite Hno in Hrun.
  simpl in Hrun. destruct w. by simplify_eq.
Qed.

(** X4.  Only an authorised [POST] or [DELETE] can change the stored
    posts, the stats document or the images: every other request that is
    answered leaves the state as it was. *)
Theorem fetch_unchanged lister delete_fails (fuel : nat) (env : environment)
    (req : request) (now : Z) (uuid : string) (w w' : world) (out : outcome) :
  fetch lister delete_fails fuel env req now uuid w = Some (w', out) ->
  isAuthed env req = false \/
  (rq_method req <> "POST" /\ rq_method req <> "DELETE") ->
  w' = w.
Proof.
  unfold fetch. intros Hrun Hcond.
  destruct (String.eqb (rq_method req) "OPTIONS"); [by simplify_eq|].
  destruct (_ || _); [by simplify_eq|].
  destruct (JS.startsWith _ "/i/" && _) eqn:Himg.
  { apply andb_true_iff in Himg as [_ Hmethod].
    simplify_eq. destruct (image_route env req _ w) as [w1 o1] eqn:E.
    simplify_eq. eapply image_route_unchanged; [done| |done].
    destruct Hcond as [?|[_ ?]]; auto. }
  destruct (String.eqb _ "/upload" && _) eqn:Hup.
  { apply andb_true_iff in Hup as [_ Hpost%String.eqb_eq].
    simplify_eq. destruct (upload_route env req uuid w) as [w1 o1] eqn:E.
    simplify_eq. eapply upload_route_unchanged; [done|].
    destruct Hcond as [?|[? _]]; done. }
  destruct (String.eqb _ "/feed" && _).
  { destruct (feed_GET _ _ _); by simplify_eq/=. }
  destruct (String.eqb _ "/stats" && String.eqb _ "GET").
  { destruct (stats_GET _ _ _ _ _); by simplify_eq/=. }
  destruct (String.eqb _ "/stats" && _) eqn:Hst.
  { apply andb_true_iff in Hst as [_ Hpost%String.eqb_eq].
    simplify_eq. destruct (stats_route env req now w) as [w1 o1] eqn:E.
    simplify_eq. eapply stats_route_unchanged; [done|].
    destruct Hcond as [?|[? _]]; done. }
  destruct (String.eqb _ "/posts" && _) eqn:Hpo; [|by simplify_eq].
  apply andb_true_iff in Hpo as [_ Hpost%String.eqb_eq].
  eapply posts_route_unchanged; [done|].
  destruct Hcond as [?|[? _]]; done.
Qed.

Lemma fetch_unchanged_witness :
  fetch one_page_lister no_failure 0 sample_env
    (sample_req "POST" "/posts" (Some "Bearer wrong")) 0 "" sample_world
  = Some (sample_world, Answer (bad_response sample_env "unauthorized" 401)) /\
  (isAuthed sample_env (sample_req "POST" "/posts" (Some "Bearer wrong")) = false
   \/ (rq_method (sample_req "POST" "/posts" (Some "Bearer wrong")) <> "POST" /\
       rq_method (sample_req "POST" "/posts" (Some "Bearer wrong")) <> "DELETE"))
  /\ sample_world = sample_world.
Proof.
  assert (fetch one_page_lister no_failure 0 sample_env
            (sample_req "POST" "/posts" (Some "Bearer wrong")) 0 "" sample_world
          = Some (sample_world,
                  Answer (bad_response sample_env "unauthorized" 401))) as Hrun
    by (vm_compute; reflexivity).
  split; [exact Hrun|]. split; [left; reflexivity|].
  apply (fetch_unchanged one_page_lister no_failure 0 sample_env
           (sample_req "POST" "/posts" (Some "Bearer wrong")) 0 "" sample_world
           sample_world _ Hrun).
  left. reflexivity.
Defined.

(** ** The shape of the answers *)

Lemma posts_POST_response lister delete_fails fuel MAX_POSTS authed body now
    uuid (m m' : gmap string value) (r : response) :
  posts_POST lister delete_fails fuel MAX_POSTS authed body now uuid m
  = Some (m', r) ->
  (exists msg code, r = Bad msg code /\ (code = 400 \/ code = 401)) \/
  (exists key, r = OkKey key) \/ r = Thrown.
Proof.
  unfold posts_POST, append. intros Hrun.
  destruct authed; simpl in Hrun; [|simplify_eq; left; eauto].
  destruct body as [body|]; [|simplify_eq; left; eauto].
  destruct (JS.truthy_string _); simpl in Hrun; [|simplify_eq; left; eauto].
  destruct (trimPosts _ _ _ _ _ _) as [[m1 st]|]; simplify_eq/=.
  destruct st; eauto.
Qed.

Lemma of_response_answer (env : environment) (r : response) (a : http_response) :
  (exists msg code, r = Bad msg code /\ (code = 400 \/ code = 401)) \/
  (exists key, r = OkKey key) \/ r = OkPlain \/ r = Thrown ->
  of_response env r = Answer a ->
  fetch_answer env a.
Proof.
  intros [(msg & code & -> & Hcode) | [(key & ->) | [-> | ->]]] Ha;
    simplify_eq/=.
  - apply answer_bad. naive_solver.
  - apply answer_json; [done|by left].
  - apply answer_json; [done|by left].
Qed.

Lemma fetch_answer_shape lister delete_fails (fuel : nat) (env : environment)
    (req : request) (now : Z) (uuid : string) (w w' : world) (a : http_response) :
  fetch lister delete_fails fuel env req now uuid w = Some (w', Answer a) ->
  fetch_answer env a.
Proof.
  unfold fetch. intros Hrun.
  destruct (String.eqb (rq_method req) "OPTIONS").
  { simplify_eq. apply answer_preflight. }
  destruct (_ || _).
  { simplify_eq. apply answer_json; [done|by left]. }
  destruct (JS.startsWith _ "/i/" && _).
  { simplify_eq. unfold image_route in *.
    destruct (w_IMAGES w) as [images|];
      [|simplify_eq; apply answer_bad; auto].
    destruct (String.eqb (rq_method req) "GET").
    - destruct (images !! _) as [obj|]; simplify_eq.
      + apply answer_image.
      + apply answer_missing.
    - destruct (isAuthed env req); simplify_eq/=.
      + apply answer_json; [done|by left].
      + apply answer_bad; auto. }
  destruct (String.eqb _ "/upload" && _).
  { simplify_eq. unfold upload_route, store_upload in *.
    destruct (isAuthed env req); simpl in *;
      [|simplify_eq; apply answer_bad; auto].
    destruct (w_IMAGES w) as [images|];
      [|simplify_eq; apply answer_bad; auto].
    destruct (JS.startsWith _ "multipart/form-data").
    - destruct (rq_form req) as [| |f]; simplify_eq.
      + apply answer_bad; auto.
      + destruct (kind_of_name _). simplify_eq.
        apply answer_json; [done|by left].
    - destruct (kind_of_type _). simplify_eq.
      apply answer_json; [done|by left]. }
  destruct (String.eqb _ "/feed" && _).
  { destruct (feed_GET _ _ _); simplify_eq/=.
    apply answer_json; [done|right; eauto]. }
  destruct (String.eqb _ "/stats" && String.eqb _ "GET").
  { unfold stats_GET in Hrun.
    destruct (truthy _); simplify_eq/=.
    - apply answer_json; [done|right; eauto].
    - destruct (listKV _ _ _ _); simplify_eq/=.
      apply answer_json; [done|right; eauto]. }
  destruct (String.eqb _ "/stats" && _).
  { simplify_eq. unfold stats_route, stats_POST in *.
    destruct (isAuthed env req); simpl in *;
      [|simplify_eq; apply answer_bad; auto].
    destruct (rq_json req); simplify_eq/=.
    - apply answer_bad; auto.
    - apply answer_json; [done|by left]. }
  destruct (String.eqb _ "/posts" && _);
    [|simplify_eq; apply answer_bad; auto].
  unfold posts_route in Hrun.
  destruct (posts_POST _ _ _ _ _ _ _ _ _) as [[m1 r]|] eqn:E; simplify_eq/=.
  apply posts_POST_response in E.
  eapply of_response_answer; [|done]. naive_solver.
Qed.

Lemma cors_headers_keys (env : environment) (k v : string) :
  cors_headers env !! k = Some v ->
  k = "Access-Control-Allow-Origin" \/ k = "Access-Control-Allow-Methods" \/
  k = "Access-Control-Allow-Headers" \/ k = "Vary".
Proof.
  unfold cors_headers. rewrite !lookup_insert_Some, lookup_empty.
  naive_solver.
Qed.

Lemma json_response_cors (env : environment) (d : json_doc)
    (extra : gmap string string) (k v : string) :
  (forall k' v', cors_headers env !! k' = Some v' -> extra !! k' = None) ->
  cors_headers env !! k = Some v ->
  headers (json_response env d extra) !! k = Some v.
Proof.
  intros Hextra Hk. simpl.
  rewrite lookup_union_r by by eapply Hextra.
  by apply lookup_union_Some_l.
Qed.

(** X5.  Every answer of the handler carries the four CORS headers, with
    the configured origin or ["*"] as the allowed origin. *)
Theorem fetch_cors lister delete_fails (fuel : nat) (env : environment)
    (req : request) (now : Z) (uuid : string) (w w' : world) (a : http_response) :
  fetch lister delete_fails fuel env req now uuid w = Some (w', Answer a) ->
  (forall k v, cors_headers env !! k = Some v -> headers a !! k = Some v) /\
  headers a !! "Access-Control-Allow-Origin"
  = Some (Str.or_else (env_CORS_ORIGIN env) "*") /\
  headers a !! "Access-Control-Allow-Methods" = Some "GET,POST,DELETE,OPTIONS" /\
  headers a !! "Access-Control-Allow-Headers"
  = Some "authorization,content-type" /\
  headers a !! "Vary" = Some "Origin".
Proof.
  intros Hrun%fetch_answer_shape.
  assert (forall k v, cors_headers env !! k = Some v -> headers a !! k = Some v)
    as Hall.
  { intros k v Hk. destruct Hrun as [|d extra _ Hextra|msg code _| |obj name].
    - done.
    - apply json_response_cors; [|done].
      intros k' v' Hk'%cors_headers_keys.
      destruct Hextra as [-> | [c ->]]; [done|].
      apply lookup_singleton_ne. naive_solver.
    - apply json_response_cors; [|done].
      intros k' v' Hk'%cors_headers_keys.
      apply lookup_singleton_ne. naive_solver.
    - done.
    - simpl. by apply lookup_union_Some_l. }
  split; [done|]. repeat split; by apply Hall.
Qed.

Lemma fetch_cors_witness :
  fetch one_page_lister no_failure 0 sample_env
    (sample_req "POST" "/posts" (Some "Bearer wrong")) 0 "" sample_world
  = Some (sample_world, Answer (bad_response sample_env "unauthorized" 401)) /\
  (forall k v, cors_headers sample_env !! k = Some v ->
     headers (bad_response sample_env "unauthorized" 401) !! k = Some v) /\
  headers (bad_response sample_env "unauthorized" 401)
    !! "Access-Control-Allow-Origin"
  = Some (Str.or_else (env_CORS_ORIGIN sample_env) "*") /\
  headers (bad_response sample_env "unauthorized" 401)
    !! "Access-Control-Allow-Methods" = Some "GET,POST,DELETE,OPTIONS" /\
  headers (bad_response sample_env "unauthorized" 401)
    !! "Access-Control-Allow-Headers" = Some "authorization,content-type" /\
  headers (bad_response sample_env "unauthorized" 401) !! "Vary" = Some "Origin".
Proof.
  assert (fetch one_page_lister no_failure 0 sample_env
            (sample_req "POST" "/posts" (Some "Bearer wrong")) 0 "" sample_world
          = Some (sample_world,
                  Answer (bad_response sample_env "unauthorized" 401))) as Hrun
    by (vm_compute; reflexivity).
  split; [exact Hrun|].
  exact (fetch_cors one_page_lister no_failure 0 sample_env
           (sample_req "POST" "/posts" (Some "Bearer wrong")) 0 "" sample_world
           sample_world _ Hrun).
Defined.

(** X6.  The handler sets one status other than 200: the 404 of an image
    that is not stored.  Every error document of [bad] (unauthorised,
    invalid or unknown requests) is answered with the status 200, its
    code 400, 401, 404 or 500 going into a header named [status]. *)
Theorem fetch_status lister delete_fails (fuel : nat) (env : environment)
    (req : request) (now : Z) (uuid : string) (w w' : world) (a : http_response) :
  fetch lister delete_fails fuel env req now uuid w = Some (w', Answer a) ->
  (status a = 200 \/
   (status a = 404 /\ resp_body a = BodyText "Not found")) /\
  (forall msg, resp_body a = BodyJson (DError msg) ->
     status a = 200 /\
     exists code, (code = 400 \/ code = 401 \/ code = 404 \/ code = 500) /\
                  headers a !! "status" = Some (JS.Number_toString code)).
Proof.
  intros Hrun%fetch_answer_shape.
  destruct Hrun as [|d extra Hd _|msg code Hcode| |obj name]; simpl.
  - split; [by left|done].
  - split; [by left|]. intros msg [=Heq]. by destruct (Hd msg).
  - split; [by left|]. intros _ _. split; [done|]. exists code.
    split; [done|]. apply lookup_union_Some_l, lookup_singleton_eq.
  - split; [by right|done].
  - split; [by left|done].
Qed.

Lemma fetch_status_witness :
  fetch one_page_lister no_failure 0 sample_env
    (sample_req "POST" "/posts" (Some "Bearer wrong")) 0 "" sample_world
  = Some (sample_world, Answer (bad_response sample_env "unauthorized" 401)) /\
  (status (bad_response sample_env "unauthorized" 401) = 200 \/
   (status (bad_response sample_env "unauthorized" 401) = 404 /\
    resp_body (bad_response sample_env "unauthorized" 401)
    = BodyText "Not found")) /\
  (forall msg,
     resp_body (bad_response sample_env "unauthorized" 401)
     = BodyJson (DError msg) ->
     status (bad_response sample_env "unauthorized" 401) = 200 /\
     exists code, (code = 400 \/ code = 401 \/ code = 404 \/ code = 500) /\
                  headers (bad_response sample_env "unauthorized" 401) !! "status"
                  = Some (JS.Number_toString code)).
Proof.
  assert (fetch one_page_lister no_failure 0 sample_env
            (sample_req "POST" "/posts" (Some "Bearer wrong")) 0 "" sample_world
          = Some (sample_world,
                  Answer (bad_response sample_env "unauthorized" 401))) as Hrun
    by (vm_compute; reflexivity).
  split; [exact Hrun|].
  exact (fetch_status one_page_lister no_failure 0 sample_env
           (sample_req "POST" "/posts" (Some "Bearer wrong")) 0 "" sample_world
           sample_world _ Hrun).
Defined.

(** ** Suffixes and letter case *)

Lemma toLowerCase_app (a b : string) :
  Str.toLowerCase (a +:+ b) = Str.toLowerCase a +:+ Str.toLowerCase b.
Proof.
  induction a as [|c a IH]; [done|].
  rewrite string_app_cons. simpl. by rewrite IH.
Qed.

Lemma endsWith_nil (x : string) : Str.endsWith "" x = String.eqb "" x.
Proof. unfold Str.endsWith. apply orb_false_r. Qed.

Lemma endsWith_cons (c : ascii) (s x : string) :
  Str.endsWith (String c s) x = String.eqb (String c s) x || Str.endsWith s x.
Proof. reflexivity. Qed.

Lemma endsWith_iff (s x : string) :
  Str.endsWith s x = true <-> exists a, s = a +:+ x.
Proof.
  induction s as [|c s IH].
  - rewrite endsWith_nil, String.eqb_eq. split.
    + intros <-. by exists "".
    + intros ([|d a] & Ha); [done|]. by rewrite string_app_cons in Ha.
  - rewrite endsWith_cons, orb_true_iff, String.eqb_eq, IH. split.
    + intros [<- | (a & ->)]; [by exists ""|].
      exists (String c a). by rewrite string_app_cons.
    + intros ([|d a] & Ha); [by left|].
      rewrite string_app_cons in Ha. simplify_eq. right. eauto.
Qed.

Lemma endsWith_app (a x : string) : Str.endsWith (a +:+ x) x = true.
Proof. apply endsWith_iff. eauto. Qed.

Lemma string_app_inj_length (a b x y : string) :
  a +:+ x = b +:+ y -> String.length x = String.length y -> x = y.
Proof.
  revert b. induction a as [|c a IH]; intros [|d b] Heq Hlen.
  - done.
  - exfalso. apply (f_equal String.length) in Heq.
    rewrite !string_length_app in Heq. simpl in Heq. lia.
  - exfalso. apply (f_equal String.length) in Heq.
    rewrite !string_length_app in Heq. simpl in Heq. lia.
  - rewrite !string_app_cons in Heq. simplify_eq. by eapply IH.
Qed.

(** The content type [guessType] reads off a name that ends with one of
    the extensions an upload gives. *)
Lemma guessType_extension (id : string) :
  guessType (id +:+ "." +:+ "png") = "image/png" /\
  guessType (id +:+ "." +:+ "webp") = "image/webp" /\
  guessType (id +:+ "." +:+ "jpg") = "image/jpeg".
Proof.
  assert (forall x y z : string,
            String.length y = String.length z -> y <> z ->
            forall p, Str.endsWith (x +:+ p +:+ y) z = false) as Hno.
  { intros x y z Hlen Hne p. apply not_true_is_false.
    intros (a & Ha)%endsWith_iff.
    rewrite <- string_app_assoc in Ha.
    by apply string_app_inj_length in Ha. }
  assert (forall x y z1 z2 : string,
            String.length y = String.length z2 -> y <> z2 ->
            Str.endsWith (x +:+ y) (z1 +:+ z2) = false) as Hno'.
  { intros x y z1 z2 Hlen Hne. apply not_true_is_false.
    intros (a & Ha)%endsWith_iff.
    rewrite <- string_app_assoc in Ha.
    by apply string_app_inj_length in Ha. }
  assert (forall x y z : string,
            (String.length z < String.length y)%nat ->
            String.eqb (x +:+ y) z = false) as Hshort.
  { intros x y z Hlen. apply String.eqb_neq. intros Heq.
    apply (f_equal String.length) in Heq.
    rewrite string_length_app in Heq. lia. }
  assert (forall x y z : string,
            String.length y = String.length z -> y <> z ->
            String.eqb (x +:+ y) z = false) as Hother.
  { intros x y z Hlen Hne. apply String.eqb_neq. intros Heq.
    by apply (string_app_inj_length x "" y z) in Heq. }
  unfold guessType. rewrite !toLowerCase_app.
  change (Str.toLowerCase ".") with ".".
  change (Str.toLowerCase "png") with "png".
  change (Str.toLowerCase "webp") with "webp".
  change (Str.toLowerCase "jpg") with "jpg".
  change ("." +:+ "png") with ".png". change ("." +:+ "webp") with ".webp".
  change ("." +:+ "jpg") with ".jpg".
  set (x := Str.toLowerCase id). split; [|split].
  - by rewrite (endsWith_app x ".png").
  - rewrite (Hno x "webp" ".png" eq_refl ltac:(done) "."
             : Str.endsWith (x +:+ ".webp") ".png" = false).
    rewrite (Hshort x ".webp" "png") by (simpl; lia). simpl.
    by rewrite (endsWith_app x ".webp").
  - rewrite (Hno' x ".jpg" "" ".png" eq_refl ltac:(done)
             : Str.endsWith (x +:+ ".jpg") ".png" = false).
    rewrite (Hshort x ".jpg" "png") by (simpl; lia). simpl.
    rewrite (Hno' x ".jpg" "." "webp" eq_refl ltac:(done)
             : Str.endsWith (x +:+ ".jpg") ".webp" = false).
    rewrite (Hother x ".jpg" "webp" eq_refl ltac:(done)). simpl.
    by rewrite (endsWith_app x ".jpg").
Qed.

(** ** Uploading and serving images *)

Lemma of_response_body (env : environment) (r : response) (a : http_response) :
  of_response env r = Answer a ->
  (exists msg, resp_body a = BodyJson (DError msg)) \/
  (exists key, resp_body a = BodyJson (DOkKey key)) \/
  resp_body a = BodyJson DOk.
Proof. destruct r; intros Ha; simplify_eq/=; eauto. Qed.

(** Only the upload route answers with the document of an upload. *)
Lemma fetch_uploaded_route lister delete_fails (fuel : nat) (env : environment)
    (req : request) (now : Z) (uuid : string) (w w1 : world) (a : http_response)
    (key url ctype : string) :
  fetch lister delete_fails fuel env req now uuid w = Some (w1, Answer a) ->
  resp_body a = BodyJson (DUploaded key url ctype) ->
  upload_route env req uuid w = (w1, Answer a).
Proof.
  unfold fetch. intros Hrun Hbody.
  destruct (String.eqb (rq_method req) "OPTIONS"); [by simplify_eq/=|].
  destruct (_ || _); [by simplify_eq/=|].
  destruct (JS.startsWith _ "/i/" && _).
  { exfalso. simplify_eq. unfold image_route in *.
    destruct (w_IMAGES w) as [images|]; [|by simplify_eq/=].
    destruct (String.eqb (rq_method req) "GET").
    - destruct (images !! _); by simplify_eq/=.
    - destruct (isAuthed env req); by simplify_eq/=. }
  destruct (String.eqb _ "/upload" && _); [by simplify_eq|].
  exfalso.
  destruct (String.eqb _ "/feed" && _).
  { destruct (feed_GET _ _ _); by simplify_eq/=. }
  destruct (String.eqb _ "/stats" && String.eqb _ "GET").
  { unfold stats_GET in Hrun. destruct (truthy _); [by simplify_eq/=|].
    destruct (listKV _ _ _ _); by simplify_eq/=. }
  destruct (String.eqb _ "/stats" && _).
  { simplify_eq. unfold stats_route, stats_POST in *.
    destruct (isAuthed env req); simpl in *; [|by simplify_eq/=].
    destruct (rq_json req); by simplify_eq/=. }
  destruct (String.eqb _ "/posts" && _); [|by simplify_eq/=].
  unfold posts_route in Hrun.
  destruct (posts_POST _ _ _ _ _ _ _ _ _) as [[m1 r]|]; simplify_eq/=.
  match goal with H : of_response _ _ = _ |- _ =>
    apply of_response_body in H as [(? & ?) | [(? & ?) | ?]]; congruence end.
Qed.

Lemma kind_of_name_cases (n : string) :
  kind_of_name n = ("png", "image/png") \/
  kind_of_name n = ("webp", "image/webp") \/
  kind_of_name n = ("jpg", "image/jpeg").
Proof.
  unfold kind_of_name. destruct (Str.endsWith n ".png"); [by left|].
  destruct (Str.endsWith n ".webp"); auto.
Qed.

Lemma kind_of_type_cases (ct : string) :
  kind_of_type ct = ("png", "image/png") \/
  kind_of_type ct = ("webp", "image/webp") \/
  kind_of_type ct = ("jpg", "image/jpeg").
Proof.
  unfold kind_of_type. destruct (Str.includes ct "png"); [by left|].
  destruct (Str.includes ct "webp"); auto.
Qed.

(** A [GET] of [/i/name], for a name that does not end with a slash, is
    answered by the image route. *)
Lemma fetch_image_GET lister delete_fails (fuel : nat) (env : environment)
    (req : request) (now : Z) (uuid : string) (w : world) (name : string) :
  rq_method req = "GET" ->
  rq_pathname req = "/i/" +:+ name ->
  Str.strip_trailing_slashes ("/i/" +:+ name) = "/i/" +:+ name ->
  fetch lister delete_fails fuel env req now uuid w =
  Some (image_route env req ("/i/" +:+ name) w).
Proof.
  intros Hm Hp Hstrip. unfold fetch, normalize_path.
  rewrite Hm, Hp, Hstrip. simpl JS.truthy_string. cbv iota.
  change (String.eqb "GET" "OPTIONS") with false. cbv iota.
  change (String.eqb ("/i/" +:+ name) "/") with false.
  change (String.eqb ("/i/" +:+ name) "/health") with false.
  rewrite (startsWith_app "/i/" name). done.
Qed.

Lemma strip_image_path (id ext : string) :
  ext = "png" \/ ext = "webp" \/ ext = "jpg" ->
  Str.strip_trailing_slashes ("/i/" +:+ id +:+ "." +:+ ext)
  = "/i/" +:+ id +:+ "." +:+ ext.
Proof.
  intros [-> | [-> | ->]].
  - replace ("/i/" +:+ id +:+ "." +:+ "png")
      with (("/i/" +:+ id +:+ ".pn") +:+ "g")
      by (by rewrite !string_app_assoc).
    by apply strip_trailing_slashes_id.
  - replace ("/i/" +:+ id +:+ "." +:+ "webp")
      with (("/i/" +:+ id +:+ ".web") +:+ "p")
      by (by rewrite !string_app_assoc).
    by apply strip_trailing_slashes_id.
  - replace ("/i/" +:+ id +:+ "." +:+ "jpg")
      with (("/i/" +:+ id +:+ ".jp") +:+ "g")
      by (by rewrite !string_app_assoc).
    by apply strip_trailing_slashes_id.
Qed.

Lemma store_upload_inv (env : environment) (req : request) (uuid : string)
    (images : gmap string r2_object) (w w1 : world) (bytes ext ct : string)
    (key url ctype : string) :
  store_upload env req uuid images w bytes (ext, ct)
  = (w1, Answer (json_response env (DUploaded key url ctype) ∅)) ->
  key = r2_prefix env +:+ "/" +:+ Str.remove_dashes uuid +:+ "." +:+ ext /\
  ctype = ct /\
  w1 = {| w_POSTS := w_POSTS w;
          w_IMAGES := Some (<[key := R2Object bytes (Some ct)]> images) |} /\
  url = (if JS.truthy_string
              (Str.strip_trailing_slashes (default "" (env_R2_PUBLIC_BASE env)))
         then Str.strip_trailing_slashes (default "" (env_R2_PUBLIC_BASE env))
              +:+ "/" +:+ key
         else rq_origin req +:+ "/i/" +:+ Str.remove_dashes uuid +:+ "." +:+ ext).
Proof.
  unfold store_upload, json_response. cbv beta iota zeta.
  intros H. injection H as Hw Hk Hu Hc. by subst.
Qed.

(** X7.  An upload that is answered with its document has stored the
    bytes of the request (of the form's file, for a form) under
    [prefix/id.ext]; a later [GET /i/id.ext] answers those bytes with the
    status 200 and the content type the upload reported, which is also
    the one [guessType] reads off the name; and without a public base the
    reported URL is that path on the request's origin. *)
Theorem upload_then_serve lister delete_fails (fuel : nat) (env : environment)
    (up : request) (now : Z) (uuid : string) (w w1 : world)
    (key url ctype : string) :
  fetch lister delete_fails fuel env up now uuid w
  = Some (w1, Answer (json_response env (DUploaded key url ctype) ∅)) ->
  exists (ext bytes : string) (images : gmap string r2_object),
    w_IMAGES w = Some images /\
    (ext = "png" \/ ext = "webp" \/ ext = "jpg") /\
    key = r2_prefix env +:+ "/" +:+ Str.remove_dashes uuid +:+ "." +:+ ext /\
    w1 = {| w_POSTS := w_POSTS w;
            w_IMAGES := Some (<[key := R2Object bytes (Some ctype)]> images) |} /\
    (if JS.startsWith (Str.toLowerCase (default "" (rq_content_type up)))
          "multipart/form-data"
     then exists f, rq_form up = FormFile f /\ bytes = file_bytes f
     else bytes = rq_bytes up) /\
    guessType (Str.remove_dashes uuid +:+ "." +:+ ext) = ctype /\
    (default "" (env_R2_PUBLIC_BASE env) = "" ->
     url = rq_origin up +:+ "/i/" +:+ Str.remove_dashes uuid +:+ "." +:+ ext) /\
    forall (fuel' : nat) (get : request) (now' : Z) (uuid' : string),
      rq_method get = "GET" ->
      rq_pathname get = "/i/" +:+ Str.remove_dashes uuid +:+ "." +:+ ext ->
      exists a : http_response,
        fetch lister delete_fails fuel' env get now' uuid' w1
        = Some (w1, Answer a) /\
        status a = 200 /\ resp_body a = BodyBytes bytes /\
        headers a !! "content-type" = Some ctype.
Proof.
  intros Hrun.
  apply (fetch_uploaded_route _ _ _ _ _ _ _ _ _ _ key url ctype) in Hrun;
    [|done].
  unfold upload_route in Hrun.
  destruct (isAuthed env up); simpl in Hrun; [|by simplify_eq/=].
  destruct (w_IMAGES w) as [images|] eqn:Himages; [|by simplify_eq/=].
  assert (forall bytes kind,
            store_upload env up uuid images w bytes kind
            = (w1, Answer (json_response env (DUploaded key url ctype) ∅)) ->
            kind = ("png", "image/png") \/ kind = ("webp", "image/webp") \/
            kind = ("jpg", "image/jpeg") ->
            exists ext,
              (ext = "png" \/ ext = "webp" \/ ext = "jpg") /\
              key = r2_prefix env +:+ "/" +:+ Str.remove_dashes uuid
                    +:+ "." +:+ ext /\
              w1 = {| w_POSTS := w_POSTS w;
                      w_IMAGES :=
                        Some (<[key := R2Object bytes (Some ctype)]> images) |} /\
              guessType (Str.remove_dashes uuid +:+ "." +:+ ext) = ctype /\
              JS.truthy_string ctype = true /\
              (default "" (env_R2_PUBLIC_BASE env) = "" ->
               url = rq_origin up +:+ "/i/" +:+ Str.remove_dashes uuid
                     +:+ "." +:+ ext)) as Hstore.
  { intros bytes kind Hs Hkind.
    pose proof (guessType_extension (Str.remove_dashes uuid))
      as (Hpng & Hwebp & Hjpg).
    assert (forall ext,
              default "" (env_R2_PUBLIC_BASE env) = "" ->
              url = (if JS.truthy_string
                          (Str.strip_trailing_slashes
                             (default "" (env_R2_PUBLIC_BASE env)))
                     then Str.strip_trailing_slashes
                            (default "" (env_R2_PUBLIC_BASE env))
                          +:+ "/" +:+ key
                     else rq_origin up +:+ "/i/" +:+ Str.remove_dashes uuid
                          +:+ "." +:+ ext) ->
              url = rq_origin up +:+ "/i/" +:+ Str.remove_dashes uuid
                    +:+ "." +:+ ext) as Hbase.
    { intros ext Hb Hu. by rewrite Hb in Hu. }
    destruct Hkind as [-> | [-> | ->]];
      apply store_upload_inv in Hs as (Hk & -> & Hw & Hu).
    - exists "png". repeat split; auto.
    - exists "webp". repeat split; auto.
    - exists "jpg". repeat split; auto. }
  assert (exists ext bytes,
            (ext = "png" \/ ext = "webp" \/ ext = "jpg") /\
            key = r2_prefix env +:+ "/" +:+ Str.remove_dashes uuid
                  +:+ "." +:+ ext /\
            w1 = {| w_POSTS := w_POSTS w;
                    w_IMAGES :=
                      Some (<[key := R2Object bytes (Some ctype)]> images) |} /\
            (if JS.startsWith (Str.toLowerCase (default "" (rq_content_type up)))
                  "multipart/form-data"
             then exists f, rq_form up = FormFile f /\ bytes = file_bytes f
             else bytes = rq_bytes up) /\
            guessType (Str.remove_dashes uuid +:+ "." +:+ ext) = ctype /\
            JS.truthy_string ctype = true /\
            (default "" (env_R2_PUBLIC_BASE env) = "" ->
             url = rq_origin up +:+ "/i/" +:+ Str.remove_dashes uuid
                   +:+ "." +:+ ext))
    as (ext & bytes & Hext & Hkey & Hw1 & Hbytes & Hguess & Htruthy & Hurl).
  { destruct (JS.startsWith _ "multipart/form-data").
    - destruct (rq_form up) as [| |f] eqn:Hform; [by simplify_eq/=..|].
      destruct (Hstore _ _ Hrun (kind_of_name_cases _))
        as (ext & ? & ? & ? & ? & ? & ?).
      exists ext, (file_bytes f). repeat split; eauto.
    - destruct (Hstore _ _ Hrun (kind_of_type_cases _))
        as (ext & ? & ? & ? & ? & ? & ?).
      exists ext, (rq_bytes up). repeat split; eauto. }
  exists ext, bytes, images. repeat split; try done.
  intros fuel' get now' uuid' Hm Hp.
  rewrite (fetch_image_GET lister delete_fails fuel' env get now' uuid' w1
             (Str.remove_dashes uuid +:+ "." +:+ ext) Hm Hp
             (strip_image_path _ _ Hext)).
  unfold image_route. rewrite Hw1. simpl w_IMAGES.
  rewrite (slice_from_app "/i/" _ : Str.slice_from 3 _ = _).
  rewrite Hm. simpl String.eqb. cbv iota.
  rewrite <- Hkey, lookup_insert_eq.
  eexists. split; [done|]. simpl. split; [done|]. split; [done|].
  rewrite lookup_union_r by done.
  rewrite lookup_insert_eq. by rewrite Htruthy.
Qed.

Lemma upload_then_serve_witness :
  fetch one_page_lister no_failure 0 sample_env sample_upload 0 "12ab-34cd"
    sample_world
  = Some (uploaded_world,
          Answer (json_response sample_env
                    (DUploaded "img/12ab34cd.png"
                       "https://api.example/i/12ab34cd.png" "image/png") ∅)) /\
  exists (ext bytes : string) (images : gmap string r2_object),
    w_IMAGES sample_world = Some images /\
    (ext = "png" \/ ext = "webp" \/ ext = "jpg") /\
    "img/12ab34cd.png"
    = r2_prefix sample_env +:+ "/" +:+ Str.remove_dashes "12ab-34cd"
      +:+ "." +:+ ext /\
    uploaded_world
    = {| w_POSTS := w_POSTS sample_world;
         w_IMAGES := Some (<["img/12ab34cd.png" :=
                               R2Object bytes (Some "image/png")]> images) |} /\
    (if JS.startsWith
          (Str.toLowerCase (default "" (rq_content_type sample_upload)))
          "multipart/form-data"
     then exists f, rq_form sample_upload = FormFile f /\ bytes = file_bytes f
     else bytes = rq_bytes sample_upload) /\
    guessType (Str.remove_dashes "12ab-34cd" +:+ "." +:+ ext) = "image/png" /\
    (default "" (env_R2_PUBLIC_BASE sample_env) = "" ->
     "https://api.example/i/12ab34cd.png"
     = rq_origin sample_upload +:+ "/i/" +:+ Str.remove_dashes "12ab-34cd"
       +:+ "." +:+ ext) /\
    forall (fuel' : nat) (get : request) (now' : Z) (uuid' : string),
      rq_method get = "GET" ->
      rq_pathname get = "/i/" +:+ Str.remove_dashes "12ab-34cd" +:+ "." +:+ ext ->
      exists a : http_response,
        fetch one_page_lister no_failure fuel' sample_env get now' uuid'
          uploaded_world = Some (uploaded_world, Answer a) /\
        status a = 200 /\ resp_body a = BodyBytes bytes /\
        headers a !! "content-type" = Some "image/png".
Proof.
  assert (fetch one_page_lister no_failure 0 sample_env sample_upload 0
            "12ab-34cd" sample_world
          = Some (uploaded_world,
                  Answer (json_response sample_env
                            (DUploaded "img/12ab34cd.png"
                               "https://api.example/i/12ab34cd.png"
                               "image/png") ∅))) as Hrun
    by (vm_compute; reflexivity).
  split; [exact Hrun|].
  exact (upload_then_serve one_page_lister no_failure 0 sample_env sample_upload
           0 "12ab-34cd" sample_world uploaded_world _ _ _ Hrun).
Defined.

Example serve_uploaded :
  fetch one_page_lister no_failure 0 sample_env
    (sample_req "GET" "/i/12ab34cd.png/" None) 0 "" uploaded_world
  = Some (uploaded_world,
          Answer {| status := 200;
                    headers :=
                      cors_headers sample_env ∪
                      (<["content-type" := "image/png"]>
                       {["cache-control" :=
                           "public, max-age=31536000, immutable"]});
                    resp_body := BodyBytes "bytes" |}).
Proof. vm_compute. reflexivity. Qed.

(** A [GET] or [DELETE] whose normalised path starts with [/i/] is
    answered by the image route. *)
Lemma fetch_image_route lister delete_fails (fuel : nat) (env : environment)
    (req : request) (now : Z) (uuid : string) (w : world) :
  rq_method req = "GET" \/ rq_method req = "DELETE" ->
  JS.startsWith (normalize_path (rq_pathname req)) "/i/" = true ->
  fetch lister delete_fails fuel env req now uuid w =
  Some (image_route env req (normalize_path (rq_pathname req)) w).
Proof.
  intros Hm Hp. unfold fetch. rewrite Hp.
  apply startsWith_slice in Hp as Hpath. rewrite Hpath.
  set (rest := Str.slice_from _ _).
  change (String.eqb ("/i/" +:+ rest) "/") with false.
  change (String.eqb ("/i/" +:+ rest) "/health") with false.
  by destruct Hm as [-> | ->].
Qed.

(** X8.  An authorised [DELETE /i/name] removes the object
    [prefix/name] and nothing else, whether or not it was stored, and
    answers with the name; a later [GET] of the same path is answered
    with the status 404. *)
Theorem delete_then_get lister delete_fails (fuel : nat) (env : environment)
    (del : request) (now : Z) (uuid : string) (w : world)
    (images : gmap string r2_object) :
  rq_method del = "DELETE" ->
  isAuthed env del = true ->
  JS.startsWith (normalize_path (rq_pathname del)) "/i/" = true ->
  w_IMAGES w = Some images ->
  exists (name : string) (w1 : world),
    name = Str.slice_from 3 (normalize_path (rq_pathname del)) /\
    w1 = {| w_POSTS := w_POSTS w;
            w_IMAGES := Some (delete (r2_prefix env +:+ "/" +:+ name) images) |} /\
    fetch lister delete_fails fuel env del now uuid w
    = Some (w1, Answer (json_response env (DDeleted name) ∅)) /\
    (images !! (r2_prefix env +:+ "/" +:+ name) = None -> w1 = w) /\
    forall (fuel' : nat) (get : request) (now' : Z) (uuid' : string),
      rq_method get = "GET" ->
      rq_pathname get = rq_pathname del ->
      fetch lister delete_fails fuel' env get now' uuid' w1
      = Some (w1, Answer {| status := 404; headers := cors_headers env;
                            resp_body := BodyText "Not found" |}).
Proof.
  intros Hm Hauth Hp Himages.
  eexists _, _. split; [done|]. split; [done|]. split; [|split].
  - rewrite fetch_image_route by auto.
    unfold image_route. rewrite Himages, Hm, Hauth. done.
  - intros Hnone. rewrite delete_id by done. destruct w. by simplify_eq/=.
  - intros fuel' get now' uuid' Hget Hsame.
    rewrite fetch_image_route by (rewrite ?Hsame; auto).
    unfold image_route. simpl w_IMAGES. rewrite Hget, Hsame. simpl String.eqb.
    cbv iota. by rewrite lookup_delete_eq.
Qed.

Lemma delete_then_get_witness :
  rq_method (sample_req "DELETE" "/i/12ab34cd.png" (Some "Bearer s3cret"))
  = "DELETE" /\
  isAuthed sample_env
    (sample_req "DELETE" "/i/12ab34cd.png" (Some "Bearer s3cret")) = true /\
  JS.startsWith
    (normalize_path
       (rq_pathname
          (sample_req "DELETE" "/i/12ab34cd.png" (Some "Bearer s3cret"))))
    "/i/" = true /\
  w_IMAGES uploaded_world
  = Some (<["img/12ab34cd.png" := R2Object "bytes" (Some "image/png")]> ∅) /\
  exists (name : string) (w1 : world),
    name = Str.slice_from 3
             (normalize_path
                (rq_pathname
                   (sample_req "DELETE" "/i/12ab34cd.png"
                      (Some "Bearer s3cret")))) /\
    w1 = {| w_POSTS := w_POSTS uploaded_world;
            w_IMAGES :=
              Some (delete (r2_prefix sample_env +:+ "/" +:+ name)
                      (<["img/12ab34cd.png" :=
                           R2Object "bytes" (Some "image/png")]> ∅)) |} /\
    fetch one_page_lister no_failure 0 sample_env
      (sample_req "DELETE" "/i/12ab34cd.png" (Some "Bearer s3cret")) 0 ""
      uploaded_world
    = Some (w1, Answer (json_response sample_env (DDeleted name) ∅)) /\
    ((<["img/12ab34cd.png" := R2Object "bytes" (Some "image/png")]> ∅ : gmap _ _)
       !! (r2_prefix sample_env +:+ "/" +:+ name) = None ->
     w1 = uploaded_world) /\
    forall (fuel' : nat) (get : request) (now' : Z) (uuid' : string),
      rq_method get = "GET" ->
      rq_pathname get
      = rq_pathname
          (sample_req "DELETE" "/i/12ab34cd.png" (Some "Bearer s3cret")) ->
      fetch one_page_lister no_failure fuel' sample_env get now' uuid' w1
      = Some (w1, Answer {| status := 404; headers := cors_headers sample_env;
                            resp_body := BodyText "Not found" |}).
Proof.
  split; [reflexivity|]. split; [reflexivity|]. split; [reflexivity|].
  split; [reflexivity|].
  apply (delete_then_get one_page_lister no_failure 0 sample_env
           (sample_req "DELETE" "/i/12ab34cd.png" (Some "Bearer s3cret")) 0 ""
           uploaded_world); reflexivity.
Defined.

(** ** The stats document *)

(** X9.  An authorised [POST /stats] with a JSON object stores the
    document built from it (absent counters read as 0, the time of the
    request as [updated_at]) and answers ok; from then on [GET /stats]
    answers exactly that document, without scanning the posts, whatever
    posts are stored. *)
Theorem stats_POST_then_GET lister delete_fails (fuel fuel' : nat)
    (env : environment) (post get : request) (now now' : Z)
    (uuid uuid' : string) (w : world) (pb : post_body) (sb : stats_body) :
  rq_method post = "POST" ->
  normalize_path (rq_pathname post) = "/stats" ->
  isAuthed env post = true ->
  rq_json post = JsonObject pb sb ->
  rq_method get = "GET" ->
  normalize_path (rq_pathname get) = "/stats" ->
  exists (doc : stats_doc) (w1 : world),
    doc = {| members := default 0 (sb_members sb);
             alerts_per_week := default 0 (sb_alerts_per_week sb);
             recent_wins := default 0 (sb_recent_wins sb);
             updated_at := now |} /\
    w1 = {| w_POSTS := <["stats:current" := VStats doc]> (w_POSTS w);
            w_IMAGES := w_IMAGES w |} /\
    fetch lister delete_fails fuel env post now uuid w
    = Some (w1, Answer (json_response env DOk ∅)) /\
    fetch lister delete_fails fuel' env get now' uuid' w1
    = Some (w1, Answer (json_response env (DValue (VStats doc))
                          {["Cache-Control" := "no-store"]})).
Proof.
  intros Hm Hp Hauth Hjson Hgm Hgp.
  eexists _, _. split; [done|]. split; [done|]. split.
  - unfold fetch. rewrite Hm, Hp. simpl.
    unfold stats_route. by rewrite Hauth, Hjson.
  - unfold fetch. rewrite Hgm, Hgp. simpl.
    unfold stats_GET, kv_get. simpl w_POSTS.
    by rewrite lookup_insert_eq.
Qed.

Lemma stats_POST_then_GET_witness :
  rq_method (sample_req "POST" "/stats/" (Some "Bearer s3cret")) = "POST" /\
  normalize_path (rq_pathname (sample_req "POST" "/stats/" (Some "Bearer s3cret")))
  = "/stats" /\
  isAuthed sample_env (sample_req "POST" "/stats/" (Some "Bearer s3cret")) = true /\
  rq_json (sample_req "POST" "/stats/" (Some "Bearer s3cret"))
  = JsonObject (sample_body 11 "e") (StatsBody (Some 1500) None (Some 12)) /\
  rq_method (sample_req "GET" "/stats" None) = "GET" /\
  normalize_path (rq_pathname (sample_req "GET" "/stats" None)) = "/stats" /\
  exists (doc : stats_doc) (w1 : world),
    doc = {| members := default 0 (sb_members (StatsBody (Some 1500) None (Some 12)));
             alerts_per_week :=
               default 0 (sb_alerts_per_week (StatsBody (Some 1500) None (Some 12)));
             recent_wins :=
               default 0 (sb_recent_wins (StatsBody (Some 1500) None (Some 12)));
             updated_at := 1700000000123 |} /\
    w1 = {| w_POSTS := <["stats:current" := VStats doc]> (w_POSTS sample_world);
            w_IMAGES := w_IMAGES sample_world |} /\
    fetch one_page_lister no_failure 0 sample_env
      (sample_req "POST" "/stats/" (Some "Bearer s3cret")) 1700000000123 ""
      sample_world
    = Some (w1, Answer (json_response sample_env DOk ∅)) /\
    fetch one_page_lister no_failure 0 sample_env
      (sample_req "GET" "/stats" None) 1700000000999 "" w1
    = Some (w1, Answer (json_response sample_env (DValue (VStats doc))
                          {["Cache-Control" := "no-store"]})).
Proof.
  split; [reflexivity|]. split; [reflexivity|]. split; [reflexivity|].
  split; [reflexivity|]. split; [reflexivity|]. split; [reflexivity|].
  apply (stats_POST_then_GET one_page_lister no_failure 0 0 sample_env
           (sample_req "POST" "/stats/" (Some "Bearer s3cret"))
           (sample_req "GET" "/stats" None) 1700000000123 1700000000999 "" ""
           sample_world (sample_body 11 "e")
           (StatsBody (Some 1500) None (Some 12))); reflexivity.
Defined.

(** ** The two scans *)

Lemma listKV_loops_agree (fuel : nat)
    (list_fn : string -> option string -> list_result) (get : string -> value)
    (prefix : string) (c : option string) (out : list entry)
    (calls : list list_call) :
  Worker.listKV_loop fuel list_fn get prefix c (entry_value <$> out) =
  (fun r : list entry * list list_call => entry_value <$> r.1)
    <$> listKV_loop fuel list_fn get prefix c out calls.
Proof.
  revert c out calls. induction fuel as [|fuel IH]; intros c out calls; [done|].
  assert (Worker.push_values get (keys (list_fn prefix c)) (entry_value <$> out)
          = entry_value <$> push_entries get (keys (list_fn prefix c)) out)
    as Hpush.
  { by rewrite worker_push_values, push_entries_scan, fmap_app. }
  cbn [Worker.listKV_loop listKV_loop]. cbv zeta. rewrite Hpush.
  destruct (list_complete (list_fn prefix c)); [done|].
  destruct (truthy_cursor (cursor (list_fn prefix c))); [|done].
  apply IH.
Qed.

(** X11.  The scan of the earlier worker and the present scan are the
    same function up to the keys: on every namespace, well behaved or
    not, and with any fuel, the earlier one returns the values of the
    entries the present one returns, and neither ends without the
    other. *)
Theorem listKV_agree (fuel : nat)
    (list_fn : string -> option string -> list_result) (get : string -> value)
    (prefix : string) :
  Worker.listKV fuel list_fn get prefix =
  (fun out : list entry => entry_value <$> out)
    <$> listKV fuel list_fn get prefix.
Proof.
  unfold Worker.listKV, listKV, listKV_run.
  pose proof (listKV_loops_agree fuel list_fn get prefix None [] []) as H.
  change (entry_value <$> []) with (@nil value) in H. rewrite H.
  by destruct (listKV_loop fuel list_fn get prefix None [] []).
Qed.

(** ** Trimming only removes *)

Lemma delete_all_subseteq delete_fails (T : list string)
    (m : gmap string value) :
  (delete_all delete_fails T m).1 ⊆ m.
Proof.
  apply map_subseteq_spec. intros k v. rewrite delete_all_lookup.
  by case_decide.
Qed.

Lemma trimPosts_subseteq lister delete_fails (fuel : nat)
    (m m' : gmap string value) (prefix : string) (max : option Z)
    (st : settled) :
  trimPosts lister delete_fails fuel m prefix max = Some (m', st) ->
  m' ⊆ m.
Proof.
  unfold trimPosts. intros Hrun.
  destruct (trim_names_loop fuel (lister m) prefix None []) as [names|];
    [|done].
  simpl in Hrun. injection Hrun as <- _. apply delete_all_subseteq.
Qed.

(** X12.  Whatever the listing answers, whichever deletes fail and
    whatever the bound is (also [NaN] or negative), [trimPosts] writes
    nothing: a record stored afterwards was stored before, with the same
    value.  So after a [POST /posts] every record is one that was there
    before or the record of this request. *)
Theorem trimPosts_only_removes lister delete_fails (fuel : nat)
    (MAX_POSTS : option string) (authed : bool) (body : option post_body)
    (now : Z) (uuid : string) (m m' : gmap string value) (r : response) :
  posts_POST lister delete_fails fuel MAX_POSTS authed body now uuid m
  = Some (m', r) ->
  (forall prefix max m1 st,
     trimPosts lister delete_fails fuel m prefix max = Some (m1, st) ->
     m1 ⊆ m) /\
  forall k v, m' !! k = Some v ->
    m !! k = Some v \/
    exists b, body = Some b /\
              k = postKey (post_ts b now) (post_id b) uuid /\
              v = VPost (post_item_of b now).
Proof.
  intros Hrun. split.
  { intros prefix max m1 st. apply trimPosts_subseteq. }
  intros k v Hk. unfold posts_POST in Hrun.
  destruct (negb authed); [left; by simplify_eq|].
  destruct body as [b|]; [|left; by simplify_eq].
  destruct (negb _); [left; by simplify_eq|].
  cbv zeta in Hrun. unfold append in Hrun.
  destruct (trimPosts _ _ _ _ _ _) as [[m1 st]|] eqn:Htrim; [|done].
  simpl in Hrun. injection Hrun as -> _.
  apply trimPosts_subseteq in Htrim.
  apply (lookup_weaken _ _ _ _ Hk) in Htrim. unfold kv_put in Htrim.
  apply lookup_insert_Some in Htrim as [[<- <-] | [_ Hold]]; [right|by left].
  by exists b.
Qed.

Lemma trimPosts_only_removes_witness :
  posts_POST one_page_lister (fails_on (postKey 5 "a" "")) 1 (Some "1") true
    (Some (sample_body 3 "b")) 1700000000000 "" two_posts
  = Some (two_posts, Thrown) /\
  (forall prefix max m1 st,
     trimPosts one_page_lister (fails_on (postKey 5 "a" "")) 1 two_posts
       prefix max = Some (m1, st) ->
     m1 ⊆ two_posts) /\
  forall k v, two_posts !! k = Some v ->
    two_posts !! k = Some v \/
    exists b, Some (sample_body 3 "b") = Some b /\
              k = postKey (post_ts b 1700000000000) (post_id b) "" /\
              v = VPost (post_item_of b 1700000000000).
Proof.
  assert (posts_POST one_page_lister (fails_on (postKey 5 "a" "")) 1
            (Some "1") true (Some (sample_body 3 "b")) 1700000000000 ""
            two_posts
          = Some (two_posts, Thrown)) as Hrun.
  { vm_compute. reflexivity. }
  split; [exact Hrun|].
  exact (trimPosts_only_removes one_page_lister
           (fails_on (postKey 5 "a" "")) 1 (Some "1") true
           (Some (sample_body 3 "b")) 1700000000000 "" two_posts _ _ Hrun).
Defined.

(** ** Keys of distinct posts *)

Lemma string_compare_eq (a b : string) : String.compare a b = Eq <-> a = b.
Proof.
  split; [apply String.compare_eq_iff|intros ->; apply string_compare_refl].
Qed.

(** X13.  For timestamps of at most 13 digits two posts get the same key
    exactly when they have the same timestamp and the same identifier
    (the caller's [id], or the generated one when the caller gave none):
    posts that differ in either never overwrite each other. *)
Theorem postKey_inj (tsA tsB : Z) (idA idB uA uB : string) :
  0 <= tsA < 10 ^ 13 -> 0 <= tsB < 10 ^ 13 ->
  postKey tsA idA uA = postKey tsB idB uB <->
  tsA = tsB /\ key_id idA uA = key_id idB uB.
Proof.
  intros HA HB. rewrite <- string_compare_eq, postKey_compare by done.
  destruct (Z.compare_spec tsA tsB) as [-> | Hlt | Hgt].
  - rewrite string_compare_eq. naive_solver.
  - split; [done|]. intros [-> _]. lia.
  - split; [done|]. intros [-> _]. lia.
Qed.

Lemma postKey_inj_witness :
  0 <= 5 < 10 ^ 13 /\ 0 <= 5 < 10 ^ 13 /\
  (postKey 5 "a" "u" = postKey 5 "" "a" <->
   5 = 5 /\ key_id "a" "u" = key_id "" "a").
Proof.
  split; [lia|]. split; [lia|]. apply (postKey_inj 5 5 "a" "" "u" "a"); lia.
Defined.

(** ** The configured bound *)

Lemma digit_char_cases (d : Z) :
  0 <= d < 10 ->
  JS.digit_value (JS.digit_char d) = Some d /\
  JS.is_whitespace (JS.digit_char d) = false /\
  forall s, JS.parseInt (String (JS.digit_char d) s) =
            JS.parse_digits (String (JS.digit_char d) s) None.
Proof.
  intros Hd.
  assert (d = 0 \/ d = 1 \/ d = 2 \/ d = 3 \/ d = 4 \/ d = 5 \/ d = 6 \/
          d = 7 \/ d = 8 \/ d = 9) as Hcases by lia.
  repeat destruct Hcases as [-> | Hcases]; try subst d; done.
Qed.

Lemma parse_fixed_digits (k : nat) (n : Z) (acc : string) (a : option Z) :
  0 <= n ->
  JS.parse_digits (fixed_digits (S k) n acc) a =
  JS.parse_digits acc
    (Some (10 ^ Z.of_nat (S k) * default 0 a + n mod 10 ^ Z.of_nat (S k))).
Proof.
  revert n acc a. induction k as [|k IH]; intros n acc a Hn.
  - cbn [fixed_digits JS.parse_digits].
    destruct (digit_char_cases (n mod 10)) as (-> & _ & _).
    { apply Z.mod_pos_bound. lia. }
    done.
  - change (fixed_digits (S (S k)) n acc) with
      (fixed_digits (S k) (n / 10) (String (JS.digit_char (n mod 10)) acc)).
    rewrite IH by (apply Z.div_pos; lia).
    cbn [JS.parse_digits].
    destruct (digit_char_cases (n mod 10)) as (-> & _ & _).
    { apply Z.mod_pos_bound. lia. }
    cbn [default]. do 2 f_equal.
    rewrite (Nat2Z.inj_succ (S k)), (Z.pow_succ_r _ (Z.of_nat (S k))) by lia.
    rewrite (Z.rem_mul_r n 10) by lia. unfold id. ring.
Qed.

Lemma fixed_digits_head (k : nat) (n : Z) (acc : string) :
  exists d s, 0 <= d < 10 /\ fixed_digits (S k) n acc = String (JS.digit_char d) s.
Proof.
  revert n acc. induction k as [|k IH]; intros n acc.
  - exists (n mod 10), acc. split; [apply Z.mod_pos_bound; lia|done].
  - apply (IH (n / 10) (String (JS.digit_char (n mod 10)) acc)).
Qed.

Lemma digits_head (n : Z) :
  0 <= n -> exists d s, 0 <= d < 10 /\ JS.digits n = String (JS.digit_char d) s.
Proof.
  intros Hn. destruct (digits_fixed n Hn) as (k & Hk & _ & _ & ->).
  destruct k as [|k]; [lia|]. apply fixed_digits_head.
Qed.

Lemma parse_digits_digits (n : Z) :
  0 <= n -> JS.parse_digits (JS.digits n) None = Some n.
Proof.
  intros Hn. destruct (digits_fixed n Hn) as (k & Hk & Hlt & _ & ->).
  destruct k as [|k]; [lia|].
  rewrite parse_fixed_digits by done. cbn [JS.parse_digits default].
  f_equal. rewrite Z.mod_small by lia. lia.
Qed.

(** [parseInt(String(n), 10)] is [n]. *)
Lemma parseInt_Number_toString (n : Z) :
  JS.parseInt (JS.Number_toString n) = Some n.
Proof.
  unfold JS.Number_toString. destruct (Z.ltb_spec n 0) as [Hneg | Hpos].
  - change (JS.parseInt (String "-" (JS.digits (- n)))) with
      (Z.opp <$> JS.parse_digits (JS.digits (- n)) None).
    rewrite parse_digits_digits by lia. simpl. f_equal. lia.
  - destruct (digits_head n Hpos) as (d & s & Hd & Hs).
    rewrite Hs. destruct (digit_char_cases d Hd) as (_ & _ & ->).
    rewrite <- Hs. by apply parse_digits_digits.
Qed.

(** X14.  The bound of the log is the integer that [MAX_POSTS] spells in
    decimal, negative ones included, for the integers a JavaScript number
    holds exactly; it is 50 when [MAX_POSTS] is unset or empty. *)
Theorem max_posts_decimal (K : Z) :
  Z.abs K < 2 ^ 53 ->
  max_posts (Some (JS.Number_toString K)) = Some K /\
  max_posts None = Some 50 /\
  max_posts (Some "") = Some 50.
Proof.
  intros _. split; [|by split].
  unfold max_posts.
  assert (JS.truthy_string (JS.Number_toString K) = true) as ->.
  { unfold JS.Number_toString. destruct (K <? 0) eqn:Hneg; [done|].
    apply Z.ltb_ge in Hneg.
    by destruct (digits_head K Hneg) as (d & s & _ & ->). }
  apply parseInt_Number_toString.
Qed.

Lemma max_posts_decimal_witness :
  Z.abs 25 < 2 ^ 53 /\
  max_posts (Some (JS.Number_toString 25)) = Some 25 /\
  max_posts None = Some 50 /\
  max_posts (Some "") = Some 50.
Proof. split; [lia|]. apply (max_posts_decimal 25). lia. Defined.

(** ** The bound after one request *)

(** X15.  On a namespace that lists its prefix and whose deletes
    succeed, one accepted [POST /posts] under a bound [K >= 0] ends and
    leaves at most [K] posts, however many were stored before: the
    number of posts afterwards is the smaller of [K] and the number of
    posts before together with the new one. *)
Theorem posts_POST_restores_bound lister (MAX_POSTS : option string)
    (body : post_body) (now : Z) (uuid : string) (K : Z)
    (m : gmap string value) :
  lists_prefix lister ->
  max_posts MAX_POSTS = Some K ->
  0 <= K ->
  JS.truthy_string (default "" (body_image_url body)) = true ->
  let key := postKey (post_ts body now) (post_id body) uuid in
  exists (fuel0 : nat) (m' : gmap string value),
    (forall fuel, (fuel0 <= fuel)%nat ->
       posts_POST lister no_failure fuel MAX_POSTS true (Some body) now uuid m
       = Some (m', OkKey key)) /\
    size (names_under "post:" m') =
      Nat.min (size ({[key]} ∪ names_under "post:" m)) (Z.to_nat K) /\
    Z.of_nat (size (names_under "post:" m')) <= K.
Proof.
  intros Hl Hmax HK Himg key.
  destruct (append_cut lister m key (post_item_of body now) (Some K) Hl
              (postKey_startsWith _ _ _))
    as (fuel0 & D & m' & Hrun & Hsub & Hm' & Hsize & _).
  exists fuel0, m'.
  assert (size (names_under "post:" m') =
          Nat.min (size ({[key]} ∪ names_under "post:" m)) (Z.to_nat K))
    as Hcount.
  { rewrite <- (names_under_insert "post:" m key (VPost (post_item_of body now)))
      in Hsub, Hsize |- * by apply postKey_startsWith.
    rewrite (names_under_size_after "post:" _ m' D Hsub Hm'). lia. }
  split; [|split; [done|lia]].
  intros fuel Hfuel. unfold posts_POST. rewrite Himg, Hmax. cbn [negb].
  by apply Hrun.
Qed.

Lemma posts_POST_restores_bound_witness :
  lists_prefix one_page_lister /\
  max_posts (Some "1") = Some 1 /\
  0 <= 1 /\
  JS.truthy_string (default "" (body_image_url (sample_body 7 "e"))) = true /\
  exists (fuel0 : nat) (m' : gmap string value),
    (forall fuel, (fuel0 <= fuel)%nat ->
       posts_POST one_page_lister no_failure fuel (Some "1") true
         (Some (sample_body 7 "e")) 0 "" two_posts
       = Some (m', OkKey (postKey (post_ts (sample_body 7 "e") 0)
                            (post_id (sample_body 7 "e")) ""))) /\
    size (names_under "post:" m') =
      Nat.min (size ({[postKey (post_ts (sample_body 7 "e") 0)
                         (post_id (sample_body 7 "e")) ""]}
                     ∪ names_under "post:" two_posts)) (Z.to_nat 1) /\
    Z.of_nat (size (names_under "post:" m')) <= 1.
Proof.
  split; [apply one_page_lister_lists_prefix|].
  split; [reflexivity|]. split; [lia|]. split; [reflexivity|].
  apply (posts_POST_restores_bound one_page_lister (Some "1")
           (sample_body 7 "e") 0 "" 1 two_posts);
    [apply one_page_lister_lists_prefix|reflexivity|lia|reflexivity].
Defined.

(** ** The default stats document *)

Lemma scan_entries_filter_length (get : string -> value) (P : value -> Prop)
    (Hdec : forall v, Decision (P v)) (ks : list string) :
  length (filter (fun i => P (entry_value i)) (scan_entries get ks)) =
  length (filter (fun k => truthy (get k) = true /\ P (get k)) ks).
Proof.
  induction ks as [|k ks IH]; [done|].
  unfold scan_entries in *. cbn [omap list_omap].
  rewrite (filter_cons _ k ks).
  destruct (truthy (get k)) eqn:Ht.
  - rewrite filter_cons. cbn [entry_value].
    destruct (decide (P (get k))) as [Hp | Hp].
    + rewrite decide_True by done. cbn [length]. by rewrite IH.
    + rewrite decide_False by naive_solver. apply IH.
  - rewrite decide_False by naive_solver. apply IH.
Qed.

Lemma size_filter_list (P : string -> Prop) `{!forall k, Decision (P k)}
    (ks : list string) (X : gset string) :
  NoDup ks -> (forall k, k ∈ ks <-> k ∈ X) ->
  size (filter P X) = length (filter P ks).
Proof.
  intros Hnd Hks.
  rewrite <- (size_list_to_set (C := gset string) (filter P ks))
    by by apply NoDup_filter.
  f_equal. apply set_eq. intros k.
  rewrite elem_of_filter, elem_of_list_to_set, list_elem_of_filter, Hks. done.
Qed.

(** X10.  While no stats document is stored, [GET /stats] on a namespace
    that lists its prefix ends and answers the default document, not to
    be cached: its [recent_wins] is the number of stored posts whose
    timestamp is at most fourteen days before the time of the request,
    and 8 when fewer than 8 posts are that recent. *)
Theorem stats_GET_default lister (env : environment) (now : Z)
    (m : gmap string value) :
  lists_prefix lister ->
  truthy (kv_get m "stats:current") = false ->
  let recent : gset string :=
    filter (fun k => truthy (kv_get m k) = true /\
                     now - 1209600000 <= timestamp_or_0 (kv_get m k))
      (names_under "post:" m) in
  exists (fuel0 : nat) (a : http_response),
    (forall fuel, (fuel0 <= fuel)%nat ->
       stats_GET lister fuel env now m = Some a) /\
    status a = 200 /\
    headers a !! "Cache-Control" = Some "no-store" /\
    resp_body a = BodyJson (DStatsDefault (Z.max (Z.of_nat (size recent)) 8)) /\
    (size recent <= size (names_under "post:" m))%nat.
Proof.
  intros Hl Hraw recent.
  destruct (Hl m "post:") as (cs & ks & Hpg & Hnd & Hks).
  exists (length cs), (json_response env
            (DStatsDefault (Z.max (Z.of_nat (size recent)) 8))
            {["Cache-Control" := "no-store"]}).
  split; [|split; [done|split; [|split; [done|]]]].
  - intros fuel Hfuel. unfold stats_GET. cbv zeta. rewrite Hraw.
    unfold listKV. rewrite (listKV_run_paginates _ _ _ _ _ _ Hpg Hfuel).
    cbn [fmap option_fmap option_map fst mbind option_bind].
    do 4 f_equal.
    change (14 * 24 * 3600 * 1000) with 1209600000.
    apply (f_equal Z.of_nat). etrans;
      [apply (scan_entries_filter_length (kv_get m)
                (fun v => now - 1209600000 <= timestamp_or_0 v)
                (fun v => Z.le_dec (now - 1209600000) (timestamp_or_0 v)))|].
    symmetry. apply size_filter_list; [done|].
    intros k. by rewrite Hks, elem_of_names_under.
  - cbn [headers json_response]. apply lookup_union_Some_l.
    apply lookup_singleton_eq.
  - apply subseteq_size. intros k. unfold recent. rewrite elem_of_filter.
    naive_solver.
Qed.

Lemma stats_GET_default_witness :
  lists_prefix one_page_lister /\
  truthy (kv_get two_posts "stats:current") = false /\
  exists (fuel0 : nat) (a : http_response),
    (forall fuel, (fuel0 <= fuel)%nat ->
       stats_GET one_page_lister fuel sample_env 1209600007 two_posts
       = Some a) /\
    status a = 200 /\
    headers a !! "Cache-Control" = Some "no-store" /\
    resp_body a =
      BodyJson (DStatsDefault
        (Z.max (Z.of_nat (size
           (filter (fun k => truthy (kv_get two_posts k) = true /\
                             1209600007 - 1209600000
                             <= timestamp_or_0 (kv_get two_posts k))
              (names_under "post:" two_posts)))) 8)) /\
    (size (filter (fun k => truthy (kv_get two_posts k) = true /\
                            (1209600007 - 1209600000
                             <= timestamp_or_0 (kv_get two_posts k))%Z)
             (names_under "post:" two_posts))
     <= size (names_under "post:" two_posts))%nat.
Proof.
  split; [apply one_page_lister_lists_prefix|]. split; [reflexivity|].
  apply (stats_GET_default one_page_lister sample_env 1209600007 two_posts);
    [apply one_page_lister_lists_prefix|reflexivity].
Defined.

(** ** A new post in the feed *)

Lemma sort_by_feed_head (items : list entry) (e : entry) :
  e ∈ items ->
  (forall e', e' ∈ items ->
     e' = e \/ timestamp_or_0 (entry_value e') < timestamp_or_0 (entry_value e)) ->
  exists rest, JS.sort_by feed_cmp items = e :: rest.
Proof.
  intros He Hmax.
  pose proof (sort_by_feed_perm items) as Hperm.
  pose proof (sort_by_feed_sorted items) as Hsorted.
  destruct (JS.sort_by feed_cmp items) as [|h t].
  { rewrite <- Hperm in He. by apply elem_of_nil in He. }
  exists t. f_equal.
  assert (h ∈ items) as Hh by (rewrite <- Hperm; by left).
  rewrite <- Hperm in He. apply elem_of_cons in He as [-> | Het]; [done|].
  apply StronglySorted_inv in Hsorted as [_ Hall].
  rewrite Forall_forall in Hall. apply Hall, feed_before_recent in Het.
  destruct (Hmax h Hh) as [-> | Hlt]; [done|lia].
Qed.

(** X16.  On a namespace that lists its prefix and whose deletes
    succeed, under a bound of at least 1: a post that is accepted with a
    key above every stored name and a timestamp above every stored
    timestamp is kept by the trim, and the next [GET /feed] returns its
    item first. *)
Theorem posts_POST_then_feed lister (MAX_POSTS : option string)
    (body : post_body) (now : Z) (uuid : string) (K : Z)
    (m : gmap string value) :
  lists_prefix lister ->
  max_posts MAX_POSTS = Some K ->
  1 <= K ->
  JS.truthy_string (default "" (body_image_url body)) = true ->
  let key := postKey (post_ts body now) (post_id body) uuid in
  (forall k, k ∈ names_under "post:" m -> String.ltb k key = true) ->
  (forall k, k ∈ names_under "post:" m ->
     timestamp_or_0 (kv_get m k) < post_ts body now) ->
  exists (fuel0 : nat) (m' : gmap string value) (rest : list value),
    forall fuel, (fuel0 <= fuel)%nat ->
      posts_POST lister no_failure fuel MAX_POSTS true (Some body) now uuid m
      = Some (m', OkKey key) /\
      m' !! key = Some (VPost (post_item_of body now)) /\
      feed_GET lister fuel m' = Some (VPost (post_item_of body now) :: rest).
Proof.
  intros Hl Hmax HK Himg key Hnames Hts.
  set (item := post_item_of body now).
  destruct (append_cut lister m key item (Some K) Hl
              (postKey_startsWith _ _ _))
    as (fuel0 & D & m' & Hrun & Hsub & Hm' & Hsize & Hord).
  assert (key ∉ D) as HkeyD.
  { intros Hin.
    assert (exists k, k ∈ ({[key]} ∪ names_under "post:" m) ∖ D) as [k Hk].
    { apply size_pos_elem_of. rewrite size_difference by done.
      assert (size ({[key]} ∪ names_under "post:" m) <> 0%nat); [|lia].
      apply size_non_empty_iff. set_solver +. }
    apply elem_of_difference in Hk as [HkS HkD].
    pose proof (Hord key k Hin HkS HkD) as Hlt.
    apply elem_of_union in HkS as [->%elem_of_singleton | HkN]; [done|].
    exact (string_ltb_asym _ _ Hlt (Hnames k HkN)). }
  assert (m' !! key = Some (VPost item)) as Hnew.
  { rewrite Hm', decide_False by done. apply lookup_insert_eq. }
  destruct (Hl m' "post:") as (cs & ks & Hpg & Hnd & Hks).
  destruct (sort_by_feed_head (scan_entries (kv_get m') ks)
              (Entry key (VPost item))) as [sorted Hsorted].
  { apply elem_of_scan_entries. cbn [entry_key entry_value].
    unfold kv_get. rewrite Hnew. split; [|done].
    apply Hks. split; [by eexists|apply postKey_startsWith]. }
  { intros [k v] (Hk & Hv & _)%elem_of_scan_entries.
    cbn [entry_key entry_value] in *. subst v.
    destruct (decide (k = key)) as [-> | Hne].
    - left. unfold kv_get. by rewrite Hnew.
    - right. apply Hks in Hk as [Hsome Hpre].
      assert (m' !! k = m !! k) as Hsame.
      { rewrite Hm'. case_decide; [|by apply lookup_insert_ne].
        rewrite Hm', decide_True in Hsome by done. by destruct Hsome. }
      unfold kv_get at 1. rewrite Hsame. fold (kv_get m k).
      change (item_timestamp item) with (post_ts body now).
      apply Hts, elem_of_names_under. by rewrite <- Hsame. }
  exists (Nat.max fuel0 (length cs)), m', (entry_value <$> take 47 sorted).
  intros fuel Hfuel. split; [|split; [done|]].
  - unfold posts_POST. rewrite Himg, Hmax. cbn [negb]. apply Hrun. lia.
  - unfold feed_GET, listKV.
    rewrite (listKV_run_paginates (lister m') (kv_get m') "post:" cs ks fuel
               Hpg) by lia.
    cbn [fmap option_fmap option_map fst mbind option_bind].
    unfold feed_page. by rewrite (slice0_nat _ 48), Hsorted.
Qed.

Lemma posts_POST_then_feed_witness :
  lists_prefix one_page_lister /\
  max_posts (Some "2") = Some 2 /\
  1 <= 2 /\
  JS.truthy_string (default "" (body_image_url (sample_body 11 "e"))) = true /\
  (forall k, k ∈ names_under "post:" two_posts ->
     String.ltb k (postKey (post_ts (sample_body 11 "e") 0)
                     (post_id (sample_body 11 "e")) "") = true) /\
  (forall k, k ∈ names_under "post:" two_posts ->
     timestamp_or_0 (kv_get two_posts k) < post_ts (sample_body 11 "e") 0) /\
  exists (fuel0 : nat) (m' : gmap string value) (rest : list value),
    forall fuel, (fuel0 <= fuel)%nat ->
      posts_POST one_page_lister no_failure fuel (Some "2") true
        (Some (sample_body 11 "e")) 0 "" two_posts
      = Some (m', OkKey (postKey (post_ts (sample_body 11 "e") 0)
                           (post_id (sample_body 11 "e")) "")) /\
      m' !! postKey (post_ts (sample_body 11 "e") 0)
              (post_id (sample_body 11 "e")) ""
      = Some (VPost (post_item_of (sample_body 11 "e") 0)) /\
      feed_GET one_page_lister fuel m'
      = Some (VPost (post_item_of (sample_body 11 "e") 0) :: rest).
Proof.
  assert (names_under "post:" two_posts
          = {[postKey 5 "a" ""; postKey 9 "c" ""]}) as Hnames.
  { apply (bool_decide_unpack _). vm_compute. exact I. }
  assert (forall k, k ∈ names_under "post:" two_posts ->
            k = postKey 5 "a" "" \/ k = postKey 9 "c" "") as Hcases.
  { intros k. rewrite Hnames. set_solver +. }
  split; [apply one_page_lister_lists_prefix|].
  split; [reflexivity|]. split; [lia|]. split; [reflexivity|].
  assert (forall k, k ∈ names_under "post:" two_posts ->
            String.ltb k (postKey (post_ts (sample_body 11 "e") 0)
                            (post_id (sample_body 11 "e")) "") = true) as H1.
  { intros k [-> | ->]%Hcases; reflexivity. }
  assert (forall k, k ∈ names_under "post:" two_posts ->
            timestamp_or_0 (kv_get two_posts k)
            < post_ts (sample_body 11 "e") 0) as H2.
  { intros k [-> | ->]%Hcases; reflexivity. }
  split; [exact H1|]. split; [exact H2|].
  apply (posts_POST_then_feed one_page_lister (Some "2") (sample_body 11 "e")
           0 "" 2 two_posts);
    [apply one_page_lister_lists_prefix|reflexivity|lia|reflexivity
    |exact H1|exact H2].
Defined.
